(** * The Docker executor of gitlab-ci-multi-runner

    A shallow embedding of [executors/docker/executor_docker.go] and of
    [PowerShell.GetConfiguration] from [shells/powershell.go].

    Go strings are [string]; Go maps are stdpp's [gmap]/[gset]; the mutable
    [*executor] receiver is threaded explicitly together with the history of
    calls made on the Docker client.  Go [error] values are returned as data,
    a nil-pointer dereference is the outcome [Panic]. *)

From Stdlib Require Import ZArith Ascii String List Bool.
From stdpp Require Import base option list strings gmap pretty.

Local Open Scope string_scope.
Local Open Scope Z_scope.
Local Open Scope list_scope.

(** ** The parts of Go's standard library the executor calls *)

Module GoStrings.

(** [strings.ContainsAny(s, chars)] for ASCII [chars]. *)
Fixpoint ContainsAny (s chars : string) : bool :=
  match s with
  | EmptyString => false
  | String c s' =>
      existsb (Ascii.eqb c) (list_ascii_of_string chars) || ContainsAny s' chars
  end.

Fixpoint HasPrefix (s p : string) : bool :=
  match p, s with
  | EmptyString, _ => true
  | String a p', String b s' => Ascii.eqb a b && HasPrefix s' p'
  | String _ _, EmptyString => false
  end.

(** [strings.Contains(s, substr)]. *)
Fixpoint Contains (s substr : string) : bool :=
  HasPrefix s substr ||
  match s with
  | EmptyString => false
  | String _ s' => Contains s' substr
  end.

(** Cut [s] at the first occurrence of the byte [sep]. *)
Fixpoint cut (sep : ascii) (s : string) : string * option string :=
  match s with
  | EmptyString => (EmptyString, None)
  | String c s' =>
      if Ascii.eqb c sep then (EmptyString, Some s')
      else let '(a, b) := cut sep s' in (String c a, b)
  end.

(** [strings.SplitN(s, sep, 2)] for a one-byte separator: at most two
    parts, the second one keeps every later separator. *)
Definition SplitN2 (s : string) (sep : ascii) : list string :=
  match cut sep s with
  | (a, None) => [a]
  | (a, Some b) => [a; b]
  end.

(** [strings.Split(s, sep)] for a one-byte separator. *)
Fixpoint Split (s : string) (sep : ascii) : list string :=
  match s with
  | EmptyString => [EmptyString]
  | String c s' =>
      match Split s' sep with
      | [] => [String c EmptyString]
      | p :: ps => if Ascii.eqb c sep then EmptyString :: p :: ps
                   else String c p :: ps
      end
  end.

(** [strings.Replace(s, old, new, -1)] for a one-byte [old]. *)
Fixpoint ReplaceAll (s : string) (old : ascii) (new : string) : string :=
  match s with
  | EmptyString => EmptyString
  | String c s' =>
      if Ascii.eqb c old then new +:+ ReplaceAll s' old new
      else String c (ReplaceAll s' old new)
  end.

(** [strings.Join(elems, sep)]. *)
Fixpoint Join (elems : list string) (sep : string) : string :=
  match elems with
  | [] => EmptyString
  | [e] => e
  | e :: es => e +:+ sep +:+ Join es sep
  end.

End GoStrings.

(** Package [path]: slash-separated paths, purely lexical. *)
Module GoPath.

Definition slash : ascii := "/"%char.

Definition IsAbs (p : string) : bool :=
  match p with
  | String c _ => Ascii.eqb c slash
  | EmptyString => false
  end.

(** One element of the path read by [Clean]; [acc] holds the elements
    written so far, last one first.  A [".."] stays in [acc] only at the
    front of a path that is not rooted, where it cannot be cancelled. *)
Definition clean_step (rooted : bool) (acc : list string) (c : string)
  : list string :=
  if String.eqb c "" || String.eqb c "." then acc
  else if String.eqb c ".." then
    match acc with
    | top :: rest => if String.eqb top ".." then c :: acc else rest
    | [] => if rooted then [] else [c]
    end
  else c :: acc.

Definition Clean (p : string) : string :=
  if String.eqb p "" then "."
  else
    let rooted := IsAbs p in
    let out := rev (fold_left (clean_step rooted) (GoStrings.Split p slash) []) in
    if rooted then "/" +:+ GoStrings.Join out "/"
    else match out with
         | [] => "."
         | _ => GoStrings.Join out "/"
         end.

(** [i := strings.LastIndex(path, "/"); path[:i+1]]: everything up to and
    including the last slash. *)
Fixpoint dirPart (p : string) : string :=
  match p with
  | EmptyString => EmptyString
  | String c p' =>
      if GoStrings.ContainsAny p "/" then String c (dirPart p') else EmptyString
  end.

Definition Dir (p : string) : string := Clean (dirPart p).

(** [path.Join(a, b)]. *)
Definition Join2 (a b : string) : string :=
  if String.eqb a "" && String.eqb b "" then ""
  else if String.eqb a "" then Clean b
  else Clean (a +:+ "/" +:+ b).

End GoPath.

(** ** Errors *)

(** A Go [error] value.  [errorString] is what [errors.New] and [fmt.Errorf]
    build; [clientError] is an error handed back by the Docker client, with
    the answer of [docker_helpers.IsErrNotFound] attached; [BuildError] is
    [&common.BuildError{Inner: err}]. *)
Inductive error : Type :=
| errorString (msg : string)
| clientError (notFound : bool) (msg : string)
| BuildError (Inner : error).

Fixpoint Error (e : error) : string :=
  match e with
  | errorString msg => msg
  | clientError _ msg => msg
  | BuildError inner => Error inner
  end.

Definition IsErrNotFound (e : error) : bool :=
  match e with
  | clientError nf _ => nf
  | _ => false
  end.

(** ** Data model: the Docker API types the executor touches *)

Record ImageInspect := { image_ID : string }.

Record Info := { Architecture : string }.

Record AuthConfig := {
  Username : string;
  Password : string;
  ServerAddress : string }.

Record DeviceMapping := {
  PathOnHost : string;
  PathInContainer : string;
  CgroupPermissions : string }.

Record RestartPolicy := { restart_Name : string }.

Definition neverRestartPolicy : RestartPolicy := {| restart_Name := "no" |}.

(** [container.Config]; [Volumes] is a [map[string]struct{}], that is a set
    of paths. *)
Record ContainerConfig := {
  cfg_Image : string;
  cfg_Hostname : string;
  cfg_Cmd : list string;
  cfg_Volumes : gset string;
  cfg_Labels : gmap string string;
  cfg_Tty : bool;
  cfg_AttachStdin : bool;
  cfg_AttachStdout : bool;
  cfg_AttachStderr : bool;
  cfg_OpenStdin : bool;
  cfg_StdinOnce : bool;
  cfg_Env : list string }.

(** [container.HostConfig], with [Resources] and [LogConfig] flattened. *)
Record HostConfig := {
  hc_CpusetCpus : string;
  hc_Devices : list DeviceMapping;
  hc_DNS : list string;
  hc_DNSSearch : list string;
  hc_Privileged : bool;
  hc_CapAdd : list string;
  hc_CapDrop : list string;
  hc_SecurityOpt : list string;
  hc_RestartPolicy : RestartPolicy;
  hc_ExtraHosts : list string;
  hc_NetworkMode : string;
  hc_Links : list string;
  hc_Binds : list string;
  hc_VolumeDriver : string;
  hc_VolumesFrom : list string;
  hc_LogConfig_Type : string }.

Record ContainerState := { Running : bool; ExitCode : Z }.

(** [types.ContainerJSON] as returned by [ContainerInspect]; the [Config]
    pointer of an inspected container is taken to be set. *)
Record ContainerJSON := {
  json_ID : string;
  json_Config : ContainerConfig;
  json_State : ContainerState }.

(** [types.Container]; only built by [fakeContainer]. *)
Record Container := { ID : string; Names : list string }.

Definition fakeContainer (id : string) (names : list string) : Container :=
  {| ID := id; Names := names |}.

Record ContainerCreateResponse := { resp_ID : string }.

(** [types.NetworkResource]; [Containers] maps endpoint keys to the names of
    the plugged containers. *)
Record NetworkResource := {
  net_Name : string;
  net_ID : string;
  net_Containers : gmap string string }.

Record ImagePullOptions := { RegistryAuth : string }.

Record ContainerRemoveOptions := { RemoveVolumes : bool; Force : bool }.

(** ** The Docker client

    [docker_helpers.Client] is an interface.  Every method call made by the
    executor is recorded as an [event]; a [history] lists the events with
    the most recent one first.  A client is a deterministic daemon: what a
    method answers is a function of the calls made before it.  Go methods
    return a value together with an error, and so do these. *)
Inductive event : Type :=
| CallInfo
| CallImageInspectWithRaw (imageName : string)
| CallImagePullBlocking (ref : string) (options : ImagePullOptions)
| CallImageImportBlocking (data sourceName ref tag : string)
| CallContainerCreate (config : ContainerConfig) (hostConfig : HostConfig)
                      (containerName : string)
| CallContainerStart (id : string)
| CallContainerInspect (id : string)
| CallContainerRemove (id : string) (options : ContainerRemoveOptions)
| CallNetworkList
| CallNetworkDisconnect (networkID id : string) (force : bool)
| CallClose
| Sleep (seconds : Z).

Definition history := list event.

Record Client := {
  ClientInfo : history -> Info * option error;
  ImageInspectWithRaw : history -> string -> ImageInspect * option error;
  ImagePullBlocking : history -> string -> ImagePullOptions -> option error;
  ImageImportBlocking : history -> string -> string -> string -> string -> option error;
  ContainerCreate : history -> ContainerConfig -> HostConfig -> string ->
                    ContainerCreateResponse * option error;
  ContainerStart : history -> string -> option error;
  ContainerInspect : history -> string -> ContainerJSON * option error;
  ContainerRemove : history -> string -> ContainerRemoveOptions -> option error;
  NetworkList : history -> list NetworkResource * option error;
  NetworkDisconnect : history -> string -> string -> bool -> option error;
  ClientClose : history -> option error }.

(** ** Runner configuration, build job and shell configuration
    ([common] package; only the fields the executor reads) *)

Inductive DockerPullPolicy := PullPolicyAlways | PullPolicyNever | PullPolicyIfNotPresent.

Inductive GitStrategy := GitClone | GitFetch.

#[export] Instance GitStrategy_eq_dec : EqDecision GitStrategy.
Proof. solve_decision. Defined.

#[export] Instance DockerPullPolicy_eq_dec : EqDecision DockerPullPolicy.
Proof. solve_decision. Defined.

Record DockerConfig := {
  DockerCredentials : string;
  Hostname : string;
  Image : string;
  CPUSetCPUs : string;
  DNS : list string;
  DNSSearch : list string;
  Privileged : bool;
  CapAdd : list string;
  CapDrop : list string;
  SecurityOpt : list string;
  Devices : list string;
  DisableCache : bool;
  Volumes : list string;
  VolumeDriver : string;
  CacheDir : string;
  ExtraHosts : list string;
  VolumesFrom : list string;
  NetworkMode : string;
  Links : list string;
  Services : list string;
  WaitForServicesTimeout : Z;
  AllowedImages : list string;
  AllowedServices : list string;
  (** the result of [PullPolicy.Get()] *)
  PullPolicy_Get : DockerPullPolicy * option error }.

Record RunnerConfig := {
  BuildsDir : string;
  Docker : option DockerConfig }.

Record Credentials := {
  cred_Type : string;
  cred_URL : string;
  cred_Username : string;
  cred_Password : string }.

Record dockerOptions := {
  opt_Image : string;
  opt_Services : list string }.

(** [common.Build]: its fields, and the values of the getter methods the
    executor calls on it. *)
Record Build := {
  build_ID : Z;
  Sha : string;
  BeforeSha : string;
  RefName : string;
  ProjectID : Z;
  RunnerID : Z;
  Runner_ShortDescription : string;
  build_Credentials : list Credentials;
  RootDir : string;
  FullProjectDir : string;
  ProjectUniqueName : string;
  GetGitStrategy : GitStrategy;
  GetDockerAuthConfig : string;
  (** [GetAllVariables().ExpandValue] *)
  ExpandValue : string -> string;
  (** [GetAllVariables().StringList()] *)
  AllVariables_StringList : list string;
  (** [GetAllVariables().PublicOrInternal().StringList()] *)
  PublicOrInternal_StringList : list string;
  (** [Options.Decode(&options)] *)
  Options_Decode : dockerOptions -> dockerOptions * option error }.

Record ShellConfiguration := {
  Environment : list string;
  Command : string;
  Arguments : list string;
  PassFile : bool;
  Extension : string }.

(** ** Executor state *)

(** [executors.AbstractExecutor], embedded in the executor. *)
Record AbstractExecutor := {
  DefaultBuildsDir : string;
  SharedBuildsDir : bool;
  Config : RunnerConfig;
  TheBuild : option Build;
  BuildShell : option ShellConfiguration;
  (** [Shell().User] *)
  Shell_User : string }.

Record executor := {
  abstract : AbstractExecutor;
  client : option Client;
  failures : list string;
  builds : list Container;
  services : list Container;
  caches : list string;
  options : dockerOptions;
  info : Info;
  binds : list string;
  volumesFrom : list string;
  devices : list DeviceMapping;
  links : list string }.

(** ** The executor monad

    A method of [*executor] reads and updates the receiver and talks to the
    client: it is a function of the executor and the history.  [Panic] is a
    Go run-time panic (a nil dereference or an index out of range);
    [OutOfFuel] only arises from the polling loop of [waitForContainer]. *)
Inductive outcome (A : Type) : Type :=
| Done (a : A) (s : executor) (h : history)
| Panic (h : history)
| OutOfFuel.

Arguments Done {A} a s h.
Arguments Panic {A} h.
Arguments OutOfFuel {A}.

Definition M (A : Type) : Type := executor -> history -> outcome A.

#[export] Instance M_ret : MRet M := fun A a s h => Done a s h.

#[export] Instance M_bind : MBind M := fun A B f m s h =>
  match m s h with
  | Done a s' h' => f a s' h'
  | Panic h' => Panic h'
  | OutOfFuel => OutOfFuel
  end.

Definition panic {A} : M A := fun _ h => Panic h.
Definition outOfFuel {A} : M A := fun _ _ => OutOfFuel.
Definition get : M executor := fun s h => Done s s h.
Definition modify (f : executor -> executor) : M unit := fun s h => Done tt (f s) h.

(** Dereferencing a pointer that may be nil. *)
Definition deref {A} (p : option A) : M A :=
  match p with
  | Some a => mret a
  | None => panic
  end.

(** [s.Config.Docker], [s.Build] and [s.BuildShell] are pointers. *)
Definition theDocker : M DockerConfig := s ← get; deref (Docker (Config (abstract s))).
Definition theBuild : M Build := s ← get; deref (TheBuild (abstract s)).
Definition theBuildShell : M ShellConfiguration := s ← get; deref (BuildShell (abstract s)).

(** A call of a client method: panics when [s.client] is nil, otherwise
    asks the daemon and records the call. *)
Definition call {A} (ev : event) (answer : Client -> history -> A) : M A :=
  fun s h =>
    match client s with
    | None => Panic h
    | Some c => Done (answer c h) s (ev :: h)
    end.

Definition callImageInspectWithRaw (imageName : string) :=
  call (CallImageInspectWithRaw imageName) (fun c h => ImageInspectWithRaw c h imageName).
Definition callImagePullBlocking (ref : string) (options : ImagePullOptions) :=
  call (CallImagePullBlocking ref options) (fun c h => ImagePullBlocking c h ref options).
Definition callImageImportBlocking (data sourceName ref tag : string) :=
  call (CallImageImportBlocking data sourceName ref tag)
       (fun c h => ImageImportBlocking c h data sourceName ref tag).
Definition callContainerCreate (config : ContainerConfig) (hostConfig : HostConfig)
    (containerName : string) :=
  call (CallContainerCreate config hostConfig containerName)
       (fun c h => ContainerCreate c h config hostConfig containerName).
Definition callContainerStart (id : string) :=
  call (CallContainerStart id) (fun c h => ContainerStart c h id).
Definition callContainerInspect (id : string) :=
  call (CallContainerInspect id) (fun c h => ContainerInspect c h id).
Definition callContainerRemove (id : string) (options : ContainerRemoveOptions) :=
  call (CallContainerRemove id options) (fun c h => ContainerRemove c h id options).
Definition callNetworkList :=
  call CallNetworkList (fun c h => NetworkList c h).
Definition callNetworkDisconnect (networkID id : string) (force : bool) :=
  call (CallNetworkDisconnect networkID id force)
       (fun c h => NetworkDisconnect c h networkID id force).

(** [time.Sleep(time.Second)]. *)
Definition sleepSecond : M unit := fun s h => Done tt s (Sleep 1 :: h).

(** Setters for the registries of the executor. *)
Definition set_failures (f : list string -> list string) (s : executor) : executor :=
  {| abstract := abstract s; client := client s; failures := f (failures s);
     builds := builds s; services := services s; caches := caches s;
     options := options s; info := info s; binds := binds s;
     volumesFrom := volumesFrom s; devices := devices s; links := links s |}.

Definition set_services (f : list Container -> list Container) (s : executor) : executor :=
  {| abstract := abstract s; client := client s; failures := failures s;
     builds := builds s; services := f (services s); caches := caches s;
     options := options s; info := info s; binds := binds s;
     volumesFrom := volumesFrom s; devices := devices s; links := links s |}.

Definition set_caches (f : list string -> list string) (s : executor) : executor :=
  {| abstract := abstract s; client := client s; failures := failures s;
     builds := builds s; services := services s; caches := f (caches s);
     options := options s; info := info s; binds := binds s;
     volumesFrom := volumesFrom s; devices := devices s; links := links s |}.

Definition set_binds (f : list string -> list string) (s : executor) : executor :=
  {| abstract := abstract s; client := client s; failures := failures s;
     builds := builds s; services := services s; caches := caches s;
     options := options s; info := info s; binds := f (binds s);
     volumesFrom := volumesFrom s; devices := devices s; links := links s |}.

Definition set_volumesFrom (f : list string -> list string) (s : executor) : executor :=
  {| abstract := abstract s; client := client s; failures := failures s;
     builds := builds s; services := services s; caches := caches s;
     options := options s; info := info s; binds := binds s;
     volumesFrom := f (volumesFrom s); devices := devices s; links := links s |}.

Definition set_devices (f : list DeviceMapping -> list DeviceMapping) (s : executor) : executor :=
  {| abstract := abstract s; client := client s; failures := failures s;
     builds := builds s; services := services s; caches := caches s;
     options := options s; info := info s; binds := binds s;
     volumesFrom := volumesFrom s; devices := f (devices s); links := links s |}.

Definition set_links (l : list string) (s : executor) : executor :=
  {| abstract := abstract s; client := client s; failures := failures s;
     builds := builds s; services := services s; caches := caches s;
     options := options s; info := info s; binds := binds s;
     volumesFrom := volumesFrom s; devices := devices s; links := l |}.

Definition set_options (o : dockerOptions) (s : executor) : executor :=
  {| abstract := abstract s; client := client s; failures := failures s;
     builds := builds s; services := services s; caches := caches s;
     options := o; info := info s; binds := binds s;
     volumesFrom := volumesFrom s; devices := devices s; links := links s |}.

Definition set_client (c : option Client) (s : executor) : executor :=
  {| abstract := abstract s; client := c; failures := failures s;
     builds := builds s; services := services s; caches := caches s;
     options := options s; info := info s; binds := binds s;
     volumesFrom := volumesFrom s; devices := devices s; links := links s |}.

Definition set_info (i : Info) (s : executor) : executor :=
  {| abstract := abstract s; client := client s; failures := failures s;
     builds := builds s; services := services s; caches := caches s;
     options := options s; info := i; binds := binds s;
     volumesFrom := volumesFrom s; devices := devices s; links := links s |}.

Definition set_abstract (a : AbstractExecutor) (s : executor) : executor :=
  {| abstract := a; client := client s; failures := failures s;
     builds := builds s; services := services s; caches := caches s;
     options := options s; info := info s; binds := binds s;
     volumesFrom := volumesFrom s; devices := devices s; links := links s |}.

(** [append(xs, x)]. *)
Definition append {A} (x : A) (xs : list A) : list A := xs ++ [x].

(** The result of [FindStringSubmatch] for a pattern with three groups. *)
Record submatch := { m0 : string; m1 : string; m2 : string; m3 : string }.

(** ** What the executor takes from outside this file

    Library functions that depend on the host or are too large to restate
    (MD5, glob and regular-expression matching), constants and helpers of
    the repository declared in other files, and the concurrent, timed wait
    for the services. *)
Class Env := {
  (** [fmt.Sprintf("%x", md5.Sum([]byte(s)))] *)
  md5hex : string -> string;
  filepath_Abs : string -> string * option error;
  filepath_ToSlash : string -> string;
  (** [ok, _ := filepath.Match(pattern, name)] *)
  filepath_Match : string -> string -> bool;
  (** [reference.ReferenceRegexp.FindStringSubmatch] *)
  ReferenceRegexp : string -> option submatch;
  (** [%q] of [fmt] *)
  strconv_Quote : string -> string;
  runtime_GOARCH : string;
  prebuiltImageName : string;
  prebuiltImageExtension : string;
  REVISION : string;
  dockerLabelPrefix : string;
  DockerAPIVersion : string;
  Asset : string -> string * option error;
  docker_helpers_New : string -> string -> option Client * option error;
  ReadAuthConfigsFromReader : string -> option (gmap string AuthConfig);
  ReadDockerAuthConfigsFromHomeDir : string -> option (gmap string AuthConfig);
  ResolveDockerAuthConfig : string -> gmap string AuthConfig -> option AuthConfig;
  SplitDockerImageName : string -> string * string;
  EncodeAuthConfig : AuthConfig -> string;
  AbstractExecutor_Prepare :
    AbstractExecutor -> RunnerConfig -> Build -> AbstractExecutor * option error;
  AbstractExecutor_Cleanup : AbstractExecutor -> AbstractExecutor;
  (** [waitForServices]: goroutines and timeouts *)
  waitForServices : M unit }.

Section Executor.

Context {env : Env}.

(** *** Registry credentials *)

Definition getUserAuthConfiguration (s : executor) (indexName : string)
  : option AuthConfig :=
  match TheBuild (abstract s) with
  | None => None
  | Some build =>
      match ReadAuthConfigsFromReader (GetDockerAuthConfig build) with
      | Some authConfigs => ResolveDockerAuthConfig indexName authConfigs
      | None => None
      end
  end.

Definition getBuildAuthConfiguration (s : executor) (indexName : string)
  : option AuthConfig :=
  match TheBuild (abstract s) with
  | None => None
  | Some build =>
      let authConfigs :=
        fold_left
          (fun (acc : gmap string AuthConfig) credentials =>
             if String.eqb (cred_Type credentials) "registry" then
               <[cred_URL credentials :=
                   {| Username := cred_Username credentials;
                      Password := cred_Password credentials;
                      ServerAddress := cred_URL credentials |}]> acc
             else acc)
          (build_Credentials build) ∅ in
      ResolveDockerAuthConfig indexName authConfigs
  end.

Definition getHomeDirAuthConfiguration (s : executor) (indexName : string)
  : option AuthConfig :=
  match ReadDockerAuthConfigsFromHomeDir (Shell_User (abstract s)) with
  | Some authConfigs => ResolveDockerAuthConfig indexName authConfigs
  | None => None
  end.

Definition getAuthConfig (s : executor) (imageName : string) : option AuthConfig :=
  let indexName := fst (SplitDockerImageName imageName) in
  let authConfig := getUserAuthConfiguration s indexName in
  let authConfig :=
    match authConfig with
    | None => getHomeDirAuthConfiguration s indexName
    | Some _ => authConfig
    end in
  let authConfig :=
    match authConfig with
    | None => getBuildAuthConfiguration s indexName
    | Some _ => authConfig
    end in
  authConfig.

(** *** Image acquisition *)

(** The reference [pullDockerImage] hands to the pull: [":latest"] is added
    when the name has neither a tag nor a digest. *)
Definition pullReference (imageName : string) : string :=
  if negb (GoStrings.ContainsAny imageName ":@") then imageName +:+ ":latest"
  else imageName.

Definition pullDockerImage (imageName : string) (ac : option AuthConfig)
  : M (option ImageInspect * option error) :=
  let ref := pullReference imageName in
  let options :=
    {| RegistryAuth := match ac with
                       | Some a => EncodeAuthConfig a
                       | None => ""
                       end |} in
  err ← callImagePullBlocking ref options;
  match err with
  | Some err =>
      if GoStrings.Contains (Error err) "not found"
      then mret (None, Some (BuildError err))
      else mret (None, Some err)
  | None =>
      '(image, err) ← callImageInspectWithRaw imageName;
      mret (Some image, err)
  end.

Definition getDockerImage (imageName : string)
  : M (option ImageInspect * option error) :=
  docker ← theDocker;
  match PullPolicy_Get docker with
  | (_, Some err) => mret (None, Some err)
  | (pullPolicy, None) =>
      s ← get;
      let authConfig := getAuthConfig s imageName in
      '(image, err) ← callImageInspectWithRaw imageName;
      let pull :=
        '(newImage, err) ← pullDockerImage imageName authConfig;
        match err with
        | Some err => mret (None, Some err)
        | None => mret (newImage, None)
        end in
      match pullPolicy, err with
      | PullPolicyNever, _ => mret (Some image, err)
      | _, None =>
          if String.eqb (image_ID image) imageName then mret (Some image, None)
          else match pullPolicy with
               | PullPolicyIfNotPresent => mret (Some image, err)
               | _ => pull
               end
      | _, Some _ => pull
      end
  end.

Definition getArchitecture (s : executor) : string :=
  let architecture := Architecture (info s) in
  let architecture :=
    if String.eqb architecture "armv6l" || String.eqb architecture "armv7l"
       || String.eqb architecture "aarch64" then "arm"
    else if String.eqb architecture "amd64" then "x86_64"
    else architecture in
  if negb (String.eqb architecture "") then architecture
  else if String.eqb runtime_GOARCH "amd64" then "x86_64"
  else runtime_GOARCH.

Definition getPrebuiltImage : M (option ImageInspect * option error) :=
  s ← get;
  let architecture := getArchitecture s in
  if String.eqb architecture "" then
    mret (None, Some (errorString "unsupported docker architecture"))
  else
    let imageName := prebuiltImageName +:+ ":" +:+ architecture +:+ "-" +:+ REVISION in
    '(image, err) ← callImageInspectWithRaw imageName;
    match err with
    | None => mret (Some image, None)
    | Some _ =>
        match Asset ("prebuilt-" +:+ architecture +:+ prebuiltImageExtension) with
        | (_, Some err) =>
            mret (None, Some (errorString
              ("Unsupported architecture: " +:+ architecture +:+ ": "
               +:+ strconv_Quote (Error err))))
        | (data, None) =>
            err ← callImageImportBlocking data "-" prebuiltImageName
                    (architecture +:+ "-" +:+ REVISION);
            match err with
            | Some err =>
                mret (None, Some (errorString ("Failed to import image: " +:+ Error err)))
            | None =>
                '(image, err) ← callImageInspectWithRaw imageName;
                match err with
                | Some err => mret (None, Some err)
                | None => mret (Some image, None)
                end
            end
        end
    end.

(** *** Waiting for a container *)

(** The loop of [waitForContainer]; [retries] is the local counter, which
    never exceeds 4. *)
Fixpoint waitForContainer_loop (fuel : nat) (retries : Z) (id : string)
  : M (option error) :=
  match fuel with
  | O => outOfFuel
  | S fuel' =>
      '(container, err) ← callContainerInspect id;
      match err with
      | Some err =>
          if IsErrNotFound err then mret (Some err)
          else if retries >? 3 then mret (Some err)
          else sleepSecond;; waitForContainer_loop fuel' (retries + 1) id
      | None =>
          if Running (json_State container) then
            sleepSecond;; waitForContainer_loop fuel' 0 id
          else if negb (ExitCode (json_State container) =? 0) then
            mret (Some (BuildError (errorString
              ("exit code " +:+ pretty (ExitCode (json_State container))))))
          else mret None
      end
  end.

Definition waitForContainer (fuel : nat) (id : string) : M (option error) :=
  waitForContainer_loop fuel 0 id.

(** *** Removing a container *)

Definition plugged (id : string) (network : NetworkResource) : bool :=
  bool_decide (Exists (fun kv => id = kv.2) (map_to_list (net_Containers network))).

(** The network loop of [disconnectNetwork]; [err] is the variable the loop
    overwrites. *)
Fixpoint disconnectNetwork_loop (id : string) (netList : list NetworkResource)
    (err : option error) : M (option error) :=
  match netList with
  | [] => mret err
  | network :: rest =>
      if plugged id network then
        err ← callNetworkDisconnect (net_ID network) id true;
        disconnectNetwork_loop id rest err
      else disconnectNetwork_loop id rest err
  end.

Definition disconnectNetwork (id : string) : M (option error) :=
  '(netList, err) ← callNetworkList;
  match err with
  | Some err => mret (Some err)
  | None => disconnectNetwork_loop id netList None
  end.

Definition removeContainer (id : string) : M (option error) :=
  disconnectNetwork id;;
  callContainerRemove id {| RemoveVolumes := true; Force := true |}.

(** *** Volumes *)

Definition getAbsoluteContainerPath (dir : string) : M string :=
  if GoPath.IsAbs dir then mret dir
  else build ← theBuild; mret (GoPath.Join2 (FullProjectDir build) dir).

Definition addHostVolume (hostPath containerPath : string) : M (option error) :=
  containerPath ← getAbsoluteContainerPath containerPath;
  modify (set_binds (append (hostPath +:+ ":" +:+ containerPath)));;
  mret None.

Definition getLabels (containerType : string) (otherLabels : list string)
  : M (gmap string string) :=
  build ← theBuild;
  let labels : gmap string string := ∅ in
  let labels := <[dockerLabelPrefix +:+ ".build.id" := pretty (build_ID build)]> labels in
  let labels := <[dockerLabelPrefix +:+ ".build.sha" := Sha build]> labels in
  let labels := <[dockerLabelPrefix +:+ ".build.before_sha" := BeforeSha build]> labels in
  let labels := <[dockerLabelPrefix +:+ ".build.ref_name" := RefName build]> labels in
  let labels := <[dockerLabelPrefix +:+ ".project.id" := pretty (ProjectID build)]> labels in
  let labels := <[dockerLabelPrefix +:+ ".runner.id" := Runner_ShortDescription build]> labels in
  let labels := <[dockerLabelPrefix +:+ ".runner.local_id" := pretty (RunnerID build)]> labels in
  let labels := <[dockerLabelPrefix +:+ ".type" := containerType]> labels in
  mret (fold_left
          (fun (labels : gmap string string) label =>
             match GoStrings.SplitN2 label "=" with
             | [key; value] => <[dockerLabelPrefix +:+ "." +:+ key := value]> labels
             | _ => labels
             end)
          otherLabels labels).

Definition cacheHostConfig : HostConfig :=
  {| hc_CpusetCpus := ""; hc_Devices := []; hc_DNS := []; hc_DNSSearch := [];
     hc_Privileged := false; hc_CapAdd := []; hc_CapDrop := []; hc_SecurityOpt := [];
     hc_RestartPolicy := {| restart_Name := "" |}; hc_ExtraHosts := [];
     hc_NetworkMode := ""; hc_Links := []; hc_Binds := []; hc_VolumeDriver := "";
     hc_VolumesFrom := []; hc_LogConfig_Type := "json-file" |}.

Definition cacheConfig (imageID containerPath : string) (labels : gmap string string)
  : ContainerConfig :=
  {| cfg_Image := imageID; cfg_Hostname := "";
     cfg_Cmd := ["gitlab-runner-cache"; containerPath];
     cfg_Volumes := {[ containerPath ]};
     cfg_Labels := labels;
     cfg_Tty := false; cfg_AttachStdin := false; cfg_AttachStdout := false;
     cfg_AttachStderr := false; cfg_OpenStdin := false; cfg_StdinOnce := false;
     cfg_Env := [] |}.

(** Returns the id of the created container, or an error. *)
Definition createCacheVolume (fuel : nat) (containerName containerPath : string)
  : M (string * option error) :=
  '(cacheImage, err) ← getPrebuiltImage;
  match err with
  | Some err => mret ("", Some err)
  | None =>
      cacheImage ← deref cacheImage;
      labels ← getLabels "cache" ["cache.dir=" +:+ containerPath];
      let config := cacheConfig (image_ID cacheImage) containerPath labels in
      '(resp, err) ← callContainerCreate config cacheHostConfig containerName;
      match err with
      | Some err =>
          (if negb (String.eqb (resp_ID resp) "")
           then modify (set_failures (append (resp_ID resp)))
           else mret tt);;
          mret ("", Some err)
      | None =>
          err ← callContainerStart (resp_ID resp);
          match err with
          | Some err =>
              modify (set_failures (append (resp_ID resp)));;
              mret ("", Some err)
          | None =>
              err ← waitForContainer fuel (resp_ID resp);
              match err with
              | Some err =>
                  modify (set_failures (append (resp_ID resp)));;
                  mret ("", Some err)
              | None => mret (resp_ID resp, None)
              end
          end
      end
  end.

Definition addCacheVolume (fuel : nat) (containerPath : string) : M (option error) :=
  containerPath ← getAbsoluteContainerPath containerPath;
  docker ← theDocker;
  if DisableCache docker then mret None
  else
    build ← theBuild;
    let hash := md5hex containerPath in
    if negb (String.eqb (CacheDir docker) "") then
      let hostPath := CacheDir docker +:+ "/" +:+ ProjectUniqueName build +:+ "/" +:+ hash in
      match filepath_Abs hostPath with
      | (_, Some err) => mret (Some err)
      | (hostPath, None) =>
          modify (set_binds (append (filepath_ToSlash hostPath +:+ ":" +:+ containerPath)));;
          mret None
      end
    else
      let containerName := ProjectUniqueName build +:+ "-cache-" +:+ hash in
      '(inspected, err) ← callContainerInspect containerName;
      containerID ←
        match err with
        | None =>
            (* [if _, stale := inspected.Config.Volumes[containerPath]; stale] *)
            let stale := bool_decide (containerPath ∈ cfg_Volumes (json_Config inspected)) in
            if stale then removeContainer (json_ID inspected);; mret ""
            else mret (json_ID inspected)
        | Some _ => mret ""
        end;
      '(containerID, err) ←
        (if String.eqb containerID "" then createCacheVolume fuel containerName containerPath
         else mret (containerID, None));
      match err with
      | Some err => mret (Some err)
      | None =>
          modify (set_volumesFrom (append containerID));;
          mret None
      end.

Definition addVolume (fuel : nat) (volume : string) : M (option error) :=
  match GoStrings.SplitN2 volume ":" with
  | [hostPath; containerPath] => addHostVolume hostPath containerPath
  | [containerPath] => addCacheVolume fuel containerPath
  | _ => mret None
  end.

(** The closure [isParentOf] of [isHostMountedVolume]; [path.Dir] shortens
    [dir] until it is ["/"] or ["."], [fuel] bounds the walk. *)
Fixpoint isParentOf (fuel : nat) (parent dir : string) : bool :=
  match fuel with
  | O => false
  | S fuel' =>
      if negb (String.eqb dir "/") && negb (String.eqb dir ".") then
        if String.eqb dir parent then true
        else isParentOf fuel' parent (GoPath.Dir dir)
      else false
  end.

Definition isHostMountedVolume (dir : string) (volumes : list string) : bool :=
  existsb
    (fun volume =>
       match GoStrings.Split volume ":" with
       | _ :: containerSide :: _ =>
           let d := GoPath.Clean dir in
           isParentOf (S (String.length d)) (GoPath.Clean containerSide) d
       | _ => false
       end)
    volumes.

(** The body of [createBuildVolume] after its guard on the parent
    directory. *)
Definition createBuildVolume_guarded (fuel : nat) (build : Build) (parentDir : string)
  : M (option error) :=
  docker ← theDocker;
  if isHostMountedVolume (RootDir build) (Volumes docker) then mret None
  else
    if bool_decide (GetGitStrategy build = GitFetch) && negb (DisableCache docker) then
      addVolume fuel parentDir
    else
      '(id, err) ← createCacheVolume fuel "" parentDir;
      match err with
      | Some err => mret (Some err)
      | None =>
          modify (set_caches (append id));;
          modify (set_volumesFrom (append id));;
          mret None
      end.

Definition createBuildVolume (fuel : nat) : M (option error) :=
  build ← theBuild;
  let parentDir := GoPath.Dir (FullProjectDir build) in
  if negb (GoPath.IsAbs parentDir) && negb (String.eqb parentDir "/") then
    mret (Some (errorString "build directory needs to be absolute and non-root path"))
  else createBuildVolume_guarded fuel build parentDir.

Fixpoint createUserVolumes_loop (fuel : nat) (volumes : list string) : M (option error) :=
  match volumes with
  | [] => mret None
  | volume :: rest =>
      err ← addVolume fuel volume;
      match err with
      | Some err => mret (Some err)
      | None => createUserVolumes_loop fuel rest
      end
  end.

Definition createUserVolumes (fuel : nat) : M (option error) :=
  docker ← theDocker;
  createUserVolumes_loop fuel (Volumes docker).

(** *** Devices *)

Definition parseDeviceString (deviceString : string) : DeviceMapping * option error :=
  let parts := GoStrings.Split deviceString ":" in
  if (3 <? length parts)%nat then
    ({| PathOnHost := ""; PathInContainer := ""; CgroupPermissions := "" |},
     Some (errorString "Too many colons"))
  else
    let pathOnHost := nth 0 parts "" in
    ({| PathOnHost := pathOnHost;
        PathInContainer := if (2 <=? length parts)%nat then nth 1 parts "" else pathOnHost;
        CgroupPermissions := if (3 <=? length parts)%nat then nth 2 parts "" else "rwm" |},
     None).

Fixpoint bindDevices_loop (deviceStrings : list string) : M (option error) :=
  match deviceStrings with
  | [] => mret None
  | deviceString :: rest =>
      match parseDeviceString deviceString with
      | (_, Some err) =>
          mret (Some (errorString
            ("Failed to parse device string " +:+ strconv_Quote deviceString +:+ ": "
             +:+ Error err)))
      | (device, None) =>
          modify (set_devices (append device));;
          bindDevices_loop rest
      end
  end.

Definition bindDevices : M (option error) :=
  docker ← theDocker;
  bindDevices_loop (Devices docker).

(** *** References of services *)

Definition isDigit (c : ascii) : bool :=
  let n := nat_of_ascii c in ((48 <=? n) && (n <=? 57))%nat.

Definition newline : ascii := ascii_of_nat 10.

Definition noNewline (s : string) : bool :=
  negb (existsb (Ascii.eqb newline) (list_ascii_of_string s)).

Fixpoint takeDigits (s : string) : string * string :=
  match s with
  | String c s' =>
      if isDigit c then let '(d, r) := takeDigits s' in (String c d, r)
      else (EmptyString, s)
  | EmptyString => (EmptyString, EmptyString)
  end.

(** The third group up to the end of the text: empty, or a slash followed
    by anything but a newline. *)
Definition matchTail (rest : string) : option string :=
  if String.eqb rest "" then Some ""
  else if GoStrings.HasPrefix rest "/" && noNewline rest then Some rest
  else None.

(** The second and third groups: an optional colon and digits, then the
    tail; the empty port is tried first. *)
Definition matchPortTail (rest : string) : option (string * string) :=
  match matchTail rest with
  | Some tail => Some ("", tail)
  | None =>
      match rest with
      | String ":" r =>
          let '(digits, r') := takeDigits r in
          if String.eqb digits "" then None
          else match matchTail r' with
               | Some tail => Some (":" +:+ digits, tail)
               | None => None
               end
      | _ => None
      end
  end.

(** [ReferenceRegexpNoPort.FindStringSubmatch]: a lazy first group of any
    characters, an optional port (colon and digits), an optional tail that
    starts with a slash, anchored at both ends.  The first group is lazy, so
    the shortest prefix that lets the rest match wins; the dot does not
    match a newline. *)
Fixpoint ReferenceRegexpNoPort (s : string) : option submatch :=
  match matchPortTail s with
  | Some (port, tail) => Some {| m0 := s; m1 := ""; m2 := port; m3 := tail |}
  | None =>
      match s with
      | String c s' =>
          if Ascii.eqb c newline then None
          else match ReferenceRegexpNoPort s' with
               | Some m => Some {| m0 := s; m1 := String c (m1 m); m2 := m2 m; m3 := m3 m |}
               | None => None
               end
      | EmptyString => None
      end
  end.

(** Results: [service], [version], [imageName], [linkNames].  The function
    has no error result; indexing a nil [matchService] would panic. *)
Definition splitServiceAndVersion (serviceDescription : string)
  : M (string * string * string * list string) :=
  let imageName := serviceDescription in
  let version := "latest" in
  match ReferenceRegexp serviceDescription with
  | Some match_ =>
      matchService ← deref (ReferenceRegexpNoPort (m1 match_));
      let service := m1 matchService +:+ m3 matchService in
      let '(version, imageName) :=
        if (0 <? String.length (m2 match_))%nat then (m2 match_, imageName)
        else (version, m1 match_ +:+ ":" +:+ version) in
      let linkName := GoStrings.ReplaceAll service "/" "__" in
      let linkNames := [linkName] in
      let alternativeName := GoStrings.ReplaceAll service "/" "-" in
      let linkNames :=
        if negb (String.eqb linkName alternativeName) then append alternativeName linkNames
        else linkNames in
      mret (service, version, imageName, linkNames)
  | None => mret ("", version, imageName, [])
  end.

(** *** Allow-lists *)

Definition verifyAllowedImage (image optionName : string)
    (allowedImages internalImages : list string) : option error :=
  if existsb (fun allowedImage => filepath_Match allowedImage image) allowedImages
  then None
  else if existsb (fun internalImage => String.eqb internalImage image) internalImages
  then None
  else if negb (length allowedImages =? 0)%nat then Some (errorString "invalid image")
  else None.

Definition getImageName : M (string * option error) :=
  s ← get;
  if negb (String.eqb (opt_Image (options s)) "") then
    build ← theBuild;
    let image := ExpandValue build (opt_Image (options s)) in
    docker ← theDocker;
    match verifyAllowedImage (opt_Image (options s)) "images"
            (AllowedImages docker) [Image docker] with
    | Some err => mret ("", Some err)
    | None => mret (image, None)
    end
  else
    docker ← theDocker;
    if String.eqb (Image docker) "" then
      mret ("", Some (errorString "No Docker image specified to run the build in"))
    else mret (Image docker, None).

Fixpoint getServiceNames_loop (declared : list string) (services : list string)
  : M (list string * option error) :=
  match declared with
  | [] => mret (services, None)
  | service :: rest =>
      build ← theBuild;
      let service := ExpandValue build service in
      docker ← theDocker;
      match verifyAllowedImage service "services" (AllowedServices docker)
              (Services docker) with
      | Some err => mret ([], Some err)
      | None => getServiceNames_loop rest (append service services)
      end
  end.

Definition getServiceNames : M (list string * option error) :=
  docker ← theDocker;
  s ← get;
  getServiceNames_loop (opt_Services (options s)) (Services docker).

(** *** Services *)

Definition getServiceVariables : M (list string) :=
  build ← theBuild; mret (PublicOrInternal_StringList build).

Definition serviceConfig (imageID : string) (labels : gmap string string)
    (env : list string) : ContainerConfig :=
  {| cfg_Image := imageID; cfg_Hostname := ""; cfg_Cmd := [];
     cfg_Volumes := ∅; cfg_Labels := labels;
     cfg_Tty := false; cfg_AttachStdin := false; cfg_AttachStdout := false;
     cfg_AttachStderr := false; cfg_OpenStdin := false; cfg_StdinOnce := false;
     cfg_Env := env |}.

Definition serviceHostConfig (docker : DockerConfig) (s : executor) : HostConfig :=
  {| hc_CpusetCpus := ""; hc_Devices := []; hc_DNS := []; hc_DNSSearch := [];
     hc_Privileged := Privileged docker; hc_CapAdd := []; hc_CapDrop := [];
     hc_SecurityOpt := []; hc_RestartPolicy := neverRestartPolicy; hc_ExtraHosts := [];
     hc_NetworkMode := NetworkMode docker; hc_Links := []; hc_Binds := binds s;
     hc_VolumeDriver := ""; hc_VolumesFrom := volumesFrom s;
     hc_LogConfig_Type := "json-file" |}.

Definition createService (service version image : string)
  : M (option Container * option error) :=
  if (String.length service =? 0)%nat then
    mret (None, Some (errorString "invalid service name"))
  else
    '(serviceImage, err) ← getDockerImage image;
    match err with
    | Some err => mret (None, Some err)
    | None =>
        build ← theBuild;
        let containerName :=
          ProjectUniqueName build +:+ "-" +:+ GoStrings.ReplaceAll service "/" "__" in
        removeContainer containerName;;
        serviceImage ← deref serviceImage;
        labels ← getLabels "service" ["service=" +:+ service; "service.version=" +:+ version];
        variables ← getServiceVariables;
        docker ← theDocker;
        s ← get;
        let config := serviceConfig (image_ID serviceImage) labels variables in
        let hostConfig := serviceHostConfig docker s in
        '(resp, err) ← callContainerCreate config hostConfig containerName;
        match err with
        | Some err => mret (None, Some err)
        | None =>
            err ← callContainerStart (resp_ID resp);
            match err with
            | Some err =>
                modify (set_failures (append (resp_ID resp)));;
                mret (None, Some err)
            | None => mret (Some (fakeContainer (resp_ID resp) [containerName]), None)
            end
        end
    end.

(** The loop of [buildServiceLinks]; Go visits the map in an unspecified
    order, here the entries come in the order of [map_to_list]. *)
Fixpoint buildServiceLinks_loop (entries : list (string * Container)) (links : list string)
  : M (list string) :=
  match entries with
  | [] => mret links
  | (linkName, linkee) :: rest =>
      '(newContainer, err) ← callContainerInspect (ID linkee);
      match err with
      | Some _ => buildServiceLinks_loop rest links
      | None =>
          if Running (json_State newContainer)
          then buildServiceLinks_loop rest (append (ID linkee +:+ ":" +:+ linkName) links)
          else buildServiceLinks_loop rest links
      end
  end.

Definition buildServiceLinks (linksMap : gmap string Container) : M (list string) :=
  buildServiceLinks_loop (map_to_list linksMap) [].

(** The loop of [createFromServiceDescription] over [linkNames]; [container]
    is its local variable.  The map is shared with the caller, so it is
    returned together with the error. *)
Fixpoint createFromServiceDescription_loop (service version imageName : string)
    (linkNames : list string) (container : option Container)
    (linksMap : gmap string Container)
  : M (gmap string Container * option error) :=
  match linkNames with
  | [] => mret (linksMap, None)
  | linkName :: rest =>
      match linksMap !! linkName with
      | Some _ =>
          createFromServiceDescription_loop service version imageName rest container linksMap
      | None =>
          match container with
          | Some c =>
              createFromServiceDescription_loop service version imageName rest container
                (<[linkName := c]> linksMap)
          | None =>
              '(created, err) ← createService service version imageName;
              match err with
              | Some err => mret (linksMap, Some err)
              | None =>
                  c ← deref created;
                  modify (set_services (append c));;
                  createFromServiceDescription_loop service version imageName rest (Some c)
                    (<[linkName := c]> linksMap)
              end
          end
      end
  end.

Definition createFromServiceDescription (description : string)
    (linksMap : gmap string Container) : M (gmap string Container * option error) :=
  '(service, version, imageName, linkNames) ← splitServiceAndVersion description;
  createFromServiceDescription_loop service version imageName linkNames None linksMap.

Fixpoint createServices_loop (serviceNames : list string) (linksMap : gmap string Container)
  : M (gmap string Container * option error) :=
  match serviceNames with
  | [] => mret (linksMap, None)
  | serviceDescription :: rest =>
      '(linksMap, err) ← createFromServiceDescription serviceDescription linksMap;
      match err with
      | Some err => mret (linksMap, Some err)
      | None => createServices_loop rest linksMap
      end
  end.

Definition createServices : M (option error) :=
  '(serviceNames, err) ← getServiceNames;
  match err with
  | Some err => mret (Some err)
  | None =>
      '(linksMap, err) ← createServices_loop serviceNames ∅;
      match err with
      | Some err => mret (Some err)
      | None =>
          waitForServices;;
          links ← buildServiceLinks linksMap;
          modify (set_links links);;
          mret None
      end
  end.

(** *** The build container *)

Definition buildConfig (imageID hostname : string) (cmd : list string)
    (labels : gmap string string) (env : list string) : ContainerConfig :=
  {| cfg_Image := imageID; cfg_Hostname := hostname; cfg_Cmd := cmd;
     cfg_Volumes := ∅; cfg_Labels := labels;
     cfg_Tty := false; cfg_AttachStdin := true; cfg_AttachStdout := true;
     cfg_AttachStderr := true; cfg_OpenStdin := true; cfg_StdinOnce := true;
     cfg_Env := env |}.

Definition buildHostConfig (docker : DockerConfig) (s : executor) : HostConfig :=
  {| hc_CpusetCpus := CPUSetCPUs docker; hc_Devices := devices s;
     hc_DNS := DNS docker; hc_DNSSearch := DNSSearch docker;
     hc_Privileged := Privileged docker; hc_CapAdd := CapAdd docker;
     hc_CapDrop := CapDrop docker; hc_SecurityOpt := SecurityOpt docker;
     hc_RestartPolicy := neverRestartPolicy; hc_ExtraHosts := ExtraHosts docker;
     hc_NetworkMode := NetworkMode docker; hc_Links := Links docker ++ links s;
     hc_Binds := binds s; hc_VolumeDriver := VolumeDriver docker;
     hc_VolumesFrom := VolumesFrom docker ++ volumesFrom s;
     hc_LogConfig_Type := "json-file" |}.

Definition createContainer (containerType imageName : string) (cmd : list string)
  : M (option ContainerJSON * option error) :=
  '(image, err) ← getDockerImage imageName;
  match err with
  | Some err => mret (None, Some err)
  | None =>
      docker ← theDocker;
      build ← theBuild;
      let hostname :=
        if String.eqb (Hostname docker) "" then ProjectUniqueName build
        else Hostname docker in
      let containerName := ProjectUniqueName build +:+ "-" +:+ containerType in
      image ← deref image;
      labels ← getLabels containerType [];
      shell ← theBuildShell;
      s ← get;
      let config :=
        buildConfig (image_ID image) hostname cmd labels
          (AllVariables_StringList build ++ Environment shell) in
      let hostConfig := buildHostConfig docker s in
      removeContainer containerName;;
      '(resp, err) ← callContainerCreate config hostConfig containerName;
      match err with
      | Some err =>
          (if negb (String.eqb (resp_ID resp) "")
           then modify (set_failures (append (resp_ID resp)))
           else mret tt);;
          mret (None, Some err)
      | None =>
          '(inspect, err) ← callContainerInspect (resp_ID resp);
          match err with
          | Some err =>
              modify (set_failures (append (resp_ID resp)));;
              mret (None, Some err)
          | None => mret (Some inspect, None)
          end
      end
  end.

(** *** Prepare and Cleanup *)

Definition connectDocker : M (option error) :=
  docker ← theDocker;
  match docker_helpers_New (DockerCredentials docker) DockerAPIVersion with
  | (_, Some err) => mret (Some err)
  | (newClient, None) =>
      modify (set_client newClient);;
      '(i, err) ← call CallInfo (fun c h => ClientInfo c h);
      modify (set_info i);;
      mret err
  end.

Definition createDependencies (fuel : nat) : M (option error) :=
  err ← bindDevices;
  match err with
  | Some err => mret (Some err)
  | None =>
      err ← createBuildVolume fuel;
      match err with
      | Some err => mret (Some err)
      | None =>
          err ← createServices;
          match err with
          | Some err => mret (Some err)
          | None =>
              err ← createUserVolumes fuel;
              match err with
              | Some err => mret (Some err)
              | None => mret None
              end
          end
      end
  end.

Definition set_SharedBuildsDir (b : bool) (a : AbstractExecutor) : AbstractExecutor :=
  {| DefaultBuildsDir := DefaultBuildsDir a; SharedBuildsDir := b; Config := Config a;
     TheBuild := TheBuild a; BuildShell := BuildShell a; Shell_User := Shell_User a |}.

(** [config.Docker] is dereferenced here, before [Prepare] checks it. *)
Definition prepareBuildsDir (config : RunnerConfig) : M (option error) :=
  s ← get;
  let rootDir :=
    if String.eqb (BuildsDir config) "" then DefaultBuildsDir (abstract s)
    else BuildsDir config in
  docker ← deref (Docker config);
  (if isHostMountedVolume rootDir (Volumes docker)
   then modify (fun s => set_abstract (set_SharedBuildsDir true (abstract s)) s)
   else mret tt);;
  mret None.

(** [globalConfig] is only passed on to [AbstractExecutor.Prepare] and is left
    out. *)
Definition Prepare (fuel : nat) (config : RunnerConfig) (build : Build) : M (option error) :=
  err ← prepareBuildsDir config;
  match err with
  | Some err => mret (Some err)
  | None =>
      s ← get;
      let '(a, err) := AbstractExecutor_Prepare (abstract s) config build in
      modify (set_abstract a);;
      match err with
      | Some err => mret (Some err)
      | None =>
          shell ← theBuildShell;
          if PassFile shell then
            mret (Some (errorString "Docker doesn't support shells that require script file"))
          else
            match Docker config with
            | None => mret (Some (errorString "Missing docker configuration"))
            | Some _ =>
                s ← get;
                let '(decoded, err) := Options_Decode build (options s) in
                modify (set_options decoded);;
                match err with
                | Some err => mret (Some err)
                | None =>
                    '(imageName, err) ← getImageName;
                    match err with
                    | Some err => mret (Some err)
                    | None =>
                        err ← connectDocker;
                        match err with
                        | Some err => mret (Some err)
                        | None =>
                            err ← createDependencies fuel;
                            match err with
                            | Some err => mret (Some err)
                            | None => mret None
                            end
                        end
                    end
                end
            end
      end
  end.

(** The closure [remove] of [Cleanup], applied to each id of a registry.
    The goroutines it starts are run here one after the other, in the order
    in which they are started. *)
Fixpoint removeAll (ids : list string) : M unit :=
  match ids with
  | [] => mret tt
  | id :: rest => removeContainer id;; removeAll rest
  end.

Definition Cleanup : M unit :=
  s ← get;
  removeAll (failures s);;
  removeAll (map ID (services s));;
  removeAll (caches s);;
  removeAll (map ID (builds s));;
  s ← get;
  match client s with
  | Some _ => call CallClose (fun c h => ClientClose c h);; mret tt
  | None => mret tt
  end;;
  modify (fun s => set_abstract (AbstractExecutor_Cleanup (abstract s)) s).

End Executor.

(** ** The PowerShell shell ([shells/powershell.go]) *)

Module shells.

(** [common.ShellScriptInfo]; the configuration of PowerShell does not
    depend on it. *)
Record ShellScriptInfo := { info_Shell : string; info_User : string }.

Definition PowerShell_GetConfiguration (info : ShellScriptInfo)
  : option ShellConfiguration * option error :=
  (Some {| Environment := [];
           Command := "powershell";
           Arguments := ["-noprofile"; "-noninteractive"; "-executionpolicy"; "Bypass";
                         "-command"];
           PassFile := true;
           Extension := "ps1" |},
   None).

End shells.

(** ** Reading histories *)

(** The history after [n] polls of [id] that each ended in a one-second
    sleep, on top of [h]. *)
Fixpoint polled (id : string) (n : nat) (h : history) : history :=
  match n with
  | O => h
  | S n' => Sleep 1 :: CallContainerInspect id :: polled id n' h
  end.

(** The daemon answers the inspect made after [h] with an error that is not
    a Not Found. *)
Definition transientAt (c : Client) (id : string) (h : history) : Prop :=
  exists e, snd (ContainerInspect c h id) = Some e /\ IsErrNotFound e = false.

(** The ids of the removals in a history, most recent first. *)
Fixpoint removals (h : history) : list string :=
  match h with
  | [] => []
  | CallContainerRemove id _ :: h' => id :: removals h'
  | _ :: h' => removals h'
  end.

(** The references of the pulls in a history, most recent first. *)
Fixpoint pulls (h : history) : list string :=
  match h with
  | [] => []
  | CallImagePullBlocking ref _ :: h' => ref :: pulls h'
  | _ :: h' => pulls h'
  end.

(** What the create calls of a history returned, most recent first: the id
    of the response and the error that came with it. *)
Fixpoint created (c : Client) (h : history) : list (string * option error) :=
  match h with
  | [] => []
  | CallContainerCreate config hostConfig name :: h' =>
      let '(resp, err) := ContainerCreate c h' config hostConfig name in
      (resp_ID resp, err) :: created c h'
  | _ :: h' => created c h'
  end.

(** The ids [Cleanup] drains, in the order of its four loops. *)
Definition registered (s : executor) : list string :=
  failures s ++ map ID (services s) ++ caches s ++ map ID (builds s).

(** The ids among [cr] that [createCacheVolume] and [createContainer] give
    up on: an id that came with an error counts when it is not empty, an id
    that came without one counts as it is. *)
Definition abandoned (cr : list (string * option error)) : list string :=
  flat_map (fun '(id, err) =>
              match err with
              | Some _ => if negb (id =? "")%string then [id] else []
              | None => [id]
              end) cr.

(** The ids among [cr] that came without an error. *)
Definition unstarted (cr : list (string * option error)) : list string :=
  flat_map (fun '(id, err) =>
              match err with
              | Some _ => []
              | None => [id]
              end) cr.

(** An image name carries a tag or a digest separator. *)
Definition tagged (imageName : string) : Prop :=
  exists c, In c (list_ascii_of_string imageName) /\ (c = ":"%char \/ c = "@"%char).

(** An action that leaves the executor as it is and only makes calls that
    satisfy [P]. *)
Definition steady {A} (P : event -> Prop) (m : M A) : Prop :=
  forall s h,
    match m s h with
    | Done _ s' h' => s' = s /\ exists evs, h' = evs ++ h /\ Forall P evs
    | Panic h' => exists evs, h' = evs ++ h /\ Forall P evs
    | OutOfFuel => True
    end.

Definition isCreate (ev : event) : Prop :=
  match ev with CallContainerCreate _ _ _ => True | _ => False end.

Definition isPull (ev : event) : Prop :=
  match ev with CallImagePullBlocking _ _ => True | _ => False end.

Definition isRemove (ev : event) : Prop :=
  match ev with CallContainerRemove _ _ => True | _ => False end.

(** A pull, if it is one, asks for [ref]. *)
Definition pullsOnly (ref : string) (ev : event) : Prop :=
  match ev with CallImagePullBlocking r _ => r = ref | _ => True end.

(** With the client [c] connected the action returns, leaves the executor
    as it is and only makes calls that satisfy [P]. *)
Definition runs {A} (c : Client) (P : event -> Prop) (m : M A) : Prop :=
  forall s h, client s = Some c ->
    exists a evs, m s h = Done a s (evs ++ h) /\ Forall P evs.

(** The calls [Cleanup] may make while it drains the ids [ids]. *)
Definition drains (ids : list string) (ev : event) : Prop :=
  match ev with
  | CallNetworkList => True
  | CallNetworkDisconnect _ id _ => In id ids
  | CallContainerRemove id options =>
      In id ids /\ options = {| RemoveVolumes := true; Force := true |}
  | _ => False
  end.

(** A short description of a call: the method and the container, image or
    network it is about. *)
Definition brief (ev : event) : string :=
  match ev with
  | CallInfo => "Info"
  | CallImageInspectWithRaw n => "ImageInspect " +:+ n
  | CallImagePullBlocking r _ => "ImagePull " +:+ r
  | CallImageImportBlocking _ _ r t => "ImageImport " +:+ r +:+ ":" +:+ t
  | CallContainerCreate _ _ n => "ContainerCreate " +:+ n
  | CallContainerStart id => "ContainerStart " +:+ id
  | CallContainerInspect id => "ContainerInspect " +:+ id
  | CallContainerRemove id _ => "ContainerRemove " +:+ id
  | CallNetworkList => "NetworkList"
  | CallNetworkDisconnect n id _ => "NetworkDisconnect " +:+ n +:+ " " +:+ id
  | CallClose => "Close"
  | Sleep _ => "Sleep"
  end.

(** The calls of a history in the order in which they were made. *)
Definition chronicle (h : history) : list string := rev (map brief h).

(** The volumes declared by the create calls of a history, most recent
    first. *)
Fixpoint declaredVolumes (h : history) : list (list string) :=
  match h with
  | [] => []
  | CallContainerCreate config _ _ :: h' =>
      elements (cfg_Volumes config) :: declaredVolumes h'
  | _ :: h' => declaredVolumes h'
  end.

(** Reading an outcome: the value returned, the executor and the history it
    ends with. *)
Definition returned {A} (o : outcome A) : option A :=
  match o with
  | Done a _ _ => Some a
  | _ => None
  end.

Definition finalState {A} (s : executor) (o : outcome A) : executor :=
  match o with
  | Done _ s' _ => s'
  | _ => s
  end.

Definition finalHistory {A} (o : outcome A) : history :=
  match o with
  | Done _ _ h => h
  | Panic h => h
  | OutOfFuel => []
  end.

(** ** Relating the executor before and after an action *)

(** [s'] extends [s]: the registries and accumulators of [s] are prefixes of
    those of [s']; the configuration, the client, the options and the
    daemon info are as in [s].  The links are not compared: they are
    computed afresh once the services are up. *)
Definition extends (s s' : executor) : Prop :=
  abstract s' = abstract s /\ client s' = client s /\ options s' = options s
  /\ info s' = info s
  /\ failures s `prefix_of` failures s' /\ builds s `prefix_of` builds s'
  /\ services s `prefix_of` services s' /\ caches s `prefix_of` caches s'
  /\ binds s `prefix_of` binds s' /\ volumesFrom s `prefix_of` volumesFrom s'
  /\ devices s `prefix_of` devices s'.

(** An action that, when it returns, has only appended to the registries
    and accumulators. *)
Definition grows {A} (m : M A) : Prop :=
  forall s h a s' h', m s h = Done a s' h' -> extends s s'.

(** The credential [getBuildAuthConfiguration] stores for one entry of
    [Build.Credentials]. *)
Definition authOfCredentials (credentials : Credentials) : AuthConfig :=
  {| Username := cred_Username credentials;
     Password := cred_Password credentials;
     ServerAddress := cred_URL credentials |}.

(** The registry credentials for the URL [url]. *)
Definition registryCredentialsFor (url : string) (credentials : Credentials) : bool :=
  String.eqb (cred_Type credentials) "registry" && String.eqb (cred_URL credentials) url.

(** What [getPrebuiltImage] may ask of the daemon: an inspect of the image
    [name] and an import under the tag [tag]. *)
Definition prebuiltCall `{Env} (name tag : string) (ev : event) : Prop :=
  ev = CallImageInspectWithRaw name
  \/ exists data, ev = CallImageImportBlocking data "-" prebuiltImageName tag.

(** The port group: empty, or a colon followed by at least one digit and
    nothing but digits. *)
Definition isPort (port : string) : Prop :=
  port = ""
  \/ exists digits, port = ":" +:+ digits /\ digits <> ""
       /\ forallb isDigit (list_ascii_of_string digits) = true.

(** The number of slashes of a string. *)
Fixpoint slashes (s : string) : nat :=
  match s with
  | EmptyString => O
  | String c s' => ((if Ascii.eqb c "/" then 1 else 0) + slashes s')%nat
  end.

(** A call that neither creates nor removes a container. *)
Definition harmless (ev : event) : Prop := ~ isCreate ev /\ ~ isRemove ev.

(** The options of every removal the executor asks for. *)
Definition forcedRemoval : ContainerRemoveOptions :=
  {| RemoveVolumes := true; Force := true |}.

(** ** The PowerShell script writer ([shells/powershell.go]) *)

Module PowerShell.

Definition dquote : ascii := ascii_of_nat 34.
Definition bell : ascii := ascii_of_nat 7.
Definition backspace : ascii := ascii_of_nat 8.
Definition tab : ascii := ascii_of_nat 9.
Definition linefeed : ascii := ascii_of_nat 10.
Definition vtab : ascii := ascii_of_nat 11.
Definition formfeed : ascii := ascii_of_nat 12.
Definition creturn : ascii := ascii_of_nat 13.

Definition CRLF : string := String creturn (String linefeed EmptyString).

(** The replacements of [psQuote], in the order of the source. *)
Definition psQuoteBody (text : string) : string :=
  let text := GoStrings.ReplaceAll text "`" "``" in
  let text := GoStrings.ReplaceAll text bell "`a" in
  let text := GoStrings.ReplaceAll text backspace "`b" in
  let text := GoStrings.ReplaceAll text formfeed "^f" in
  let text := GoStrings.ReplaceAll text creturn "`r" in
  let text := GoStrings.ReplaceAll text linefeed "`n" in
  let text := GoStrings.ReplaceAll text tab "^t" in
  let text := GoStrings.ReplaceAll text vtab "^v" in
  let text := GoStrings.ReplaceAll text "#" "`#" in
  let text := GoStrings.ReplaceAll text "'" "`'" in
  let text := GoStrings.ReplaceAll text dquote (String "`" (String dquote EmptyString)) in
  text.

Definition psQuote (text : string) : string :=
  String dquote (psQuoteBody text +:+ String dquote EmptyString).

Definition psQuoteVariable (text : string) : string :=
  let text := psQuote text in
  let text := GoStrings.ReplaceAll text "$" "`$" in
  text.

(** [common.BuildVariable]. *)
Record BuildVariable := {
  Key : string;
  Value : string;
  Public : bool;
  Internal : bool;
  File : bool }.

(** [PsWriter]: the bytes written so far, the temporary path and the
    indentation, a Go [int]. *)
Record PsWriter := {
  buffer : string;
  TemporaryPath : string;
  indent : Z }.

(** Helpers of the repository and of the host that the writer calls. *)
Class Helpers := {
  ToBackslash : string -> string;
  ANSI_RESET : string;
  ANSI_BOLD_GREEN : string;
  ANSI_BOLD_RED : string;
  ANSI_YELLOW : string;
  filepath_IsAbs : string -> bool;
  filepath_Join : string -> string -> string }.

(** Arithmetic of a 64-bit [int]. *)
Definition wrap64 (z : Z) : Z := (z + 2 ^ 63) mod 2 ^ 64 - 2 ^ 63.

(** [count] copies of [s]. *)
Fixpoint copies (s : string) (count : nat) : string :=
  match count with
  | O => EmptyString
  | S n => s +:+ copies s n
  end.

(** [strings.Repeat(s, count)]: it panics when [count] is negative and when
    [len(s) * count] overflows an [int]: [None].  Memory is not bounded. *)
Definition Repeat (s : string) (count : Z) : option string :=
  if (count <? 0) || (2 ^ 63 <=? Z.of_nat (String.length s) * count) then None
  else Some (copies s (Z.to_nat count)).

Definition with_buffer (b : PsWriter) (bytes : string) : PsWriter :=
  {| buffer := bytes; TemporaryPath := TemporaryPath b; indent := indent b |}.

Definition with_indent (b : PsWriter) (i : Z) : PsWriter :=
  {| buffer := buffer b; TemporaryPath := TemporaryPath b; indent := i |}.

Definition GetTemporaryPath (b : PsWriter) : string := TemporaryPath b.

(** A panic of [strings.Repeat] is a panic of [Line]. *)
Definition Line (text : string) (b : PsWriter) : option PsWriter :=
  pad ← Repeat "  " (indent b);
  Some (with_buffer b (buffer b +:+ pad +:+ text +:+ CRLF)).

Definition Indent (b : PsWriter) : option PsWriter :=
  Some (with_indent b (wrap64 (indent b + 1))).

Definition Unindent (b : PsWriter) : option PsWriter :=
  Some (with_indent b (wrap64 (indent b - 1))).

Definition checkErrorLevel (b : PsWriter) : option PsWriter :=
  b ← Line "if(!$?) { Exit $LASTEXITCODE }" b;
  Line "" b.

Definition CheckForErrors (b : PsWriter) : option PsWriter := checkErrorLevel b.

Definition buildCommand (command : string) (arguments : list string) : string :=
  "& " +:+ GoStrings.Join (psQuote command :: map psQuote arguments) " ".

Definition Command (command : string) (arguments : list string) (b : PsWriter)
  : option PsWriter :=
  b ← Line (buildCommand command arguments) b;
  checkErrorLevel b.

Section Writer.

Context {helpers : Helpers}.

Definition Absolute (dir : string) (b : PsWriter) : option (string * PsWriter) :=
  if filepath_IsAbs dir then Some (dir, b)
  else
    b ← Line "$CurrentDirectory = (Resolve-Path .\).Path" b;
    Some (filepath_Join "$CurrentDirectory" dir, b).

(** [Variable] of the source; the name is reserved here. *)
Definition Variable_ (variable : BuildVariable) (b : PsWriter) : option PsWriter :=
  b ← (if File variable then
         '(variableFile, b) ← Absolute (GoPath.Join2 (TemporaryPath b) (Key variable)) b;
         let variableFile := ToBackslash variableFile in
         b ← Line ("md " +:+ psQuote (ToBackslash (TemporaryPath b)) +:+ " -Force | out-null") b;
         b ← Line ("Set-Content " +:+ psQuote variableFile +:+ " -Value "
                   +:+ psQuoteVariable (Value variable) +:+ " -Encoding UTF8 -Force") b;
         Line ("$" +:+ Key variable +:+ "=" +:+ psQuote variableFile) b
       else
         Line ("$" +:+ Key variable +:+ "=" +:+ psQuoteVariable (Value variable)) b);
  Line ("$env:" +:+ Key variable +:+ "=$" +:+ Key variable) b.

Definition IfDirectory (path : string) (b : PsWriter) : option PsWriter :=
  b ← Line ("if(Test-Path " +:+ psQuote (ToBackslash path) +:+ " -PathType Container) {") b;
  Indent b.

Definition IfFile (path : string) (b : PsWriter) : option PsWriter :=
  b ← Line ("if(Test-Path " +:+ psQuote (ToBackslash path) +:+ " -PathType Leaf) {") b;
  Indent b.

Definition IfCmd (cmd : string) (arguments : list string) (b : PsWriter) : option PsWriter :=
  b ← Line (buildCommand cmd arguments +:+ " 2>$null") b;
  b ← Line "if($?) {" b;
  Indent b.

Definition Else (b : PsWriter) : option PsWriter :=
  b ← Unindent b;
  b ← Line "} else {" b;
  Indent b.

Definition EndIf (b : PsWriter) : option PsWriter :=
  b ← Unindent b;
  Line "}" b.

Definition Cd (path : string) (b : PsWriter) : option PsWriter :=
  b ← Line ("cd " +:+ psQuote (ToBackslash path)) b;
  checkErrorLevel b.

Definition MkDir (path : string) (b : PsWriter) : option PsWriter :=
  Line ("md " +:+ psQuote (ToBackslash path) +:+ " -Force | out-null") b.

Definition MkTmpDir (name : string) (b : PsWriter) : option (string * PsWriter) :=
  let path := ToBackslash (GoPath.Join2 (TemporaryPath b) name) in
  b ← MkDir path b;
  Some (path, b).

Definition RmDir (path : string) (b : PsWriter) : option PsWriter :=
  let path := psQuote (ToBackslash path) in
  b ← Line ("if( (Get-Command -Name Remove-Item2 -Module NTFSSecurity -ErrorAction SilentlyContinue) -and (Test-Path "
            +:+ path +:+ " -PathType Container) ) {") b;
  b ← Indent b;
  b ← Line ("Remove-Item2 -Force -Recurse " +:+ path) b;
  b ← Unindent b;
  b ← Line ("} elseif(Test-Path " +:+ path +:+ ") {") b;
  b ← Indent b;
  b ← Line ("Remove-Item -Force -Recurse " +:+ path) b;
  b ← Unindent b;
  b ← Line "}" b;
  Line "" b.

Definition RmFile (path : string) (b : PsWriter) : option PsWriter :=
  let path := psQuote (ToBackslash path) in
  b ← Line ("if( (Get-Command -Name Remove-Item2 -Module NTFSSecurity -ErrorAction SilentlyContinue) -and (Test-Path "
            +:+ path +:+ " -PathType Leaf) ) {") b;
  b ← Indent b;
  b ← Line ("Remove-Item2 -Force " +:+ path) b;
  b ← Unindent b;
  b ← Line ("} elseif(Test-Path " +:+ path +:+ ") {") b;
  b ← Indent b;
  b ← Line ("Remove-Item -Force " +:+ path) b;
  b ← Unindent b;
  b ← Line "}" b;
  Line "" b.

(** [Print], [Notice], [Warning] and [Error] take the text that
    [fmt.Sprintf(format, arguments...)] produces. *)
Definition Print (formatted : string) (b : PsWriter) : option PsWriter :=
  Line ("echo " +:+ psQuoteVariable (ANSI_RESET +:+ formatted)) b.

Definition Notice (formatted : string) (b : PsWriter) : option PsWriter :=
  Line ("echo " +:+ psQuoteVariable (ANSI_BOLD_GREEN +:+ formatted +:+ ANSI_RESET)) b.

Definition Warning (formatted : string) (b : PsWriter) : option PsWriter :=
  Line ("echo " +:+ psQuoteVariable (ANSI_YELLOW +:+ formatted +:+ ANSI_RESET)) b.

Definition Error (formatted : string) (b : PsWriter) : option PsWriter :=
  Line ("echo " +:+ psQuoteVariable (ANSI_BOLD_RED +:+ formatted +:+ ANSI_RESET)) b.

Definition EmptyLine (b : PsWriter) : option PsWriter :=
  Line (String "e" (String "c" (String "h" (String "o" (String " "
          (String dquote (String dquote EmptyString))))))) b.

End Writer.

Definition Finish (trace : bool) (b : PsWriter) : string :=
  (if trace then "Set-PSDebug -Trace 2" +:+ CRLF else "") +:+ buffer b.

Definition GetName : string := "powershell".

Definition IsDefault : bool := false.

(** What [psQuote] makes of one character. *)
Definition psEscape (c : ascii) : string :=
  if Ascii.eqb c "`" then "``"
  else if Ascii.eqb c bell then "`a"
  else if Ascii.eqb c backspace then "`b"
  else if Ascii.eqb c formfeed then "^f"
  else if Ascii.eqb c creturn then "`r"
  else if Ascii.eqb c linefeed then "`n"
  else if Ascii.eqb c tab then "^t"
  else if Ascii.eqb c vtab then "^v"
  else if Ascii.eqb c "#" then "`#"
  else if Ascii.eqb c "'" then "`'"
  else if Ascii.eqb c dquote then String "`" (String dquote EmptyString)
  else String c EmptyString.

(** What [psQuoteVariable] makes of one character. *)
Definition psEscapeVariable (c : ascii) : string :=
  if Ascii.eqb c "$" then "`$" else psEscape c.

(** A string with every character replaced by its escape. *)
Fixpoint escapeAll (escape : ascii -> string) (text : string) : string :=
  match text with
  | EmptyString => EmptyString
  | String c text' => escape c +:+ escapeAll escape text'
  end.

(** Every occurrence of [q] in [s] comes right after a backtick;
    [afterBacktick] tells whether [s] itself does. *)
Fixpoint escapedFrom (q : ascii) (afterBacktick : bool) (s : string) : bool :=
  match s with
  | EmptyString => true
  | String c s' =>
      (if Ascii.eqb c q then afterBacktick else true)
      && escapedFrom q (Ascii.eqb c "`") s'
  end.

Definition isControl (c : ascii) : bool :=
  existsb (Ascii.eqb c) [bell; backspace; tab; linefeed; vtab; formfeed; creturn].

(** Every character of [s] satisfies [p]. *)
Fixpoint allChars (p : ascii -> bool) (s : string) : bool :=
  match s with
  | EmptyString => true
  | String c s' => p c && allChars p s'
  end.

(** The characters that [psQuote] writes with a caret. *)
Definition isCaretEscaped (c : ascii) : bool :=
  existsb (Ascii.eqb c) [formfeed; tab; vtab].

(** Reading of the backtick escapes that [psQuote] writes. *)
Definition psUnescapeChar (d : ascii) : ascii :=
  if Ascii.eqb d "a" then bell
  else if Ascii.eqb d "b" then backspace
  else if Ascii.eqb d "r" then creturn
  else if Ascii.eqb d "n" then linefeed
  else d.

Fixpoint psUnescape (s : string) : string :=
  match s with
  | EmptyString => EmptyString
  | String c s' =>
      if Ascii.eqb c "`" then
        match s' with
        | EmptyString => String c EmptyString
        | String d s'' => String (psUnescapeChar d) (psUnescape s'')
        end
      else String c (psUnescape s')
  end.

(** The outcome [r] of an operation on the writer [b]: a writer with
    indentation [i], the temporary path of [b], and the buffer of [b] with
    something appended. *)
Definition wrote (i : Z) (b : PsWriter) (r : option PsWriter) : Prop :=
  exists b' written,
    r = Some b' /\ indent b' = i
    /\ TemporaryPath b' = TemporaryPath b
    /\ buffer b' = buffer b +:+ written.

(** The indentation written in front of a line. *)
Definition padding (b : PsWriter) : string := copies "  " (Z.to_nat (indent b)).

(** The line [text] as written at the indentation of [b]. *)
Definition line (b : PsWriter) (text : string) : string :=
  padding b +:+ text +:+ CRLF.

End PowerShell.

(** ** Concrete environments, daemons and builds

    Used to evaluate the executor on explicit inputs. *)

Module Fixtures.

(** [filepath.Match] on Unix for patterns made of literal characters, the
    star and the question mark (no character classes, no escapes): neither
    wildcard matches a slash. *)
Fixpoint globMatch (pattern : string) : string -> bool :=
  match pattern with
  | EmptyString => fun name => String.eqb name ""
  | String p pattern' =>
      if Ascii.eqb p "*" then
        fix star (name : string) : bool :=
          globMatch pattern' name ||
          match name with
          | String c name' => negb (Ascii.eqb c "/") && star name'
          | EmptyString => false
          end
      else if Ascii.eqb p "?" then
        fun name =>
          match name with
          | String c name' => negb (Ascii.eqb c "/") && globMatch pattern' name'
          | EmptyString => false
          end
      else
        fun name =>
          match name with
          | String c name' => Ascii.eqb p c && globMatch pattern' name'
          | EmptyString => false
          end
  end.

(** The characters of a lower-case repository name, a tag and their
    separators. *)
Definition referenceChar (c : ascii) : bool :=
  let n := nat_of_ascii c in
  ((97 <=? n) && (n <=? 122) || (48 <=? n) && (n <=? 57))%nat
  || existsb (Ascii.eqb c) (list_ascii_of_string "./:_-").

(** The reference grammar restricted to [name] and [name:tag] over
    [referenceChar], with the tag after the last slash; every other string
    is refused.  The strings with a space or an upper-case letter used below
    are refused by the full grammar as well. *)
Definition simpleReference (s : string) : option submatch :=
  if String.eqb s "" || negb (forallb referenceChar (list_ascii_of_string s)) then None
  else
    match rev (GoStrings.Split s "/") with
    | last :: front =>
        match GoStrings.SplitN2 last ":" with
        | [name; tag] =>
            if String.eqb name "" || String.eqb tag "" || GoStrings.ContainsAny tag ":/"
            then None
            else Some {| m0 := s;
                         m1 := GoStrings.Join (rev (name :: front)) "/";
                         m2 := tag; m3 := "" |}
        | _ => Some {| m0 := s; m1 := s; m2 := ""; m3 := "" |}
        end
    | [] => None
    end.

(** MD5 digests of the paths used below. *)
Definition md5Table (s : string) : string :=
  if String.eqb s "/cache" then "3c3f060a0374fc8bc39395164f415a70"
  else if String.eqb s "/" then "6666cd76f96956469e7be39d750cc7d9"
  else if String.eqb s "/builds/group" then "0a4a357eeac38fe1c4dfd046374632f7"
  else "".

Definition quote (s : string) : string :=
  String (ascii_of_nat 34) (s +:+ String (ascii_of_nat 34) EmptyString).

Definition zeroConfig : ContainerConfig :=
  {| cfg_Image := ""; cfg_Hostname := ""; cfg_Cmd := []; cfg_Volumes := ∅;
     cfg_Labels := ∅; cfg_Tty := false; cfg_AttachStdin := false;
     cfg_AttachStdout := false; cfg_AttachStderr := false; cfg_OpenStdin := false;
     cfg_StdinOnce := false; cfg_Env := [] |}.

(** A stopped container with the given declared volumes and exit code. *)
Definition stopped (id : string) (volumes : gset string) (code : Z) : ContainerJSON :=
  {| json_ID := id;
     json_Config :=
       {| cfg_Image := "sha256:prebuilt"; cfg_Hostname := ""; cfg_Cmd := [];
          cfg_Volumes := volumes; cfg_Labels := ∅; cfg_Tty := false;
          cfg_AttachStdin := false; cfg_AttachStdout := false;
          cfg_AttachStderr := false; cfg_OpenStdin := false; cfg_StdinOnce := false;
          cfg_Env := [] |};
     json_State := {| Running := false; ExitCode := code |} |}.

Definition zeroJSON : ContainerJSON := stopped "" ∅ 0.

Definition noSuchContainer : error := clientError true "No such container".
Definition connectionReset : error := clientError false "connection reset by peer".

(** A daemon that starts every container at once and knows no network; what
    it answers to an image inspect, a create and a container inspect are the
    parameters. *)
Definition daemonWith
    (imageInspect : string -> ImageInspect * option error)
    (create : ContainerCreateResponse * option error)
    (inspect : history -> string -> ContainerJSON * option error) : Client :=
  {| ClientInfo := fun _ => ({| Architecture := "x86_64" |}, None);
     ImageInspectWithRaw := fun _ name => imageInspect name;
     ImagePullBlocking := fun _ _ _ => None;
     ImageImportBlocking := fun _ _ _ _ _ => None;
     ContainerCreate := fun _ _ _ _ => create;
     ContainerStart := fun _ _ => None;
     ContainerInspect := inspect;
     ContainerRemove := fun _ _ _ => None;
     NetworkList := fun _ => ([], None);
     NetworkDisconnect := fun _ _ _ _ => None;
     ClientClose := fun _ => None |}.

Definition everyImage (name : string) : ImageInspect * option error :=
  ({| image_ID := "sha256:" +:+ name |}, None).

Definition noImage (name : string) : ImageInspect * option error :=
  ({| image_ID := "" |}, Some (clientError true ("No such image: " +:+ name))).

(** A daemon that has every image and creates every container under the id
    [newID]. *)
Definition daemon (newID : string)
    (inspect : history -> string -> ContainerJSON * option error) : Client :=
  daemonWith everyImage ({| resp_ID := newID |}, None) inspect.

Fixpoint inspectCount (h : history) : nat :=
  match h with
  | [] => O
  | CallContainerInspect _ :: h' => S (inspectCount h')
  | _ :: h' => inspectCount h'
  end.

(** Four inspects fail with a transient error, then the container is found
    stopped with exit code 0. *)
Definition flakyInspect (h : history) (id : string) : ContainerJSON * option error :=
  if (inspectCount h <? 4)%nat then (zeroJSON, Some connectionReset)
  else (stopped id ∅ 0, None).

(** The container named [name] exists under the id [oldID] with the volumes
    [volumes]; every other container that is inspected has stopped with exit
    code 0. *)
Definition cacheInspect (name oldID : string) (volumes : gset string)
    (h : history) (id : string) : ContainerJSON * option error :=
  if String.eqb id name then (stopped oldID volumes 0, None)
  else (stopped id ∅ 0, None).

(** No container exists before it is created. *)
Definition freshInspect (newID : string) (h : history) (id : string)
  : ContainerJSON * option error :=
  if String.eqb id newID then (stopped id ∅ 0, None)
  else (zeroJSON, Some noSuchContainer).

Definition dockerConfigWith (policy : DockerPullPolicy) (allowedImages : list string)
  : DockerConfig :=
  {| DockerCredentials := ""; Hostname := ""; Image := "ruby:2.1"; CPUSetCPUs := "";
     DNS := []; DNSSearch := []; Privileged := false; CapAdd := []; CapDrop := [];
     SecurityOpt := []; Devices := []; DisableCache := false; Volumes := [];
     VolumeDriver := ""; CacheDir := ""; ExtraHosts := []; VolumesFrom := [];
     NetworkMode := ""; Links := []; Services := []; WaitForServicesTimeout := 0;
     AllowedImages := allowedImages; AllowedServices := allowedImages;
     PullPolicy_Get := (policy, None) |}.

Definition dockerConfig : list string -> DockerConfig := dockerConfigWith PullPolicyAlways.

(** A build whose variables define [IMG] as ["evil/miner"]. *)
Definition build (fullProjectDir : string) (strategy : GitStrategy) : Build :=
  {| build_ID := 7; Sha := "0f3a"; BeforeSha := "0000"; RefName := "master";
     ProjectID := 1; RunnerID := 3; Runner_ShortDescription := "abcd1234";
     build_Credentials := []; RootDir := "/builds";
     FullProjectDir := fullProjectDir; ProjectUniqueName := "proj";
     GetGitStrategy := strategy; GetDockerAuthConfig := "";
     ExpandValue := fun v => if String.eqb v "$IMG" then "evil/miner" else v;
     AllVariables_StringList := ["IMG=evil/miner"];
     PublicOrInternal_StringList := ["IMG=evil/miner"];
     Options_Decode := fun o => (o, None) |}.

Definition bash : ShellConfiguration :=
  {| Environment := []; Command := "bash"; Arguments := []; PassFile := false;
     Extension := "" |}.

Definition abstractExecutor (docker : option DockerConfig) (b : option Build)
    (shell : option ShellConfiguration) : AbstractExecutor :=
  {| DefaultBuildsDir := "/builds"; SharedBuildsDir := false;
     Config := {| BuildsDir := ""; Docker := docker |};
     TheBuild := b; BuildShell := shell; Shell_User := "" |}.

(** An executor with empty registries. *)
Definition newExecutor (a : AbstractExecutor) (c : option Client)
    (image : string) (declaredServices : list string) : executor :=
  {| abstract := a; client := c; failures := []; builds := []; services := [];
     caches := []; options := {| opt_Image := image; opt_Services := declaredServices |};
     info := {| Architecture := "" |}; binds := []; volumesFrom := [];
     devices := []; links := [] |}.

(** [AbstractExecutor.Prepare] stores the configuration and the build and
    selects the shell [shell]. *)
Definition testEnv (shell : option ShellConfiguration) : Env :=
  {| md5hex := md5Table;
     filepath_Abs := fun p => (p, None);
     filepath_ToSlash := fun p => p;
     filepath_Match := globMatch;
     ReferenceRegexp := simpleReference;
     strconv_Quote := quote;
     runtime_GOARCH := "amd64";
     prebuiltImageName := "gitlab-runner-prebuilt";
     prebuiltImageExtension := ".tar.gz";
     REVISION := "HEAD";
     dockerLabelPrefix := "com.gitlab.gitlab-runner";
     DockerAPIVersion := "1.18";
     Asset := fun _ => ("", Some (errorString "Asset not found"));
     docker_helpers_New := fun _ _ => (Some (daemon "new1" (freshInspect "new1")), None);
     ReadAuthConfigsFromReader := fun _ => None;
     ReadDockerAuthConfigsFromHomeDir := fun _ => None;
     ResolveDockerAuthConfig := fun _ _ => None;
     SplitDockerImageName := fun name => ("docker.io", name);
     EncodeAuthConfig := fun _ => "";
     AbstractExecutor_Prepare := fun a config b =>
       ({| DefaultBuildsDir := DefaultBuildsDir a; SharedBuildsDir := SharedBuildsDir a;
           Config := config; TheBuild := Some b; BuildShell := shell;
           Shell_User := Shell_User a |}, None);
     AbstractExecutor_Cleanup := fun a => a;
     waitForServices := mret tt |}.

(** The environment in which [bash] is the selected shell. *)
Definition env0 : Env := testEnv (Some bash).

(** A prepared executor for the project [/builds/group/project] with the
    fetch strategy, connected to [c]. *)
Definition preparedExecutor (c : Client) : executor :=
  newExecutor
    (abstractExecutor (Some (dockerConfig []))
       (Some (build "/builds/group/project" GitFetch)) (Some bash))
    (Some c) "" [].

(** The same for a project directory [dir] and the clone strategy, on a
    daemon without any container. *)
Definition cloneExecutor (dir : string) : executor :=
  newExecutor
    (abstractExecutor (Some (dockerConfig [])) (Some (build dir GitClone)) (Some bash))
    (Some (daemon "new1" (freshInspect "new1"))) "" [].

(** The name of the cache container of ["/cache"] for the project ["proj"]. *)
Definition cacheName : string := "proj-cache-3c3f060a0374fc8bc39395164f415a70".

End Fixtures.

(** ** Further configurations, daemons and writers *)

Module MoreFixtures.

Import Fixtures.

(** The configuration [dockerConfig allowedImages] with declared volumes and
    devices and a cache directory. *)
Definition volumesConfig (allowedImages volumes declaredDevices : list string)
    (cacheDir : string) : DockerConfig :=
  {| DockerCredentials := ""; Hostname := ""; Image := "ruby:2.1"; CPUSetCPUs := "";
     DNS := []; DNSSearch := []; Privileged := false; CapAdd := []; CapDrop := [];
     SecurityOpt := []; Devices := declaredDevices; DisableCache := false;
     Volumes := volumes; VolumeDriver := ""; CacheDir := cacheDir; ExtraHosts := [];
     VolumesFrom := []; NetworkMode := ""; Links := []; Services := [];
     WaitForServicesTimeout := 0;
     AllowedImages := allowedImages; AllowedServices := allowedImages;
     PullPolicy_Get := (PullPolicyAlways, None) |}.

Definition freshDaemon : Client := daemon "new1" (freshInspect "new1").

(** A prepared executor for the project [/builds/group/project] with the
    configuration [d], the declared image and services, connected to [c]. *)
Definition configuredExecutor (d : DockerConfig) (c : Client)
    (image : string) (declaredServices : list string) : executor :=
  newExecutor
    (abstractExecutor (Some d) (Some (build "/builds/group/project" GitFetch)) (Some bash))
    (Some c) image declaredServices.

(** Every inspected container is running. *)
Definition runningInspect (h : history) (id : string) : ContainerJSON * option error :=
  ({| json_ID := id; json_Config := zeroConfig;
      json_State := {| Running := true; ExitCode := 0 |} |}, None).

(** The daemon [freshDaemon] with the networks [networks]. *)
Definition networkedDaemon (networks : list NetworkResource) : Client :=
  {| ClientInfo := ClientInfo freshDaemon;
     ImageInspectWithRaw := ImageInspectWithRaw freshDaemon;
     ImagePullBlocking := ImagePullBlocking freshDaemon;
     ImageImportBlocking := ImageImportBlocking freshDaemon;
     ContainerCreate := ContainerCreate freshDaemon;
     ContainerStart := ContainerStart freshDaemon;
     ContainerInspect := ContainerInspect freshDaemon;
     ContainerRemove := ContainerRemove freshDaemon;
     NetworkList := fun _ => (networks, None);
     NetworkDisconnect := NetworkDisconnect freshDaemon;
     ClientClose := ClientClose freshDaemon |}.

Definition bridge : NetworkResource :=
  {| net_Name := "bridge"; net_ID := "net1";
     net_Containers := {[ "endpoint1" := "c1" ]} |}.

Definition isolated : NetworkResource :=
  {| net_Name := "none"; net_ID := "net2"; net_Containers := ∅ |}.

Definition escape : ascii := ascii_of_nat 27.

Definition backslash : ascii := ascii_of_nat 92.

(** The helpers on a host where a path is absolute when it starts with a
    slash and is joined with a backslash. *)
Definition psHelpers : PowerShell.Helpers :=
  {| PowerShell.ToBackslash := fun path =>
       GoStrings.ReplaceAll path "/" (String backslash EmptyString);
     PowerShell.ANSI_RESET := String escape "[0;m";
     PowerShell.ANSI_BOLD_GREEN := String escape "[32;1m";
     PowerShell.ANSI_BOLD_RED := String escape "[31;1m";
     PowerShell.ANSI_YELLOW := String escape "[0;33m";
     PowerShell.filepath_IsAbs := GoPath.IsAbs;
     PowerShell.filepath_Join := fun a b => a +:+ String backslash b |}.

(** A writer that has written nothing. *)
Definition newWriter : PowerShell.PsWriter :=
  {| PowerShell.buffer := ""; PowerShell.TemporaryPath := "/builds/group/project.tmp";
     PowerShell.indent := 0 |}.

End MoreFixtures.
Example Dir_examples :
  map GoPath.Dir ["/builds/group/project"; "/builds"; "project"; "/"; "";
                  "a/b/"; "/a/../b/c"; "../x"; "//x"]
  = ["/builds/group"; "/"; "."; "/"; "."; "a/b"; "/b"; ".."; "/"].
Proof. reflexivity. Qed.

Example Clean_examples :
  map GoPath.Clean ["a//b/./c/.."; "/../a"; "../../a/.."; "a/.."; "/"; "a/../.."; "/a/b/../../.."]
  = ["a/b"; "/a"; "../.."; "."; "/"; ".."; "/"].
Proof. reflexivity. Qed.

Example Split_examples :
  (GoStrings.Split "a:b:c" ":", GoStrings.Split "" ":", GoStrings.Split ":a:" ":",
   GoStrings.SplitN2 "a:b:c" ":", GoStrings.SplitN2 "/cache" ":", GoStrings.SplitN2 "" ":")
  = (["a"; "b"; "c"], [""], [""; "a"; ""], ["a"; "b:c"], ["/cache"], [""]).
Proof. reflexivity. Qed.


(** ** Properties *)

Section Properties.

Context {env : Env}.

(** Running a bind: the first action is run, then the continuation. *)
(** Unfolding the plumbing of the monad. *)
Ltac unfold_M :=
  unfold deref, get, modify, panic, outOfFuel, mbind, M_bind, mret, M_ret in *.

Lemma bind_Done {A B} (m : M A) (k : A -> M B) s h a s' h' :
  m s h = Done a s' h' -> (m ≫= k) s h = k a s' h'.
Proof. intros Hm. unfold mbind, M_bind. now rewrite Hm. Qed.

Lemma bind_Panic {A B} (m : M A) (k : A -> M B) s h h' :
  m s h = Panic h' -> (m ≫= k) s h = Panic h'.
Proof. intros Hm. unfold mbind, M_bind. now rewrite Hm. Qed.

Lemma call_Some {A} ev (answer : Client -> history -> A) s h c :
  client s = Some c -> call ev answer s h = Done (answer c h) s (ev :: h).
Proof. intros Hc. unfold call. now rewrite Hc. Qed.

Lemma call_None {A} ev (answer : Client -> history -> A) s h :
  client s = None -> call ev answer s h = Panic h.
Proof. intros Hc. unfold call. now rewrite Hc. Qed.

(** *** waitForContainer *)

Lemma polled_shift id n h :
  polled id n (Sleep 1 :: CallContainerInspect id :: h) = polled id (S n) h.
Proof.
  induction n as [|n IH]; [reflexivity|].
  cbn [polled] in *. now rewrite IH.
Qed.

(** One round of the loop, by the answer of the daemon. *)
Lemma waitForContainer_loop_step fuel retries id s h c :
  client s = Some c ->
  waitForContainer_loop (S fuel) retries id s h =
    let '(container, err) := ContainerInspect c h id in
    let h1 := CallContainerInspect id :: h in
    match err with
    | Some err =>
        if IsErrNotFound err then Done (Some err) s h1
        else if retries >? 3 then Done (Some err) s h1
        else waitForContainer_loop fuel (retries + 1) id s (Sleep 1 :: h1)
    | None =>
        if Running (json_State container) then
          waitForContainer_loop fuel 0 id s (Sleep 1 :: h1)
        else if negb (ExitCode (json_State container) =? 0) then
          Done (Some (BuildError (errorString
                 ("exit code " +:+ pretty (ExitCode (json_State container)))))) s h1
        else Done None s h1
    end.
Proof.
  intros Hc. cbn [waitForContainer_loop].
  unfold callContainerInspect.
  rewrite (bind_Done _ _ _ _ _ _ _ (call_Some _ _ s h c Hc)).
  destruct (ContainerInspect c h id) as [container [err|]]; cbn.
  - destruct (IsErrNotFound err); [reflexivity|].
    destruct (retries >? 3); reflexivity.
  - destruct (Running (json_State container)); [reflexivity|].
    destruct (negb _); reflexivity.
Qed.

(** [k] transient errors in a row are slept through as long as the counter
    stays within 4. *)
Lemma waitForContainer_loop_transient k : forall fuel retries id s h c,
  client s = Some c ->
  0 <= retries -> retries + Z.of_nat k <= 4 ->
  (forall i, (i < k)%nat -> transientAt c id (polled id i h)) ->
  waitForContainer_loop (k + fuel) retries id s h =
  waitForContainer_loop fuel (retries + Z.of_nat k) id s (polled id k h).
Proof.
  induction k as [|k IH]; intros fuel retries id s h c Hc Hr Hk Htr.
  - cbn. now rewrite Z.add_0_r.
  - replace (S k + fuel)%nat with (S (k + fuel)) by lia.
    rewrite (waitForContainer_loop_step _ _ _ _ _ c Hc).
    destruct (Htr 0%nat ltac:(lia)) as (e & He & Hnf). cbn [polled] in He.
    destruct (ContainerInspect c h id) as [container err]. cbn in He. subst err.
    cbn zeta. rewrite Hnf.
    destruct (retries >? 3) eqn:Hgt; [lia|].
    rewrite (IH fuel (retries + 1) id s _ c Hc); [| lia | lia |].
    + rewrite polled_shift. f_equal. lia.
    + intros i Hi. rewrite polled_shift. apply Htr. lia.
Qed.

(** C3 (as amended).  [waitForContainer] polls the daemon and sleeps one
    second after every poll that does not end the wait.  Up to four transient
    inspect errors in a row are slept through.  After [k <= 4] of them the
    next answer decides: a Not Found error is returned at once; the fifth
    transient error in a row is returned; a container that no longer runs
    ends the wait, with success when its exit code is 0 and with a
    [BuildError] otherwise; a running container resets the count and is
    polled again a second later. *)
Theorem waitForContainer_tolerates_four_errors
    (c : Client) (s : executor) (id : string) (h : history) (fuel k : nat) :
  client s = Some c ->
  (k <= 4)%nat ->
  (forall i, (i < k)%nat -> transientAt c id (polled id i h)) ->
  let answer := ContainerInspect c (polled id k h) id in
  let h' := CallContainerInspect id :: polled id k h in
  (forall e, snd answer = Some e -> IsErrNotFound e = true ->
     waitForContainer (S k + fuel) id s h = Done (Some e) s h')
  /\ (forall e, snd answer = Some e -> k = 4%nat ->
        waitForContainer (S k + fuel) id s h = Done (Some e) s h')
  /\ (snd answer = None -> Running (json_State (fst answer)) = false ->
        waitForContainer (S k + fuel) id s h =
        Done (if ExitCode (json_State (fst answer)) =? 0 then None
              else Some (BuildError (errorString
                     ("exit code " +:+ pretty (ExitCode (json_State (fst answer)))))))
             s h')
  /\ (snd answer = None -> Running (json_State (fst answer)) = true ->
        waitForContainer (S k + fuel) id s h = waitForContainer fuel id s (Sleep 1 :: h')).
Proof.
  intros Hc Hk Htr answer h'.
  assert (Hrun : waitForContainer (S k + fuel) id s h =
                 waitForContainer_loop (S fuel) (Z.of_nat k) id s (polled id k h)).
  { unfold waitForContainer.
    replace (S k + fuel)%nat with (k + S fuel)%nat by lia.
    rewrite (waitForContainer_loop_transient k (S fuel) 0 id s h c Hc); auto; lia. }
  rewrite Hrun, (waitForContainer_loop_step _ _ _ _ _ c Hc).
  subst answer h'. destruct (ContainerInspect c (polled id k h) id) as [container err].
  cbn [fst snd]. repeat split.
  - intros e -> Hnf. now rewrite Hnf.
  - intros e -> ->. destruct (IsErrNotFound e); reflexivity.
  - intros -> Hr. rewrite Hr. now destruct (ExitCode (json_State container) =? 0).
  - intros -> Hr. now rewrite Hr.
Qed.

(** *** Images *)

Lemma ContainsAny_tagged (imageName : string) :
  GoStrings.ContainsAny imageName ":@" = true <-> tagged imageName.
Proof.
  unfold tagged. induction imageName as [|a s IH]; cbn.
  - split; [discriminate | intros (c & [] & _)].
  - rewrite !orb_true_iff, IH. split.
    + intros [[H|[H|H]]|(c & Hin & Hc)]; try discriminate.
      * apply Ascii.eqb_eq in H. subst a. exists ":"%char. auto.
      * apply Ascii.eqb_eq in H. subst a. exists "@"%char. auto.
      * exists c. auto.
    + intros (c & [<-|Hin] & Hc).
      * left. destruct Hc as [->| ->]; cbn; auto.
      * right. exists c. auto.
Qed.

Lemma pullReference_untagged (imageName : string) :
  ~ tagged imageName -> pullReference imageName = imageName +:+ ":latest".
Proof.
  intros H. unfold pullReference.
  destruct (GoStrings.ContainsAny imageName ":@") eqn:E; [|reflexivity].
  apply ContainsAny_tagged in E. contradiction.
Qed.

Lemma pullReference_tagged (imageName : string) :
  tagged imageName -> pullReference imageName = imageName.
Proof.
  intros H. unfold pullReference.
  apply ContainsAny_tagged in H. now rewrite H.
Qed.

(** What [pullDockerImage] does with a connected client: one pull, then an
    inspect when the pull succeeded. *)
Lemma pullDockerImage_run imageName ac s h c :
  client s = Some c ->
  let options := {| RegistryAuth := match ac with
                                    | Some a => EncodeAuthConfig a
                                    | None => ""
                                    end |} in
  let ref := pullReference imageName in
  let h1 := CallImagePullBlocking ref options :: h in
  pullDockerImage imageName ac s h =
    match ImagePullBlocking c h ref options with
    | Some err =>
        Done (None, Some (if GoStrings.Contains (Error err) "not found"
                          then BuildError err else err)) s h1
    | None =>
        let answer := ImageInspectWithRaw c h1 imageName in
        Done (Some (fst answer), snd answer) s (CallImageInspectWithRaw imageName :: h1)
    end.
Proof.
  intros Hc options ref h1. unfold pullDockerImage, callImagePullBlocking.
  fold options. fold ref.
  rewrite (bind_Done _ _ _ _ _ _ _ (call_Some _ _ s h c Hc)).
  destruct (ImagePullBlocking c h ref options) as [err|].
  - destruct (GoStrings.Contains (Error err) "not found"); reflexivity.
  - unfold callImageInspectWithRaw.
    rewrite (bind_Done _ _ _ _ _ _ _ (call_Some _ _ s _ c Hc)).
    subst h1. destruct (ImageInspectWithRaw c _ imageName); reflexivity.
Qed.

Lemma pullDockerImage_None imageName ac s h :
  client s = None -> pullDockerImage imageName ac s h = Panic h.
Proof.
  intros Hc. unfold pullDockerImage, callImagePullBlocking.
  now rewrite (bind_Panic _ _ _ _ _ (call_None _ _ s h Hc)).
Qed.

Lemma theDocker_run s h :
  theDocker s h = match Docker (Config (abstract s)) with
                  | Some d => Done d s h
                  | None => Panic h
                  end.
Proof. unfold theDocker. unfold_M. destruct (Docker _); reflexivity. Qed.

Lemma theBuild_run s h :
  theBuild s h = match TheBuild (abstract s) with
                 | Some b => Done b s h
                 | None => Panic h
                 end.
Proof. unfold theBuild. unfold_M. destruct (TheBuild _); reflexivity. Qed.

Lemma theBuildShell_run s h :
  theBuildShell s h = match BuildShell (abstract s) with
                      | Some b => Done b s h
                      | None => Panic h
                      end.
Proof. unfold theBuildShell. unfold_M. destruct (BuildShell _); reflexivity. Qed.

(** C4.  With the pull policy [never], [getDockerImage] makes one call, the
    local inspect, and returns its image and its error as they are; no pull
    is issued whatever the name and whatever the inspect answers. *)
Theorem getDockerImage_never_returns_inspect
    (s : executor) (h : history) (docker : DockerConfig) (imageName : string) :
  Docker (Config (abstract s)) = Some docker ->
  PullPolicy_Get docker = (PullPolicyNever, None) ->
  getDockerImage imageName s h =
    match client s with
    | Some c =>
        let answer := ImageInspectWithRaw c h imageName in
        Done (Some (fst answer), snd answer) s (CallImageInspectWithRaw imageName :: h)
    | None => Panic h
    end
  /\ (forall a s' h', getDockerImage imageName s h = Done a s' h' -> pulls h' = pulls h).
Proof.
  intros Hd Hp.
  assert (Hrun : getDockerImage imageName s h =
    match client s with
    | Some c =>
        let answer := ImageInspectWithRaw c h imageName in
        Done (Some (fst answer), snd answer) s (CallImageInspectWithRaw imageName :: h)
    | None => Panic h
    end).
  { unfold getDockerImage.
    erewrite bind_Done by (rewrite theDocker_run, Hd; reflexivity).
    rewrite Hp. erewrite bind_Done by reflexivity.
    unfold callImageInspectWithRaw.
    destruct (client s) as [c|] eqn:Hc.
    - rewrite (bind_Done _ _ _ _ _ _ _ (call_Some _ _ s h c Hc)).
      destruct (ImageInspectWithRaw c h imageName) as [image err]. reflexivity.
    - now rewrite (bind_Panic _ _ _ _ _ (call_None _ _ s h Hc)). }
  split; [exact Hrun|].
  intros a s' h' Hdone. rewrite Hrun in Hdone.
  destruct (client s); [|discriminate].
  injection Hdone as _ _ <-. reflexivity.
Qed.

(** *** Actions that only talk to the daemon *)

Lemma steady_ret {A} P (a : A) : steady P (mret a).
Proof. intros s h. cbn. split; [reflexivity|]. exists []. auto. Qed.

Lemma steady_bind {A B} P (m : M A) (k : A -> M B) :
  steady P m -> (forall a, steady P (k a)) -> steady P (m ≫= k).
Proof.
  intros Hm Hk s h. specialize (Hm s h). unfold mbind, M_bind.
  destruct (m s h) as [a s' h'| h' |]; [| exact Hm | exact I].
  destruct Hm as (-> & evs & -> & Hevs).
  specialize (Hk a s (evs ++ h)).
  destruct (k a s (evs ++ h)) as [b s'' h''| h'' |]; [| | exact I].
  - destruct Hk as (-> & evs' & -> & Hevs'). split; [reflexivity|].
    exists (evs' ++ evs). rewrite app_assoc. split; [reflexivity|].
    apply Forall_app; auto.
  - destruct Hk as (evs' & -> & Hevs'). exists (evs' ++ evs).
    rewrite app_assoc. split; [reflexivity|]. apply Forall_app; auto.
Qed.

Lemma steady_call {A} (P : event -> Prop) ev (answer : Client -> history -> A) :
  P ev -> steady P (call ev answer).
Proof.
  intros Hev s h. unfold call. destruct (client s).
  - split; [reflexivity|]. exists [ev]. split; [reflexivity|]. auto.
  - exists []. auto.
Qed.

Lemma steady_get P : steady P get.
Proof. intros s h. cbn. split; [reflexivity|]. exists []. auto. Qed.

Lemma steady_deref {A} P (p : option A) : steady P (deref p).
Proof.
  intros s h. destruct p; cbn.
  - split; [reflexivity|]. exists []. auto.
  - exists []. auto.
Qed.

Lemma steady_panic {A} P : steady P (@panic A).
Proof. intros s h. cbn. exists []. auto. Qed.

Lemma steady_sleep (P : event -> Prop) : P (Sleep 1) -> steady P sleepSecond.
Proof.
  intros HP s h. cbn. split; [reflexivity|]. exists [Sleep 1]. auto.
Qed.

Lemma steady_outOfFuel {A} P : steady P (@outOfFuel A).
Proof. intros s h. exact I. Qed.

Lemma steady_weaken {A} (P Q : event -> Prop) (m : M A) :
  (forall ev, P ev -> Q ev) -> steady P m -> steady Q m.
Proof.
  intros HPQ Hm s h. specialize (Hm s h).
  destruct (m s h) as [a s' h'| h' |]; [| | exact I].
  - destruct Hm as (-> & evs & -> & Hevs). split; [reflexivity|].
    exists evs. split; [reflexivity|]. eapply Forall_impl; eauto.
  - destruct Hm as (evs & -> & Hevs). exists evs. split; [reflexivity|].
    eapply Forall_impl; eauto.
Qed.

Lemma steady_theDocker P : steady P theDocker.
Proof. apply steady_bind; [apply steady_get | intros; apply steady_deref]. Qed.

Lemma steady_theBuild P : steady P theBuild.
Proof. apply steady_bind; [apply steady_get | intros; apply steady_deref]. Qed.

Lemma steady_theBuildShell P : steady P theBuildShell.
Proof. apply steady_bind; [apply steady_get | intros; apply steady_deref]. Qed.

Create HintDb steady.

#[local] Hint Resolve steady_ret steady_get steady_deref steady_panic steady_outOfFuel
  steady_theDocker steady_theBuild steady_theBuildShell : steady.

(** Breaks an action into its binds and the case distinctions it makes. *)
Ltac steady_step :=
  match goal with
  | |- steady _ (_ ≫= _) => apply steady_bind; [| intros ?]
  | |- steady _ (match ?x with _ => _ end) => destruct x
  | |- steady _ (let '(_, _) := ?x in _) => destruct x
  | |- steady _ (call _ _) => apply steady_call; cbn; auto
  | |- steady _ sleepSecond => apply steady_sleep; cbn; auto
  | |- steady _ _ => solve [auto with steady]
  end.

Ltac steady_auto := repeat steady_step.

Lemma steady_pullDockerImage P imageName ac :
  (forall o, P (CallImagePullBlocking (pullReference imageName) o)) ->
  (forall n, P (CallImageInspectWithRaw n)) ->
  steady P (pullDockerImage imageName ac).
Proof.
  intros Hpull Hinspect.
  unfold pullDockerImage, callImagePullBlocking, callImageInspectWithRaw.
  steady_auto.
Qed.

Lemma steady_getDockerImage P imageName :
  (forall o, P (CallImagePullBlocking (pullReference imageName) o)) ->
  (forall n, P (CallImageInspectWithRaw n)) ->
  steady P (getDockerImage imageName).
Proof.
  intros Hpull Hinspect.
  unfold getDockerImage, callImageInspectWithRaw.
  steady_auto; apply steady_pullDockerImage; auto.
Qed.

Lemma steady_getPrebuiltImage P :
  (forall n, P (CallImageInspectWithRaw n)) ->
  (forall d n r t, P (CallImageImportBlocking d n r t)) ->
  steady P getPrebuiltImage.
Proof.
  intros Hinspect Himport.
  unfold getPrebuiltImage, callImageInspectWithRaw, callImageImportBlocking.
  steady_auto.
Qed.

Lemma steady_waitForContainer_loop P fuel : forall retries id,
  P (CallContainerInspect id) -> P (Sleep 1) ->
  steady P (waitForContainer_loop fuel retries id).
Proof.
  induction fuel as [|fuel IH]; intros retries id Hinspect Hsleep; cbn [waitForContainer_loop].
  - apply steady_outOfFuel.
  - unfold callContainerInspect. steady_auto; apply IH; auto.
Qed.

Lemma steady_disconnectNetwork_loop P id netList : forall err,
  (forall n, P (CallNetworkDisconnect n id true)) ->
  steady P (disconnectNetwork_loop id netList err).
Proof.
  induction netList as [|network rest IH]; intros err Hd; cbn [disconnectNetwork_loop].
  - apply steady_ret.
  - unfold callNetworkDisconnect. steady_auto; apply IH; auto.
Qed.

Lemma steady_removeContainer P id :
  P CallNetworkList ->
  (forall n, P (CallNetworkDisconnect n id true)) ->
  (forall o, P (CallContainerRemove id o)) ->
  steady P (removeContainer id).
Proof.
  intros Hl Hd Hr.
  unfold removeContainer, disconnectNetwork, callNetworkList, callContainerRemove.
  steady_auto. apply steady_disconnectNetwork_loop; auto.
Qed.

Lemma steady_getLabels P containerType otherLabels :
  steady P (getLabels containerType otherLabels).
Proof. unfold getLabels. steady_auto. Qed.

Lemma steady_getAbsoluteContainerPath P dir :
  steady P (getAbsoluteContainerPath dir).
Proof. unfold getAbsoluteContainerPath. steady_auto. Qed.

(** What a steady action that returns has done. *)
Lemma steady_Done {A} P (m : M A) s h a s' h' :
  steady P m -> m s h = Done a s' h' ->
  s' = s /\ exists evs, h' = evs ++ h /\ Forall P evs.
Proof. intros Hm Hrun. specialize (Hm s h). now rewrite Hrun in Hm. Qed.

(** C5.  The reference handed to the pull is the image name followed by
    [":latest"] when the name contains neither [':'] nor ['@'], and the image
    name itself otherwise.  [pullDockerImage] pulls exactly once, with that
    reference, and every pull made through [getDockerImage] asks for it. *)
Theorem pull_appends_latest_iff_untagged (imageName : string) :
  (~ tagged imageName -> pullReference imageName = imageName +:+ ":latest")
  /\ (tagged imageName -> pullReference imageName = imageName)
  /\ (forall ac s h c, client s = Some c ->
        exists a evs options,
          pullDockerImage imageName ac s h =
            Done a s (evs ++ CallImagePullBlocking (pullReference imageName) options :: h)
          /\ Forall (fun ev => ~ isPull ev) evs)
  /\ (forall s h a s' h', getDockerImage imageName s h = Done a s' h' ->
        exists evs, h' = evs ++ h /\ Forall (pullsOnly (pullReference imageName)) evs).
Proof.
  split; [apply pullReference_untagged|].
  split; [apply pullReference_tagged|].
  split.
  - intros ac s h c Hc. rewrite (pullDockerImage_run imageName ac s h c Hc). cbn zeta.
    destruct (ImagePullBlocking c h _ _) as [err|].
    + eexists _, [], _. split; [reflexivity|]. constructor.
    + eexists _, [CallImageInspectWithRaw imageName], _. split; [reflexivity|].
      repeat constructor. cbn. tauto.
  - intros s h a s' h' Hrun.
    eapply (steady_Done (pullsOnly (pullReference imageName))) in Hrun.
    + destruct Hrun as (_ & evs & -> & Hevs). eauto.
    + apply steady_getDockerImage; cbn; auto.
Qed.

(** *** Actions that cannot fail to return once the client is connected *)

Lemma runs_ret {A} c P (a : A) : runs c P (mret a).
Proof. intros s h _. exists a, []. split; [reflexivity | constructor]. Qed.

Lemma runs_bind {A B} c P (m : M A) (k : A -> M B) :
  runs c P m -> (forall a, runs c P (k a)) -> runs c P (m ≫= k).
Proof.
  intros Hm Hk s h Hc.
  destruct (Hm s h Hc) as (a & evs & Hrun & Hevs).
  destruct (Hk a s (evs ++ h) Hc) as (b & evs' & Hrun' & Hevs').
  exists b, (evs' ++ evs). rewrite (bind_Done _ _ _ _ _ _ _ Hrun), Hrun', app_assoc.
  split; [reflexivity|]. apply Forall_app; auto.
Qed.

Lemma runs_call {A} c (P : event -> Prop) ev (answer : Client -> history -> A) :
  P ev -> runs c P (call ev answer).
Proof.
  intros Hev s h Hc. exists (answer c h), [ev].
  rewrite (call_Some _ _ _ _ _ Hc). split; [reflexivity|]. auto.
Qed.

Lemma runs_weaken {A} c (P Q : event -> Prop) (m : M A) :
  (forall ev, P ev -> Q ev) -> runs c P m -> runs c Q m.
Proof.
  intros HPQ Hm s h Hc. destruct (Hm s h Hc) as (a & evs & Hrun & Hevs).
  exists a, evs. split; [exact Hrun|]. eapply Forall_impl; eauto.
Qed.

Lemma runs_disconnectNetwork_loop c P id netList : forall err,
  (forall n, P (CallNetworkDisconnect n id true)) ->
  runs c P (disconnectNetwork_loop id netList err).
Proof.
  induction netList as [|network rest IH]; intros err Hd; cbn [disconnectNetwork_loop].
  - apply runs_ret.
  - destruct (plugged id network); [|now apply IH].
    apply runs_bind; [apply runs_call, Hd | intros; now apply IH].
Qed.

Lemma runs_disconnectNetwork c P id :
  P CallNetworkList ->
  (forall n, P (CallNetworkDisconnect n id true)) ->
  runs c P (disconnectNetwork id).
Proof.
  intros Hl Hd. unfold disconnectNetwork, callNetworkList.
  apply runs_bind; [now apply runs_call|].
  intros [netList [err|]]; [apply runs_ret | now apply runs_disconnectNetwork_loop].
Qed.

Lemma removals_app evs h : removals (evs ++ h) = removals evs ++ removals h.
Proof.
  induction evs as [|ev evs IH]; [reflexivity|].
  destruct ev; cbn; now rewrite ?IH.
Qed.

Lemma removals_none evs : Forall (fun ev => ~ isRemove ev) evs -> removals evs = [].
Proof.
  induction 1 as [|ev evs Hev _ IH]; [reflexivity|].
  destruct ev; cbn in *; auto. tauto.
Qed.

(** [removeContainer] with a connected client: the networks are scrubbed,
    then the one removal is made. *)
Lemma removeContainer_run c id s h :
  client s = Some c ->
  exists evs,
    removeContainer id s h =
      Done (ContainerRemove c (evs ++ h) id {| RemoveVolumes := true; Force := true |}) s
           (CallContainerRemove id {| RemoveVolumes := true; Force := true |} :: evs ++ h)
    /\ Forall (fun ev => drains [id] ev /\ ~ isRemove ev /\ ~ isCreate ev) evs.
Proof.
  intros Hc. unfold removeContainer.
  destruct (runs_disconnectNetwork c
              (fun ev => drains [id] ev /\ ~ isRemove ev /\ ~ isCreate ev) id) with (s := s) (h := h)
    as (a & evs & Hrun & Hevs); cbn; auto; try tauto.
  exists evs. rewrite (bind_Done _ _ _ _ _ _ _ Hrun).
  unfold callContainerRemove. rewrite (call_Some _ _ _ _ _ Hc). auto.
Qed.

Lemma removeContainer_None id s h :
  client s = None -> removeContainer id s h = Panic h.
Proof.
  intros Hc. unfold removeContainer, disconnectNetwork, callNetworkList.
  erewrite bind_Panic; [reflexivity|].
  erewrite bind_Panic; [reflexivity|]. now apply call_None.
Qed.

Lemma drains_incl ids ids' ev :
  incl ids ids' -> drains ids ev -> drains ids' ev.
Proof.
  intros Hi. destruct ev; cbn; auto. intros [H1 H2]. auto.
Qed.

(** The removals of one registry: one per entry, in order. *)
Lemma removeAll_run c ids : forall s h,
  client s = Some c ->
  exists evs,
    removeAll ids s h = Done tt s (evs ++ h)
    /\ removals evs = rev ids
    /\ Forall (drains ids) evs.
Proof.
  induction ids as [|id rest IH]; intros s h Hc; cbn [removeAll].
  - exists []. repeat split; constructor.
  - destruct (removeContainer_run c id s h Hc) as (evs1 & Hrun1 & Hevs1).
    rewrite (bind_Done _ _ _ _ _ _ _ Hrun1).
    destruct (IH s (CallContainerRemove id {| RemoveVolumes := true; Force := true |}
                      :: evs1 ++ h) Hc) as (evs2 & Hrun2 & Hrem2 & Hevs2).
    exists (evs2 ++ CallContainerRemove id {| RemoveVolumes := true; Force := true |} :: evs1).
    rewrite Hrun2. repeat split.
    + f_equal. now rewrite <- app_assoc.
    + rewrite removals_app, Hrem2. cbn. f_equal. f_equal.
      apply removals_none. eapply Forall_impl; [exact Hevs1|]. cbn. tauto.
    + apply Forall_app. split.
      * eapply Forall_impl; [exact Hevs2|]. intros ev. apply drains_incl. apply incl_tl, incl_refl.
      * constructor; [cbn; auto|].
        eapply Forall_impl; [exact Hevs1|]. intros ev (Hd & _).
        eapply drains_incl; [|exact Hd]. intros x [<-|[]]. now left.
Qed.

Lemma removeAll_None ids s h :
  client s = None ->
  removeAll ids s h = match ids with [] => Done tt s h | _ => Panic h end.
Proof.
  intros Hc. destruct ids as [|id rest]; [reflexivity|]. cbn [removeAll].
  erewrite bind_Panic; [reflexivity|]. now apply removeContainer_None.
Qed.

(** What [Cleanup] does, with and without a client. *)
Lemma Cleanup_run (s : executor) (h : history) :
  let s' := set_abstract (AbstractExecutor_Cleanup (abstract s)) s in
  match client s with
  | Some c =>
      exists evs,
        Cleanup s h = Done tt s' (CallClose :: evs ++ h)
        /\ removals evs = rev (registered s)
        /\ Forall (drains (registered s)) evs
  | None =>
      Cleanup s h = match registered s with
                    | [] => Done tt s' h
                    | _ :: _ => Panic h
                    end
  end.
Proof.
  intros s'. unfold Cleanup. erewrite bind_Done by reflexivity.
  destruct (client s) as [c|] eqn:Hc.
  - destruct (removeAll_run c (failures s) s h Hc) as (e1 & R1 & M1 & F1).
    destruct (removeAll_run c (map ID (services s)) s (e1 ++ h) Hc) as (e2 & R2 & M2 & F2).
    destruct (removeAll_run c (caches s) s (e2 ++ e1 ++ h) Hc) as (e3 & R3 & M3 & F3).
    destruct (removeAll_run c (map ID (builds s)) s (e3 ++ e2 ++ e1 ++ h) Hc)
      as (e4 & R4 & M4 & F4).
    exists (e4 ++ e3 ++ e2 ++ e1).
    rewrite (bind_Done _ _ _ _ _ _ _ R1), (bind_Done _ _ _ _ _ _ _ R2),
      (bind_Done _ _ _ _ _ _ _ R3), (bind_Done _ _ _ _ _ _ _ R4).
    erewrite bind_Done by reflexivity. rewrite Hc.
    erewrite bind_Done.
    2:{ erewrite bind_Done by (apply call_Some; exact Hc). reflexivity. }
    unfold_M. cbn. repeat split.
    + now rewrite <- !app_assoc.
    + rewrite !removals_app, M1, M2, M3, M4. unfold registered.
      now rewrite !rev_app_distr, <- !app_assoc.
    + unfold registered. repeat (apply Forall_app; split).
      * eapply Forall_impl; [exact F4|]. intros ev. apply drains_incl.
        do 3 apply incl_appr. apply incl_refl.
      * eapply Forall_impl; [exact F3|]. intros ev. apply drains_incl.
        do 2 apply incl_appr. apply incl_appl, incl_refl.
      * eapply Forall_impl; [exact F2|]. intros ev. apply drains_incl.
        apply incl_appr, incl_appl, incl_refl.
      * eapply Forall_impl; [exact F1|]. intros ev. apply drains_incl.
        apply incl_appl, incl_refl.
  - unfold registered.
    destruct (failures s) as [|f fs] eqn:Ef.
    2:{ erewrite bind_Panic; [reflexivity|]. now rewrite removeAll_None. }
    erewrite bind_Done by (now rewrite removeAll_None).
    destruct (services s) as [|v vs] eqn:Ev.
    2:{ erewrite bind_Panic; [reflexivity|]. now rewrite removeAll_None. }
    erewrite bind_Done by (now rewrite removeAll_None).
    destruct (caches s) as [|k ks] eqn:Ek.
    2:{ erewrite bind_Panic; [reflexivity|]. now rewrite removeAll_None. }
    erewrite bind_Done by (now rewrite removeAll_None).
    destruct (builds s) as [|b bs] eqn:Eb.
    2:{ erewrite bind_Panic; [reflexivity|]. now rewrite removeAll_None. }
    erewrite bind_Done by (now rewrite removeAll_None).
    erewrite bind_Done by reflexivity. rewrite Hc.
    erewrite bind_Done by reflexivity. reflexivity.
Qed.

(** C10.  [Cleanup] asks for the removal of the ids registered in
    [failures], [services], [caches] and [builds], once per entry and in
    this order, and of no other id; the only other calls it makes scrub the
    networks of these ids.  It calls [Close] exactly when the client is not
    nil.  With a nil client and empty registries it returns without a single
    call on the client. *)
Theorem Cleanup_drains_registries_and_closes_connected_client
    (s : executor) (h : history) :
  let s' := set_abstract (AbstractExecutor_Cleanup (abstract s)) s in
  match client s with
  | Some c =>
      exists evs,
        Cleanup s h = Done tt s' (CallClose :: evs ++ h)
        /\ removals evs = rev (registered s)
        /\ Forall (drains (registered s)) evs
  | None =>
      Cleanup s h = match registered s with
                    | [] => Done tt s' h
                    | _ :: _ => Panic h
                    end
  end.
Proof. apply Cleanup_run. Qed.

(** *** References of services *)

(** Parsing a service description touches neither the executor nor the
    client. *)
Lemma splitServiceAndVersion_pure (description : string) (s : executor) (h : history) :
  match splitServiceAndVersion description s h with
  | Done _ s' h' => s' = s /\ h' = h
  | Panic h' => h' = h
  | OutOfFuel => False
  end.
Proof.
  unfold splitServiceAndVersion.
  destruct (ReferenceRegexp description) as [m|]; [|cbn; auto].
  destruct (ReferenceRegexpNoPort (m1 m)) as [ms|]; unfold_M; [|reflexivity].
  destruct (0 <? String.length (m2 m))%nat; cbn; auto.
Qed.

(** C7 (the code against the claim).  [splitServiceAndVersion] has no error
    result: for a description that does not match the reference grammar it
    returns an empty service, the version ["latest"], the description itself
    as image name and no link name, and no [InvalidReference].
    [createFromServiceDescription] then makes no call, creates nothing and
    returns a nil error: the description is skipped in silence.  The check
    that would refuse it is there, [createService] answers
    "invalid service name" to the empty service, but it is never reached,
    since [createService] is only called from the loop over the link names.
    Parsing is pure: whatever the description, the executor and the history
    of client calls are left as they were. *)
Theorem splitServiceAndVersion_unmatched_returns_no_error
    (description : string) (s : executor) (h : history) :
  match splitServiceAndVersion description s h with
  | Done _ s' h' => s' = s /\ h' = h
  | Panic h' => h' = h
  | OutOfFuel => False
  end
  /\ (ReferenceRegexp description = None ->
      splitServiceAndVersion description s h = Done ("", "latest", description, []) s h
      /\ (forall linksMap,
            createFromServiceDescription description linksMap s h
            = Done (linksMap, None) s h)
      /\ createService "" "latest" description s h
         = Done (None, Some (errorString "invalid service name")) s h).
Proof.
  split; [apply splitServiceAndVersion_pure|].
  intros Hno.
  assert (Hsplit : splitServiceAndVersion description s h
                   = Done ("", "latest", description, []) s h).
  { unfold splitServiceAndVersion. now rewrite Hno. }
  split; [exact Hsplit|]. split; [|reflexivity].
  intros linksMap. unfold createFromServiceDescription.
  rewrite (bind_Done _ _ _ _ _ _ _ Hsplit). reflexivity.
Qed.

(** *** Allow-lists *)

(** [getImageName] expands the declared image but verifies the string as it
    was declared. *)
Lemma getImageName_verifies_declared s h b d :
  TheBuild (abstract s) = Some b ->
  Docker (Config (abstract s)) = Some d ->
  opt_Image (options s) <> "" ->
  getImageName s h =
    Done (match verifyAllowedImage (opt_Image (options s)) "images"
                  (AllowedImages d) [Image d] with
          | Some err => ("", Some err)
          | None => (ExpandValue b (opt_Image (options s)), None)
          end) s h.
Proof.
  intros Hb Hd Hne. unfold getImageName.
  erewrite bind_Done by reflexivity.
  destruct (String.eqb_spec (opt_Image (options s)) ""); [contradiction|]. cbn [negb].
  erewrite bind_Done by (rewrite theBuild_run, Hb; reflexivity).
  erewrite bind_Done by (rewrite theDocker_run, Hd; reflexivity).
  destruct (verifyAllowedImage _ _ _ _); reflexivity.
Qed.

(** [getServiceNames] verifies every declared service after expansion. *)
Lemma getServiceNames_loop_verifies_expanded s h b d service rest services :
  TheBuild (abstract s) = Some b ->
  Docker (Config (abstract s)) = Some d ->
  getServiceNames_loop (service :: rest) services s h =
    match verifyAllowedImage (ExpandValue b service) "services"
            (AllowedServices d) (Services d) with
    | Some err => Done ([], Some err) s h
    | None => getServiceNames_loop rest (append (ExpandValue b service) services) s h
    end.
Proof.
  intros Hb Hd. cbn [getServiceNames_loop].
  erewrite bind_Done by (rewrite theBuild_run, Hb; reflexivity).
  erewrite bind_Done by (rewrite theDocker_run, Hd; reflexivity).
  destruct (verifyAllowedImage _ _ _ _); reflexivity.
Qed.

(** *** Prepare *)

Lemma prepareBuildsDir_run config s h :
  prepareBuildsDir config s h =
    match Docker config with
    | None => Panic h
    | Some d =>
        let rootDir := if String.eqb (BuildsDir config) "" then DefaultBuildsDir (abstract s)
                       else BuildsDir config in
        Done None
          (if isHostMountedVolume rootDir (Volumes d)
           then set_abstract (set_SharedBuildsDir true (abstract s)) s else s) h
    end.
Proof.
  unfold prepareBuildsDir.
  destruct (Docker config) as [d|]; unfold_M; [|reflexivity].
  destruct (isHostMountedVolume _ _); reflexivity.
Qed.

(** C9.  When [AbstractExecutor.Prepare] selects a shell whose configuration
    has [PassFile = true], [Prepare] on a runner configuration with a Docker
    section returns the error "Docker doesn't support shells that require
    script file" without a single call on the client: the client and the
    four registries are as before.  Without a Docker section [Prepare]
    panics in [prepareBuildsDir], before the shell is looked at.  The
    configuration of PowerShell always has [PassFile = true]. *)
Theorem Prepare_with_PassFile_shell
    (fuel : nat) (config : RunnerConfig) (build : Build) (shell : ShellConfiguration)
    (s : executor) (h : history) :
  (forall a, exists a', AbstractExecutor_Prepare a config build = (a', None)
                        /\ BuildShell a' = Some shell) ->
  PassFile shell = true ->
  match Docker config with
  | Some _ =>
      exists s',
        Prepare fuel config build s h =
          Done (Some (errorString "Docker doesn't support shells that require script file"))
               s' h
        /\ client s' = client s /\ failures s' = failures s
        /\ services s' = services s /\ caches s' = caches s /\ builds s' = builds s
  | None => Prepare fuel config build s h = Panic h
  end
  /\ (forall info, exists shellConfig,
        shells.PowerShell_GetConfiguration info = (Some shellConfig, None)
        /\ PassFile shellConfig = true).
Proof.
  intros Habs Hpass. split.
  - unfold Prepare. destruct (Docker config) as [d|] eqn:Hd.
    + erewrite bind_Done by (rewrite prepareBuildsDir_run, Hd; reflexivity).
      cbv beta iota zeta. erewrite bind_Done by reflexivity.
      match goal with
      | |- context [AbstractExecutor_Prepare (abstract ?x) config build] =>
          set (s1 := x); destruct (Habs (abstract s1)) as (a' & Ha' & Hshell)
      end.
      rewrite Ha'.
      erewrite bind_Done by reflexivity.
      erewrite bind_Done by (rewrite theBuildShell_run; cbn; rewrite Hshell; reflexivity).
      rewrite Hpass. eexists. split; [reflexivity|].
      subst s1. destruct (isHostMountedVolume _ _); cbn; auto 6.
    + erewrite bind_Panic; [reflexivity|]. now rewrite prepareBuildsDir_run, Hd.
  - intros info. eexists. split; reflexivity.
Qed.

(** *** Registration of created containers *)

Lemma bind_inv {A B} (m : M A) (k : A -> M B) s h b s2 h2 :
  (m ≫= k) s h = Done b s2 h2 ->
  exists a s1 h1, m s h = Done a s1 h1 /\ k a s1 h1 = Done b s2 h2.
Proof.
  unfold mbind, M_bind. destruct (m s h) as [a s1 h1| |]; try discriminate.
  intros Hk. eauto.
Qed.

Lemma created_app c evs h :
  Forall (fun ev => ~ isCreate ev) evs -> created c (evs ++ h) = created c h.
Proof.
  induction 1 as [|ev evs Hev _ IH]; [reflexivity|].
  destruct ev; cbn in *; auto. tauto.
Qed.

(** Splits a run [H : (m ≫= k) s h = Done ...] into the run of [m] and the
    run of the continuation. *)
Tactic Notation "split_bind" hyp(H) "as" ident(a) ident(Hm) :=
  apply bind_inv in H;
  let s1 := fresh "s" in
  let h1 := fresh "h" in
  destruct H as (a & s1 & h1 & Hm & H).

(** Uses up the run [Hm] of an action that is steady and makes no create
    call. *)
Ltac use_steady Hm lem :=
  let evs := fresh "evs" in
  let Hevs := fresh "Hevs" in
  apply (steady_Done (fun ev => ~ isCreate ev)) in Hm;
  [ destruct Hm as (-> & evs & -> & Hevs) | apply lem; cbn; tauto ].

Lemma createCacheVolume_registers fuel name path s h c id err s' h' :
  client s = Some c ->
  createCacheVolume fuel name path s h = Done (id, err) s' h' ->
  exists cr,
    created c h' = cr ++ created c h
    /\ client s' = client s /\ services s' = services s /\ caches s' = caches s
    /\ builds s' = builds s /\ volumesFrom s' = volumesFrom s
    /\ match err with
       | Some _ => id = "" /\ failures s' = failures s ++ abandoned cr
       | None => cr = [(id, None)] /\ failures s' = failures s
       end.
Proof.
  intros Hc H. unfold createCacheVolume in H.
  split_bind H as prebuilt Hm. use_steady Hm steady_getPrebuiltImage.
  destruct prebuilt as [cacheImage [err0|]].
  { injection H as <- <- <- <-. exists []. rewrite (created_app _ _ _ Hevs).
    repeat split; auto. cbn. now rewrite app_nil_r. }
  split_bind H as image Hm. use_steady Hm @steady_deref.
  split_bind H as labels Hm. use_steady Hm steady_getLabels.
  split_bind H as answer Hm. unfold callContainerCreate in Hm.
  rewrite (call_Some _ _ _ _ _ Hc) in Hm. injection Hm as <- <- <-.
  match type of H with
  | context [ContainerCreate c ?hh ?cfg ?hc name] =>
      set (h3 := hh) in *; set (config := cfg) in *;
      assert (Hcr : created c (CallContainerCreate config hc name :: h3)
                    = (let '(resp, e) := ContainerCreate c h3 config hc name in
                       (resp_ID resp, e)) :: created c h)
  end.
  { cbn [created]. destruct (ContainerCreate c h3 config cacheHostConfig name).
    f_equal. subst h3. rewrite !app_assoc. apply created_app.
    repeat (apply Forall_app; split); auto. }
  destruct (ContainerCreate c h3 config cacheHostConfig name) as [resp [err1|]].
  { (* the create call failed *)
    split_bind H as u Hm.
    destruct (negb (resp_ID resp =? "")%string) eqn:Hid.
    - injection Hm as <- <- <-. injection H as <- <- <- <-.
      exists [(resp_ID resp, Some err1)]. split; [exact Hcr|]. cbn.
      repeat split; auto. now rewrite Hid.
    - injection Hm as <- <- <-. injection H as <- <- <- <-.
      exists [(resp_ID resp, Some err1)]. split; [exact Hcr|]. repeat split; auto.
      cbn. now rewrite Hid, app_nil_r. }
  split_bind H as started Hm. unfold callContainerStart in Hm.
  rewrite (call_Some _ _ _ _ _ Hc) in Hm. injection Hm as <- <- <-.
  destruct (ContainerStart c _ (resp_ID resp)) as [err2|].
  { (* the start failed *)
    split_bind H as u Hm. injection Hm as <- <- <-. injection H as <- <- <- <-.
    exists [(resp_ID resp, None)]. split; [exact Hcr|]. cbn. repeat split; auto. }
  split_bind H as waited Hm.
  apply (steady_Done (fun ev => ~ isCreate ev)) in Hm;
    [| apply steady_waitForContainer_loop; cbn; tauto ].
  destruct Hm as (-> & evs2 & -> & Hevs2).
  assert (Hcr' : created c (evs2 ++ CallContainerStart (resp_ID resp)
                              :: CallContainerCreate config cacheHostConfig name :: h3)
                 = (resp_ID resp, None) :: created c h).
  { rewrite created_app by exact Hevs2. exact Hcr. }
  destruct waited as [err3|].
  { (* the wait failed *)
    split_bind H as u Hm. injection Hm as <- <- <-. injection H as <- <- <- <-.
    exists [(resp_ID resp, None)]. split; [exact Hcr'|]. cbn. repeat split; auto. }
  injection H as <- <- <- <-.
  exists [(resp_ID resp, None)]. split; [exact Hcr'|]. repeat split; auto.
Qed.

Lemma steady_getServiceVariables P : steady P getServiceVariables.
Proof. unfold getServiceVariables. steady_auto. Qed.

Lemma createContainer_registers containerType imageName cmd s h c r err s' h' :
  client s = Some c ->
  createContainer containerType imageName cmd s h = Done (r, err) s' h' ->
  exists cr,
    created c h' = cr ++ created c h
    /\ client s' = client s /\ services s' = services s /\ caches s' = caches s
    /\ builds s' = builds s
    /\ match err with
       | Some _ => r = None /\ failures s' = failures s ++ abandoned cr
       | None =>
           failures s' = failures s
           /\ exists x inspect h0,
                cr = [(x, None)] /\ r = Some inspect
                /\ h' = CallContainerInspect x :: h0
                /\ inspect = fst (ContainerInspect c h0 x)
       end.
Proof.
  intros Hc H. unfold createContainer in H.
  split_bind H as pulled Hm. use_steady Hm steady_getDockerImage.
  destruct pulled as [image [err0|]].
  { injection H as <- <- <- <-. exists []. rewrite (created_app _ _ _ Hevs).
    repeat split; auto. cbn. now rewrite app_nil_r. }
  split_bind H as docker Hm. use_steady Hm steady_theDocker.
  split_bind H as build Hm. use_steady Hm steady_theBuild.
  split_bind H as img Hm. use_steady Hm @steady_deref.
  split_bind H as labels Hm. use_steady Hm steady_getLabels.
  split_bind H as shell Hm. use_steady Hm steady_theBuildShell.
  split_bind H as cur Hm. injection Hm as <- <- <-.
  split_bind H as removed Hm. use_steady Hm steady_removeContainer.
  split_bind H as answer Hm. unfold callContainerCreate in Hm.
  rewrite (call_Some _ _ _ _ _ Hc) in Hm. injection Hm as <- <- <-.
  match type of H with
  | context [ContainerCreate c ?hh ?cfg ?hc ?name] =>
      set (h3 := hh) in *; set (config := cfg) in *;
      set (hostConfig := hc) in *; set (containerName := name) in *;
      assert (Hcr : created c (CallContainerCreate config hostConfig containerName :: h3)
                    = (let '(resp, e) := ContainerCreate c h3 config hostConfig containerName in
                       (resp_ID resp, e)) :: created c h)
  end.
  { cbn [created]. destruct (ContainerCreate c h3 config hostConfig containerName).
    f_equal. subst h3. rewrite !app_assoc. apply created_app.
    repeat (apply Forall_app; split); auto. }
  destruct (ContainerCreate c h3 config hostConfig containerName) as [resp [err1|]].
  { split_bind H as u Hm.
    destruct (negb (resp_ID resp =? "")%string) eqn:Hid.
    - injection Hm as <- <- <-. injection H as <- <- <- <-.
      exists [(resp_ID resp, Some err1)]. split; [exact Hcr|]. cbn.
      repeat split; auto. now rewrite Hid.
    - injection Hm as <- <- <-. injection H as <- <- <- <-.
      exists [(resp_ID resp, Some err1)]. split; [exact Hcr|]. repeat split; auto.
      cbn. now rewrite Hid, app_nil_r. }
  split_bind H as inspected Hm. unfold callContainerInspect in Hm.
  rewrite (call_Some _ _ _ _ _ Hc) in Hm. injection Hm as <- <- <-.
  destruct (ContainerInspect c _ (resp_ID resp)) as [inspect [err2|]] eqn:Hi.
  { split_bind H as u Hm. injection Hm as <- <- <-. injection H as <- <- <- <-.
    exists [(resp_ID resp, None)]. split; [exact Hcr|]. cbn. repeat split; auto. }
  injection H as <- <- <- <-.
  exists [(resp_ID resp, None)]. split; [exact Hcr|]. repeat split; auto.
  eexists _, _, _. repeat split. now rewrite Hi.
Qed.

Lemma createService_registers service version image s h c r err s' h' :
  client s = Some c ->
  createService service version image s h = Done (r, err) s' h' ->
  exists cr,
    created c h' = cr ++ created c h
    /\ client s' = client s /\ services s' = services s /\ caches s' = caches s
    /\ builds s' = builds s
    /\ match err with
       | Some _ => r = None /\ failures s' = failures s ++ unstarted cr
       | None =>
           failures s' = failures s
           /\ exists x names, cr = [(x, None)] /\ r = Some (fakeContainer x names)
       end.
Proof.
  intros Hc H. unfold createService in H.
  destruct (String.length service =? 0)%nat.
  { injection H as <- <- <- <-. exists []. repeat split; auto.
    cbn. now rewrite app_nil_r. }
  split_bind H as pulled Hm. use_steady Hm steady_getDockerImage.
  destruct pulled as [serviceImage [err0|]].
  { injection H as <- <- <- <-. exists []. rewrite (created_app _ _ _ Hevs).
    repeat split; auto. cbn. now rewrite app_nil_r. }
  split_bind H as build Hm. use_steady Hm steady_theBuild.
  split_bind H as removed Hm. use_steady Hm steady_removeContainer.
  split_bind H as img Hm. use_steady Hm @steady_deref.
  split_bind H as labels Hm. use_steady Hm steady_getLabels.
  split_bind H as variables Hm. use_steady Hm steady_getServiceVariables.
  split_bind H as docker Hm. use_steady Hm steady_theDocker.
  split_bind H as cur Hm. injection Hm as <- <- <-.
  split_bind H as answer Hm. unfold callContainerCreate in Hm.
  rewrite (call_Some _ _ _ _ _ Hc) in Hm. injection Hm as <- <- <-.
  match type of H with
  | context [ContainerCreate c ?hh ?cfg ?hc ?name] =>
      set (h3 := hh) in *; set (config := cfg) in *;
      set (hostConfig := hc) in *; set (containerName := name) in *;
      assert (Hcr : created c (CallContainerCreate config hostConfig containerName :: h3)
                    = (let '(resp, e) := ContainerCreate c h3 config hostConfig containerName in
                       (resp_ID resp, e)) :: created c h)
  end.
  { cbn [created]. destruct (ContainerCreate c h3 config hostConfig containerName).
    f_equal. subst h3. rewrite !app_assoc. apply created_app.
    repeat (apply Forall_app; split); auto. }
  destruct (ContainerCreate c h3 config hostConfig containerName) as [resp [err1|]].
  { (* the id that comes with the error is dropped *)
    injection H as <- <- <- <-.
    exists [(resp_ID resp, Some err1)]. split; [exact Hcr|].
    repeat split; auto. cbn. now rewrite app_nil_r. }
  split_bind H as started Hm. unfold callContainerStart in Hm.
  rewrite (call_Some _ _ _ _ _ Hc) in Hm. injection Hm as <- <- <-.
  destruct (ContainerStart c _ (resp_ID resp)) as [err2|].
  { split_bind H as u Hm. injection Hm as <- <- <-. injection H as <- <- <- <-.
    exists [(resp_ID resp, None)]. split; [exact Hcr|]. cbn. repeat split; auto. }
  injection H as <- <- <- <-.
  exists [(resp_ID resp, None)]. split; [exact Hcr|]. repeat split; auto.
  eexists _, _. split; reflexivity.
Qed.

(** Once the service container exists the loop only fills the map. *)
Lemma createFromServiceDescription_loop_created service version imageName container0 :
  forall linkNames linksMap s h,
  exists linksMap',
    createFromServiceDescription_loop service version imageName linkNames
      (Some container0) linksMap s h = Done (linksMap', None) s h.
Proof.
  induction linkNames as [|linkName rest IH]; intros linksMap s h;
    cbn [createFromServiceDescription_loop].
  - eexists. reflexivity.
  - destruct (linksMap !! linkName); apply IH.
Qed.

Lemma createFromServiceDescription_loop_registers service version imageName c :
  forall linkNames linksMap s h linksMap' err s' h',
  client s = Some c ->
  createFromServiceDescription_loop service version imageName linkNames None linksMap s h
    = Done (linksMap', err) s' h' ->
  exists cr,
    created c h' = cr ++ created c h
    /\ client s' = client s /\ caches s' = caches s /\ builds s' = builds s
    /\ match err with
       | Some _ => services s' = services s /\ failures s' = failures s ++ unstarted cr
       | None =>
           failures s' = failures s
           /\ exists containers,
                services s' = services s ++ containers
                /\ map ID containers = map fst cr
       end.
Proof.
  induction linkNames as [|linkName rest IH];
    intros linksMap s h linksMap' err s' h' Hc H;
    cbn [createFromServiceDescription_loop] in H.
  - injection H as <- <- <- <-. exists []. repeat split; auto.
    exists []. now rewrite app_nil_r.
  - destruct (linksMap !! linkName); [now apply (IH _ _ _ _ _ _ _ Hc H)|].
    split_bind H as answer Hm. destruct answer as [created0 err0].
    destruct (createService_registers _ _ _ _ _ _ _ _ _ _ Hc Hm)
      as (cr & Hcr & Hcl & Hsv & Hca & Hbu & Hres).
    destruct err0 as [err0|].
    + injection H as <- <- <- <-. destruct Hres as (_ & Hfail).
      exists cr. repeat split; auto.
    + destruct Hres as (Hfail & x & names & -> & ->).
      split_bind H as container0 Hm'. injection Hm' as <- <- <-.
      split_bind H as u Hm'. injection Hm' as <- <- <-.
      match type of H with
      | createFromServiceDescription_loop _ _ _ _ _ ?lm ?st ?hh = _ =>
          destruct (createFromServiceDescription_loop_created service version imageName
                      (fakeContainer x names) rest lm st hh) as (lm' & Hrest)
      end.
      rewrite Hrest in H. injection H as <- <- <- <-.
      exists [(x, None)]. cbn. repeat split; auto.
      exists [fakeContainer x names]. unfold append. now rewrite Hsv.
Qed.

Lemma createFromServiceDescription_registers description linksMap s h c linksMap' err s' h' :
  client s = Some c ->
  createFromServiceDescription description linksMap s h = Done (linksMap', err) s' h' ->
  exists cr,
    created c h' = cr ++ created c h
    /\ client s' = client s /\ caches s' = caches s /\ builds s' = builds s
    /\ match err with
       | Some _ => services s' = services s /\ failures s' = failures s ++ unstarted cr
       | None =>
           failures s' = failures s
           /\ exists containers,
                services s' = services s ++ containers
                /\ map ID containers = map fst cr
       end.
Proof.
  intros Hc H. unfold createFromServiceDescription in H.
  split_bind H as parsed Hm.
  pose proof (splitServiceAndVersion_pure description s h) as Hpure.
  rewrite Hm in Hpure. destruct Hpure as [-> ->].
  destruct parsed as [[[service version] imageName] linkNames].
  now apply (createFromServiceDescription_loop_registers _ _ _ _ _ _ _ _ _ _ _ _ Hc H).
Qed.

Lemma addCacheVolume_registers fuel containerPath s h c err s' h' :
  client s = Some c ->
  addCacheVolume fuel containerPath s h = Done err s' h' ->
  exists cr,
    created c h' = cr ++ created c h
    /\ client s' = client s /\ services s' = services s /\ caches s' = caches s
    /\ builds s' = builds s
    /\ match err with
       | Some _ => failures s' = failures s ++ abandoned cr
       | None =>
           failures s' = failures s
           /\ forall x e, In (x, e) cr -> e = None /\ volumesFrom s' = volumesFrom s ++ [x]
       end.
Proof.
  intros Hc H. unfold addCacheVolume in H.
  split_bind H as path Hm. use_steady Hm steady_getAbsoluteContainerPath.
  split_bind H as docker Hm. use_steady Hm steady_theDocker.
  assert (Hnone : forall hh, Forall (fun ev => ~ isCreate ev) hh ->
            created c (hh ++ h) = [] ++ created c h).
  { intros hh Hhh. now rewrite created_app. }
  destruct (DisableCache docker).
  { injection H as <- <- <-. exists []. rewrite !app_assoc.
    split; [apply Hnone; repeat (apply Forall_app; split); auto|].
    repeat split; auto; intros; cbn in *; tauto. }
  split_bind H as build Hm. use_steady Hm steady_theBuild.
  destruct (negb (CacheDir docker =? "")%string).
  { destruct (filepath_Abs _) as [hostPath [err0|]].
    - injection H as <- <- <-. exists []. rewrite !app_assoc.
      split; [apply Hnone; repeat (apply Forall_app; split); auto|].
      repeat split; auto. cbn. now rewrite app_nil_r.
    - split_bind H as u Hm. injection Hm as <- <- <-. injection H as <- <- <-.
      exists []. rewrite !app_assoc.
      split; [apply Hnone; repeat (apply Forall_app; split); auto|].
      repeat split; auto; intros; cbn in *; tauto. }
  split_bind H as answer Hm. unfold callContainerInspect in Hm.
  rewrite (call_Some _ _ _ _ _ Hc) in Hm. injection Hm as <- <- <-.
  match type of H with
  | context [ContainerInspect c ?hh ?name] =>
      set (h3 := CallContainerInspect name :: hh) in *;
      assert (Hh3 : exists e3, h3 = e3 ++ h /\ Forall (fun ev => ~ isCreate ev) e3)
  end.
  { exists (CallContainerInspect (ProjectUniqueName build +:+ "-cache-" +:+ md5hex path)
              :: evs1 ++ evs0 ++ evs).
    split; [subst h3; cbn [app]; f_equal; now rewrite <- !app_assoc|].
    constructor; [cbn; tauto|]. repeat (apply Forall_app; split); auto. }
  clearbody h3. destruct Hh3 as (e3 & -> & He3).
  destruct (ContainerInspect c _ _) as [inspected err0].
  split_bind H as containerID Hm.
  assert (Hpre : s0 = s /\ exists e4, h0 = e4 ++ h /\ Forall (fun ev => ~ isCreate ev) e4).
  { destruct err0 as [err0|].
    - injection Hm as <- <- <-. eauto.
    - destruct (bool_decide _).
      + split_bind Hm as removed Hr. use_steady Hr steady_removeContainer.
        injection Hm as <- <- <-. split; [reflexivity|].
        exists (evs2 ++ e3). rewrite app_assoc. split; [reflexivity|].
        apply Forall_app; auto.
      + injection Hm as <- <- <-. eauto. }
  clear Hm. destruct Hpre as (-> & e4 & -> & He4).
  split_bind H as made Hm. destruct made as [newID err1].
  assert (Hmade : exists cr,
            created c h0 = cr ++ created c h
            /\ client s0 = client s /\ services s0 = services s /\ caches s0 = caches s
            /\ builds s0 = builds s /\ volumesFrom s0 = volumesFrom s
            /\ match err1 with
               | Some _ => failures s0 = failures s ++ abandoned cr
               | None => failures s0 = failures s
                         /\ forall x e, In (x, e) cr -> e = None /\ x = newID
               end).
  { destruct (containerID =? "")%string.
    - destruct (createCacheVolume_registers _ _ _ _ _ _ _ _ _ _ Hc Hm)
        as (cr & Hcr & ? & ? & ? & ? & ? & Hres).
      exists cr. rewrite Hcr, created_app by exact He4.
      repeat split; auto. destruct err1.
      + tauto.
      + destruct Hres as (-> & ?). split; [assumption|].
        intros y e' [[= <- <-]|[]]. auto.
    - injection Hm as <- <- <- <-. exists []. rewrite created_app by exact He4.
      repeat split; auto; intros; cbn in *; tauto. }
  clear Hm. destruct Hmade as (cr & Hcr & Hcl & Hsv & Hca & Hbu & Hvf & Hres).
  destruct err1 as [err1|].
  - injection H as <- <- <-. exists cr. repeat split; auto; tauto.
  - split_bind H as u Hm. injection Hm as <- <- <-. injection H as <- <- <-.
    exists cr. cbn. repeat split; auto; try tauto.
    + destruct (proj2 Hres x e H). assumption.
    + destruct (proj2 Hres x e H) as (_ & ->). unfold append. now rewrite Hvf.
Qed.

Lemma createBuildVolume_registers fuel s h c b d err s' h' :
  client s = Some c ->
  TheBuild (abstract s) = Some b ->
  Docker (Config (abstract s)) = Some d ->
  GetGitStrategy b <> GitFetch \/ DisableCache d = true ->
  createBuildVolume fuel s h = Done err s' h' ->
  exists cr,
    created c h' = cr ++ created c h
    /\ client s' = client s /\ services s' = services s /\ builds s' = builds s
    /\ match err with
       | Some _ => caches s' = caches s /\ failures s' = failures s ++ abandoned cr
       | None => failures s' = failures s /\ caches s' = caches s ++ map fst cr
       end.
Proof.
  intros Hc Hb Hd Heph H. unfold createBuildVolume, createBuildVolume_guarded in H.
  erewrite bind_Done in H by (rewrite theBuild_run, Hb; reflexivity).
  cbv zeta in H.
  destruct (negb (GoPath.IsAbs _) && negb _).
  { injection H as <- <- <-. exists [].
    repeat split; auto. cbn. now rewrite app_nil_r. }
  erewrite bind_Done in H by (rewrite theDocker_run, Hd; reflexivity).
  destruct (isHostMountedVolume _ _).
  { injection H as <- <- <-. exists []. repeat split; auto. cbn. now rewrite app_nil_r. }
  assert (Hcond : bool_decide (GetGitStrategy b = GitFetch) && negb (DisableCache d) = false).
  { destruct Heph as [Hne| ->].
    - now rewrite bool_decide_eq_false_2.
    - now rewrite andb_false_r. }
  rewrite Hcond in H.
  split_bind H as made Hm. destruct made as [id err0].
  destruct (createCacheVolume_registers _ _ _ _ _ _ _ _ _ _ Hc Hm)
    as (cr & Hcr & ? & ? & ? & ? & ? & Hres).
  destruct err0 as [err0|].
  - injection H as <- <- <-. exists cr. repeat split; auto; tauto.
  - split_bind H as u Hm1. injection Hm1 as <- <- <-.
    split_bind H as u' Hm2. injection Hm2 as <- <- <-. injection H as <- <- <-.
    exists cr. cbn. destruct Hres as (-> & Hf). repeat split; auto.
    cbn. unfold append. congruence.
Qed.

(** *** The guards of the volume planner, as the code has them *)

(** The guard of [createBuildVolume] refuses exactly the parent directories
    that are not absolute; ["/"] is absolute, so it passes. *)
Lemma createBuildVolume_guard fuel s h b :
  TheBuild (abstract s) = Some b ->
  createBuildVolume fuel s h =
    if GoPath.IsAbs (GoPath.Dir (FullProjectDir b))
    then createBuildVolume_guarded fuel b (GoPath.Dir (FullProjectDir b)) s h
    else Done (Some (errorString "build directory needs to be absolute and non-root path")) s h.
Proof.
  intros Hb. unfold createBuildVolume.
  erewrite bind_Done by (rewrite theBuild_run, Hb; reflexivity). cbv zeta.
  destruct (GoPath.IsAbs (GoPath.Dir (FullProjectDir b))) eqn:Habs; cbn [negb andb].
  - reflexivity.
  - destruct (String.eqb_spec (GoPath.Dir (FullProjectDir b)) "/") as [E|E]; [|reflexivity].
    rewrite E in Habs. discriminate.
Qed.

(** With a container of the cache name in place, [addCacheVolume] keeps it
    when the requested path is missing from its [Volumes] and removes it
    when the path is there. *)
Lemma addCacheVolume_existing fuel containerPath s h c d b inspected :
  GoPath.IsAbs containerPath = true ->
  client s = Some c ->
  Docker (Config (abstract s)) = Some d ->
  DisableCache d = false -> CacheDir d = "" ->
  TheBuild (abstract s) = Some b ->
  let containerName := ProjectUniqueName b +:+ "-cache-" +:+ md5hex containerPath in
  ContainerInspect c h containerName = (inspected, None) ->
  json_ID inspected <> "" ->
  (containerPath ∉ cfg_Volumes (json_Config inspected) ->
     addCacheVolume fuel containerPath s h =
       Done None (set_volumesFrom (append (json_ID inspected)) s)
            (CallContainerInspect containerName :: h))
  /\ (containerPath ∈ cfg_Volumes (json_Config inspected) ->
      exists evs,
        Forall (fun ev => ~ isRemove ev /\ ~ isCreate ev) evs
        /\ addCacheVolume fuel containerPath s h =
             ('(containerID, err) ← createCacheVolume fuel containerName containerPath;
              match err with
              | Some err => mret (Some err)
              | None => modify (set_volumesFrom (append containerID));; mret None
              end) s
               (CallContainerRemove (json_ID inspected)
                  {| RemoveVolumes := true; Force := true |}
                :: evs ++ CallContainerInspect containerName :: h)).
Proof.
  intros Habs Hc Hd Hdis Hdir Hb containerName Hi Hid.
  assert (Hstart :
            addCacheVolume fuel containerPath s h =
            (containerID ←
               (if bool_decide (containerPath ∈ cfg_Volumes (json_Config inspected))
                then removeContainer (json_ID inspected);; mret ""
                else mret (json_ID inspected));
             '(containerID, err) ←
               (if (containerID =? "")%string
                then createCacheVolume fuel containerName containerPath
                else mret (containerID, None));
             match err with
             | Some err => mret (Some err)
             | None => modify (set_volumesFrom (append containerID));; mret None
             end) s (CallContainerInspect containerName :: h)).
  { unfold addCacheVolume.
    erewrite bind_Done by (unfold getAbsoluteContainerPath; rewrite Habs; reflexivity).
    erewrite bind_Done by (rewrite theDocker_run, Hd; reflexivity).
    rewrite Hdis.
    erewrite bind_Done by (rewrite theBuild_run, Hb; reflexivity).
    cbv zeta. rewrite Hdir. cbn [String.eqb negb]. fold containerName.
    unfold callContainerInspect.
    erewrite bind_Done by (apply call_Some; exact Hc).
    rewrite Hi. reflexivity. }
  split.
  - intros Hnot. rewrite Hstart, bool_decide_eq_false_2 by assumption.
    erewrite bind_Done by reflexivity.
    destruct (String.eqb_spec (json_ID inspected) ""); [contradiction|].
    reflexivity.
  - intros Hin. rewrite Hstart, bool_decide_eq_true_2 by assumption.
    destruct (removeContainer_run c (json_ID inspected) s
                (CallContainerInspect containerName :: h) Hc) as (evs & Hrun & Hevs).
    exists evs. split.
    + eapply Forall_impl; [exact Hevs|]. cbn. tauto.
    + erewrite bind_Done.
      2:{ erewrite bind_Done by exact Hrun. reflexivity. }
      reflexivity.
Qed.

(** C6 (as amended).  With the client connected, every container id that
    [createCacheVolume] or [createContainer] obtains from a create call and
    then gives up on (the create call returned it with an error, or the
    start, wait or inspect that follows failed) is appended to [failures],
    and so is the id of a service whose start fails in [createService]; the
    entries that were registered before stay where they are.  An id that is
    kept is handed to the caller: [createFromServiceDescription] appends the
    service to [services], [createBuildVolume] appends the temporary cache
    of the project root to [caches], [createContainer] returns the inspected
    build container, and [addCacheVolume] records a named cache container in
    [volumesFrom] only, leaving the four registries as they were.  No
    registry loses or reorders an entry in any of these functions.
    [Cleanup] asks for one removal per entry of [failures], [services],
    [caches] and [builds]; nothing is said about the order of the removals,
    which the goroutines of [Cleanup] do not fix. *)
Theorem created_ids_are_registered_or_handed_over
    (c : Client) (s : executor) (h : history) :
  client s = Some c ->
  (forall fuel name path id err s' h',
     createCacheVolume fuel name path s h = Done (id, err) s' h' ->
     exists cr, created c h' = cr ++ created c h
       /\ services s' = services s /\ caches s' = caches s /\ builds s' = builds s
       /\ match err with
          | Some _ => failures s' = failures s ++ abandoned cr
          | None => failures s' = failures s /\ cr = [(id, None)]
          end)
  /\ (forall containerType imageName cmd r err s' h',
        createContainer containerType imageName cmd s h = Done (r, err) s' h' ->
        exists cr, created c h' = cr ++ created c h
          /\ services s' = services s /\ caches s' = caches s /\ builds s' = builds s
          /\ match err with
             | Some _ => failures s' = failures s ++ abandoned cr
             | None =>
                 failures s' = failures s
                 /\ exists x inspect h0,
                      cr = [(x, None)] /\ r = Some inspect
                      /\ h' = CallContainerInspect x :: h0
                      /\ inspect = fst (ContainerInspect c h0 x)
             end)
  /\ (forall service version image r err s' h',
        createService service version image s h = Done (r, err) s' h' ->
        exists cr, created c h' = cr ++ created c h
          /\ services s' = services s /\ caches s' = caches s /\ builds s' = builds s
          /\ match err with
             | Some _ => failures s' = failures s ++ unstarted cr
             | None =>
                 failures s' = failures s
                 /\ exists x names, cr = [(x, None)] /\ r = Some (fakeContainer x names)
             end)
  /\ (forall description linksMap linksMap' err s' h',
        createFromServiceDescription description linksMap s h = Done (linksMap', err) s' h' ->
        exists cr, created c h' = cr ++ created c h
          /\ caches s' = caches s /\ builds s' = builds s
          /\ match err with
             | Some _ => services s' = services s /\ failures s' = failures s ++ unstarted cr
             | None =>
                 failures s' = failures s
                 /\ exists containers,
                      services s' = services s ++ containers
                      /\ map ID containers = map fst cr
             end)
  /\ (forall fuel b d err s' h',
        TheBuild (abstract s) = Some b ->
        Docker (Config (abstract s)) = Some d ->
        GetGitStrategy b <> GitFetch \/ DisableCache d = true ->
        createBuildVolume fuel s h = Done err s' h' ->
        exists cr, created c h' = cr ++ created c h
          /\ services s' = services s /\ builds s' = builds s
          /\ match err with
             | Some _ => caches s' = caches s /\ failures s' = failures s ++ abandoned cr
             | None => failures s' = failures s /\ caches s' = caches s ++ map fst cr
             end)
  /\ (forall fuel containerPath err s' h',
        addCacheVolume fuel containerPath s h = Done err s' h' ->
        exists cr, created c h' = cr ++ created c h
          /\ services s' = services s /\ caches s' = caches s /\ builds s' = builds s
          /\ match err with
             | Some _ => failures s' = failures s ++ abandoned cr
             | None =>
                 failures s' = failures s
                 /\ forall x e, In (x, e) cr -> volumesFrom s' = volumesFrom s ++ [x]
             end)
  /\ (exists evs s',
        Cleanup s h = Done tt s' (CallClose :: evs ++ h)
        /\ Permutation (removals evs) (registered s)
        /\ registered s' = registered s).
Proof.
  intros Hc. repeat apply conj.
  - intros fuel name path id err s' h' H.
    destruct (createCacheVolume_registers _ _ _ _ _ _ _ _ _ _ Hc H)
      as (cr & Hcr & _ & ? & ? & ? & _ & Hres).
    exists cr. repeat (split; [assumption|]). destruct err; tauto.
  - intros containerType imageName cmd r err s' h' H.
    destruct (createContainer_registers _ _ _ _ _ _ _ _ _ _ Hc H)
      as (cr & Hcr & _ & ? & ? & ? & Hres).
    exists cr. repeat (split; [assumption|]). destruct err; tauto.
  - intros service version image r err s' h' H.
    destruct (createService_registers _ _ _ _ _ _ _ _ _ _ Hc H)
      as (cr & Hcr & _ & ? & ? & ? & Hres).
    exists cr. repeat (split; [assumption|]). destruct err; tauto.
  - intros description linksMap linksMap' err s' h' H.
    destruct (createFromServiceDescription_registers _ _ _ _ _ _ _ _ _ Hc H)
      as (cr & Hcr & _ & ? & ? & Hres).
    exists cr. repeat (split; [assumption|]). exact Hres.
  - intros fuel b d err s' h' Hb Hd Heph H.
    destruct (createBuildVolume_registers _ _ _ _ _ _ _ _ _ Hc Hb Hd Heph H)
      as (cr & Hcr & _ & ? & ? & Hres).
    exists cr. repeat (split; [assumption|]). exact Hres.
  - intros fuel containerPath err s' h' H.
    destruct (addCacheVolume_registers _ _ _ _ _ _ _ _ Hc H)
      as (cr & Hcr & _ & ? & ? & ? & Hres).
    exists cr. repeat (split; [assumption|]). destruct err as [err|]; [exact Hres|].
    destruct Hres as (Hf & Hvf). split; [exact Hf|].
    intros x e Hin. now destruct (Hvf x e Hin).
  - pose proof (Cleanup_run s h) as Hrun. cbv zeta in Hrun. rewrite Hc in Hrun.
    destruct Hrun as (evs & Hrun & Hrem & _). eexists _, _.
    split; [exact Hrun|]. split; [|reflexivity].
    rewrite Hrem. symmetry. apply Permutation_rev.
Qed.

End Properties.

(** ** The executor on explicit inputs *)

Import Fixtures.

(** C1 (the code against the claim).  The cache container of ["/cache"]
    exists under the id [old1].  When ["/cache"] is a key of its [Volumes]
    the container is removed and a new one is created, started and waited
    for; when ["/cache"] is missing from its [Volumes] the container is kept
    and its id goes to [volumesFrom]. *)
Theorem addCacheVolume_removes_valid_cache_and_keeps_stale_one :
  let run volumes :=
    addCacheVolume (env := env0) 3 "/cache"
      (preparedExecutor (daemon "new1" (cacheInspect cacheName "old1" volumes))) [] in
  let s0 volumes := preparedExecutor (daemon "new1" (cacheInspect cacheName "old1" volumes)) in
  (returned (run {[ "/cache" ]}) = Some None
   /\ chronicle (finalHistory (run {[ "/cache" ]}))
      = ["ContainerInspect proj-cache-3c3f060a0374fc8bc39395164f415a70";
         "NetworkList";
         "ContainerRemove old1";
         "ImageInspect gitlab-runner-prebuilt:x86_64-HEAD";
         "ContainerCreate proj-cache-3c3f060a0374fc8bc39395164f415a70";
         "ContainerStart new1";
         "ContainerInspect new1"]
   /\ declaredVolumes (finalHistory (run {[ "/cache" ]})) = [["/cache"]]
   /\ volumesFrom (finalState (s0 {[ "/cache" ]}) (run {[ "/cache" ]})) = ["new1"])
  /\ (returned (run ∅) = Some None
      /\ chronicle (finalHistory (run ∅))
         = ["ContainerInspect proj-cache-3c3f060a0374fc8bc39395164f415a70"]
      /\ volumesFrom (finalState (s0 ∅) (run ∅)) = ["old1"]).
Proof. vm_compute. repeat split. Qed.

(** C2 (the code against the claim).  For the project directory
    ["/project"] the parent directory is ["/"]; [createBuildVolume] returns
    no error and creates a cache container that declares the volume ["/"].
    A relative project directory is refused before any call is made. *)
Theorem createBuildVolume_accepts_root_parent :
  let run dir := createBuildVolume (env := env0) 3 (cloneExecutor dir) [] in
  GoPath.Dir "/project" = "/"
  /\ returned (run "/project") = Some None
  /\ chronicle (finalHistory (run "/project"))
     = ["ImageInspect gitlab-runner-prebuilt:x86_64-HEAD"; "ContainerCreate ";
        "ContainerStart new1"; "ContainerInspect new1"]
  /\ declaredVolumes (finalHistory (run "/project")) = [["/"]]
  /\ caches (finalState (cloneExecutor "/project") (run "/project")) = ["new1"]
  /\ run "project"
     = Done (Some (errorString "build directory needs to be absolute and non-root path"))
            (cloneExecutor "project") [].
Proof. vm_compute. repeat split. Qed.

(** C3 (the claim as written fails).  The daemon answers four inspects in a
    row with a transient error and then reports the container stopped with
    exit code 0: the fourth error is slept through like the first three and
    the wait ends in success. *)
Lemma waitForContainer_sleeps_through_fourth_error :
  map (fun i => snd (ContainerInspect (daemon "new1" flakyInspect) (polled "c1" i []) "c1"))
      [0; 1; 2; 3]%nat
  = [Some connectionReset; Some connectionReset; Some connectionReset; Some connectionReset]
  /\ IsErrNotFound connectionReset = false
  /\ waitForContainer 5 "c1" (preparedExecutor (daemon "new1" flakyInspect)) []
     = Done None (preparedExecutor (daemon "new1" flakyInspect))
            (CallContainerInspect "c1" :: polled "c1" 4 [])
  /\ chronicle (CallContainerInspect "c1" :: polled "c1" 4 [])
     = ["ContainerInspect c1"; "Sleep"; "ContainerInspect c1"; "Sleep";
        "ContainerInspect c1"; "Sleep"; "ContainerInspect c1"; "Sleep";
        "ContainerInspect c1"].
Proof. vm_compute. repeat split. Qed.

Lemma waitForContainer_tolerates_four_errors_witness :
  waitForContainer 5 "c1" (preparedExecutor (daemon "new1" flakyInspect)) []
  = Done None (preparedExecutor (daemon "new1" flakyInspect))
         (CallContainerInspect "c1" :: polled "c1" 4 []).
Proof.
  assert (Htr : forall i, (i < 4)%nat ->
            transientAt (daemon "new1" flakyInspect) "c1" (polled "c1" i [])).
  { intros i Hi. exists connectionReset.
    destruct i as [|[|[|[|i]]]]; [split; reflexivity ..|lia]. }
  destruct (waitForContainer_tolerates_four_errors
              (daemon "new1" flakyInspect)
              (preparedExecutor (daemon "new1" flakyInspect)) "c1" [] 0%nat 4%nat
              eq_refl ltac:(lia) Htr) as (_ & _ & Hstopped & _).
  exact (Hstopped eq_refl eq_refl).
Defined.

(** The policy [never] on a daemon that does not have the image: the error
    of the inspect comes back and nothing else is called. *)
Lemma getDockerImage_never_returns_inspect_witness :
  let s := newExecutor
             (abstractExecutor (Some (dockerConfigWith PullPolicyNever []))
                (Some (build "/builds/group/project" GitFetch)) (Some bash))
             (Some (daemonWith noImage ({| resp_ID := "new1" |}, None) (freshInspect "new1")))
             "" [] in
  getDockerImage (env := env0) "notthere" s []
  = Done (Some {| image_ID := "" |}, Some (clientError true "No such image: notthere"))
         s [CallImageInspectWithRaw "notthere"].
Proof.
  intros s.
  exact (proj1 (getDockerImage_never_returns_inspect (env := env0) s []
                  (dockerConfigWith PullPolicyNever []) "notthere" eq_refl eq_refl)).
Defined.

Lemma pull_appends_latest_iff_untagged_witness :
  pullReference "alpine" = "alpine:latest" /\ pullReference "ruby:2.1" = "ruby:2.1".
Proof.
  split.
  - apply (proj1 (pull_appends_latest_iff_untagged (env := env0) "alpine")).
    intros (ch & Hin & Hc). cbn in Hin.
    repeat (destruct Hin as [<- | Hin]; [destruct Hc; discriminate|]). exact Hin.
  - apply (proj1 (proj2 (pull_appends_latest_iff_untagged (env := env0) "ruby:2.1"))).
    exists ":"%char. split; [cbn; tauto | now left].
Defined.

(** C6 (the claim as written fails).  No cache container exists for
    ["/cache"]: [addCacheVolume] creates one, successfully, under the id
    [new1].  The id is in [volumesFrom] and in none of [failures],
    [services], [caches] and [builds], and the [Cleanup] that follows asks
    for no removal. *)
Lemma named_cache_container_is_not_registered :
  let c := daemon "new1" (freshInspect "new1") in
  let s := preparedExecutor c in
  let run := addCacheVolume (env := env0) 3 "/cache" s [] in
  let s' := finalState s run in
  let h' := finalHistory run in
  returned run = Some None
  /\ created c h' = [("new1", None)]
  /\ volumesFrom s' = ["new1"]
  /\ registered s' = []
  /\ chronicle (finalHistory (Cleanup (env := env0) s' h'))
     = chronicle h' ++ ["Close"]
  /\ removals (finalHistory (Cleanup (env := env0) s' h')) = [].
Proof. vm_compute. repeat split. Qed.

(** The temporary cache of the project root, created for a build with the
    clone strategy, is appended to [caches]. *)
Lemma created_ids_are_registered_or_handed_over_witness :
  let c := daemon "new1" (freshInspect "new1") in
  let s := cloneExecutor "/builds/group/project" in
  let run := createBuildVolume (env := env0) 3 s [] in
  exists cr,
    created c (finalHistory run) = cr ++ created c []
    /\ services (finalState s run) = services s
    /\ builds (finalState s run) = builds s
    /\ failures (finalState s run) = failures s
    /\ caches (finalState s run) = caches s ++ map fst cr.
Proof.
  intros c s run.
  destruct (created_ids_are_registered_or_handed_over (env := env0) c s [] eq_refl)
    as (_ & _ & _ & _ & Hephemeral & _).
  apply (Hephemeral 3%nat (build "/builds/group/project" GitClone) (dockerConfig [])
           None (finalState s run) (finalHistory run) eq_refl eq_refl).
  - left. discriminate.
  - vm_compute. reflexivity.
Defined.

(** [createService] on a daemon whose create call answers with an id and an
    error: the error is returned and the id is dropped. *)
Example createService_drops_id_returned_with_error :
  let c := daemonWith everyImage ({| resp_ID := "half1" |},
                                  Some (clientError false "context deadline exceeded"))
             (freshInspect "half1") in
  let s := preparedExecutor c in
  let run := createService (env := env0) "postgres" "9.6" "postgres:9.6" s [] in
  returned run = Some (None, Some (clientError false "context deadline exceeded"))
  /\ created c (finalHistory run)
     = [("half1", Some (clientError false "context deadline exceeded"))]
  /\ registered (finalState s run) = [].
Proof. vm_compute. repeat split. Qed.

(** C7 at the description ["Bad Service"], which does not match the
    reference grammar.  It is parsed without an error,
    [createFromServiceDescription] returns a nil error for it and
    [createServices] succeeds without creating a service, although
    [createService] refuses the empty service that the parser returned. *)
Lemma invalid_reference_is_skipped_without_error :
  let s := newExecutor
             (abstractExecutor (Some (dockerConfig []))
                (Some (build "/builds/group/project" GitFetch)) (Some bash))
             (Some (daemon "new1" (freshInspect "new1"))) "" ["Bad Service"] in
  ReferenceRegexp (Env := env0) "Bad Service" = None
  /\ splitServiceAndVersion (env := env0) "Bad Service" s []
     = Done ("", "latest", "Bad Service", []) s []
  /\ createFromServiceDescription (env := env0) "Bad Service" ∅ s [] = Done (∅, None) s []
  /\ createServices (env := env0) s [] = Done None s []
  /\ createService (env := env0) "" "latest" "Bad Service" s []
     = Done (None, Some (errorString "invalid service name")) s [].
Proof. vm_compute. repeat split. Qed.

Lemma splitServiceAndVersion_unmatched_returns_no_error_witness :
  splitServiceAndVersion (env := env0) "Bad Service"
    (preparedExecutor (daemon "new1" (freshInspect "new1"))) []
  = Done ("", "latest", "Bad Service", [])
         (preparedExecutor (daemon "new1" (freshInspect "new1"))) [].
Proof.
  exact (proj1 (proj2 (splitServiceAndVersion_unmatched_returns_no_error (env := env0)
                         "Bad Service"
                         (preparedExecutor (daemon "new1" (freshInspect "new1"))) [])
                 eq_refl)).
Defined.

(** C8 (the code against the claim).  Only images without a slash are
    allowed (the pattern ["*"]); the job declares the image ["$IMG"] and the
    service ["$IMG"], and [IMG] is ["evil/miner"].  The image is verified as
    declared and accepted, and the expanded name, which the allow-list
    refuses, is returned for use.  The service is verified after expansion
    and refused. *)
Theorem getImageName_verifies_unexpanded_image :
  let s := newExecutor
             (abstractExecutor (Some (dockerConfig ["*"]))
                (Some (build "/builds/group/project" GitFetch)) (Some bash))
             None "$IMG" ["$IMG"] in
  getImageName (env := env0) s [] = Done ("evil/miner", None) s []
  /\ verifyAllowedImage (env := env0) "evil/miner" "images" ["*"] ["ruby:2.1"]
     = Some (errorString "invalid image")
  /\ verifyAllowedImage (env := env0) "$IMG" "images" ["*"] ["ruby:2.1"] = None
  /\ getServiceNames (env := env0) s [] = Done ([], Some (errorString "invalid image")) s [].
Proof. vm_compute. repeat split. Qed.

(** C9 at a runner configuration without a Docker section, with PowerShell
    as the selected shell: [Prepare] panics, it does not return an error. *)
Lemma Prepare_with_PassFile_shell_witness :
  let powershell :=
    fst (shells.PowerShell_GetConfiguration
           {| shells.info_Shell := "powershell"; shells.info_User := "" |}) in
  Prepare (env := testEnv powershell) 3 {| BuildsDir := ""; Docker := None |}
    (build "/builds/group/project" GitFetch)
    (newExecutor (abstractExecutor None None None) None "" []) []
  = Panic [].
Proof.
  intros powershell.
  refine (proj1 (Prepare_with_PassFile_shell (env := testEnv powershell) 3
                   {| BuildsDir := ""; Docker := None |}
                   (build "/builds/group/project" GitFetch)
                   {| Environment := []; Command := "powershell";
                      Arguments := ["-noprofile"; "-noninteractive"; "-executionpolicy";
                                    "Bypass"; "-command"];
                      PassFile := true; Extension := "ps1" |}
                   (newExecutor (abstractExecutor None None None) None "" []) [] _ eq_refl)).
  intros a. eexists. split; reflexivity.
Defined.

(** ** Further properties of the executor *)

Create HintDb steady_more.

Section MoreProperties.

Context {env : Env}.

Ltac unfold_M :=
  unfold deref, get, modify, panic, outOfFuel, mbind, M_bind, mret, M_ret in *.

#[local] Hint Resolve steady_ret steady_get steady_deref steady_panic steady_outOfFuel
  steady_theDocker steady_theBuild steady_theBuildShell : steady_more.

Ltac steady_step :=
  match goal with
  | |- steady _ (_ ≫= _) => apply steady_bind; [| intros ?]
  | |- steady _ (match ?x with _ => _ end) => destruct x
  | |- steady _ (let '(_, _) := ?x in _) => destruct x
  | |- steady _ (call _ _) => apply steady_call; cbn; auto
  | |- steady _ sleepSecond => apply steady_sleep; cbn; auto
  | |- steady _ _ => solve [auto with steady_more]
  end.

Ltac steady_auto := repeat steady_step.

Tactic Notation "split_bind" hyp(H) "as" ident(a) ident(Hm) :=
  apply bind_inv in H;
  let s1 := fresh "s" in
  let h1 := fresh "h" in
  destruct H as (a & s1 & h1 & Hm & H).

(** *** The architecture and the prebuilt image *)

Ltac finish_architecture :=
  cbn; repeat split; intros; cbn in *;
  solve [congruence | intuition congruence].

(** X1.  [getArchitecture] never answers ["amd64"]: the ARM variants the
    daemon may report become ["arm"], ["amd64"] becomes ["x86_64"], any
    other architecture of the daemon is kept, and the architecture of the
    runner is used only when the daemon reports none.  The answer is empty
    exactly when both are empty. *)
Theorem getArchitecture_normalises (s : executor) :
  getArchitecture s <> "amd64"
  /\ (In (Architecture (info s)) ["armv6l"; "armv7l"; "aarch64"] -> getArchitecture s = "arm")
  /\ (Architecture (info s) = "amd64" -> getArchitecture s = "x86_64")
  /\ (~ In (Architecture (info s)) ["armv6l"; "armv7l"; "aarch64"; "amd64"; ""] ->
      getArchitecture s = Architecture (info s))
  /\ (getArchitecture s = "" <-> Architecture (info s) = "" /\ runtime_GOARCH = "").
Proof.
  unfold getArchitecture.
  set (a := Architecture (info s)). set (g := runtime_GOARCH).
  destruct (String.eqb_spec a "armv6l"); [finish_architecture|].
  destruct (String.eqb_spec a "armv7l"); [finish_architecture|].
  destruct (String.eqb_spec a "aarch64"); [finish_architecture|].
  cbn [orb].
  destruct (String.eqb_spec a "amd64"); [finish_architecture|].
  destruct (String.eqb_spec a ""); [|finish_architecture].
  cbn [negb]. destruct (String.eqb_spec g "amd64"); finish_architecture.
Qed.

(** X2.  [getPrebuiltImage] looks for the image
    [prebuiltImageName:<architecture>-<revision>].  When the daemon has it,
    the image is returned after this single call.  When it has not and the
    asset of the architecture is missing, an error is returned and nothing is
    imported.  In every case the executor is left as it is and the only calls
    are inspects of that image and an import under the tag
    [<architecture>-<revision>]; nothing is ever pulled.  An empty
    architecture is refused before any call. *)
Theorem getPrebuiltImage_inspects_then_imports (s : executor) (h : history) (c : Client) :
  client s = Some c ->
  let architecture := getArchitecture s in
  let tag := architecture +:+ "-" +:+ REVISION in
  let name := prebuiltImageName +:+ ":" +:+ tag in
  (architecture = "" ->
     getPrebuiltImage s h
     = Done (None, Some (errorString "unsupported docker architecture")) s h)
  /\ (architecture <> "" -> snd (ImageInspectWithRaw c h name) = None ->
      getPrebuiltImage s h
      = Done (Some (fst (ImageInspectWithRaw c h name)), None) s
             (CallImageInspectWithRaw name :: h))
  /\ (architecture <> "" -> snd (ImageInspectWithRaw c h name) <> None ->
      snd (Asset ("prebuilt-" +:+ architecture +:+ prebuiltImageExtension)) <> None ->
      exists msg,
        getPrebuiltImage s h
        = Done (None, Some (errorString msg)) s (CallImageInspectWithRaw name :: h))
  /\ (forall a s' h', getPrebuiltImage s h = Done a s' h' ->
        s' = s /\ exists evs, h' = evs ++ h /\ Forall (prebuiltCall name tag) evs).
Proof.
  intros Hc architecture tag name. repeat apply conj.
  - intros Hempty. unfold getPrebuiltImage.
    erewrite bind_Done by reflexivity. fold architecture. now rewrite Hempty.
  - intros Hne Hfound. unfold getPrebuiltImage.
    erewrite bind_Done by reflexivity. fold architecture.
    destruct (String.eqb_spec architecture ""); [contradiction|].
    fold tag. fold name. unfold callImageInspectWithRaw.
    erewrite bind_Done by (apply call_Some; exact Hc).
    destruct (ImageInspectWithRaw c h name) as [image err]. cbn in *. now subst err.
  - intros Hne Hmissing Hasset. unfold getPrebuiltImage.
    erewrite bind_Done by reflexivity. fold architecture.
    destruct (String.eqb_spec architecture ""); [contradiction|].
    fold tag. fold name. unfold callImageInspectWithRaw.
    erewrite bind_Done by (apply call_Some; exact Hc).
    destruct (ImageInspectWithRaw c h name) as [image [err|]]; [|now cbn in Hmissing].
    destruct (Asset _) as [data [err'|]]; [|now cbn in Hasset].
    eexists. reflexivity.
  - intros a s' h' Hrun. unfold getPrebuiltImage in Hrun.
    erewrite bind_Done in Hrun by reflexivity. fold architecture in Hrun.
    destruct (String.eqb architecture "").
    { injection Hrun as <- <- <-. split; [reflexivity|]. exists []. split; [reflexivity|constructor]. }
    fold tag in Hrun. fold name in Hrun.
    apply (steady_Done (prebuiltCall name tag)) in Hrun; [exact Hrun|].
    unfold callImageInspectWithRaw, callImageImportBlocking.
    steady_auto; unfold prebuiltCall; eauto.
Qed.

(** *** Registry credentials *)

Lemma buildAuthConfigs_lookup (credentials : list Credentials) (url : string) :
  forall acc : gmap string AuthConfig,
  fold_left
    (fun (acc : gmap string AuthConfig) credentials =>
       if String.eqb (cred_Type credentials) "registry" then
         <[cred_URL credentials :=
             {| Username := cred_Username credentials;
                Password := cred_Password credentials;
                ServerAddress := cred_URL credentials |}]> acc
       else acc)
    credentials acc !! url
  = match last (List.filter (registryCredentialsFor url) credentials) with
    | Some found => Some (authOfCredentials found)
    | None => acc !! url
    end.
Proof.
  induction credentials as [|cr rest IH]; intros acc; [reflexivity|].
  cbn [fold_left List.filter]. rewrite IH. unfold registryCredentialsFor at 2.
  destruct (String.eqb_spec (cred_Type cr) "registry") as [Ht|Ht]; cbn [andb].
  - destruct (String.eqb_spec (cred_URL cr) url) as [Hu|Hu].
    + destruct (List.filter (registryCredentialsFor url) rest) as [|x xs] eqn:Hf.
      * cbn. subst url. now rewrite lookup_insert_eq.
      * change (last (cr :: x :: xs)) with (last (x :: xs)).
        destruct (last (x :: xs)) eqn:Hl; [reflexivity|].
        apply last_None in Hl. discriminate.
    + destruct (last (List.filter (registryCredentialsFor url) rest)); [reflexivity|].
      now rewrite lookup_insert_ne.
  - reflexivity.
Qed.

(** X3.  [getBuildAuthConfiguration] resolves the index name in a map built
    from the credentials of the build: for every URL the map holds the user
    name and password of the last credential of type ["registry"] with that
    URL, and nothing when there is none; credentials of any other type are
    ignored.  Without a build there are no credentials. *)
Theorem getBuildAuthConfiguration_uses_registry_credentials
    (s : executor) (indexName : string) :
  match TheBuild (abstract s) with
  | None => getBuildAuthConfiguration s indexName = None
  | Some build =>
      exists authConfigs : gmap string AuthConfig,
        getBuildAuthConfiguration s indexName
        = ResolveDockerAuthConfig indexName authConfigs
        /\ forall url,
             authConfigs !! url
             = authOfCredentials
                 <$> last (List.filter (registryCredentialsFor url) (build_Credentials build))
  end.
Proof.
  unfold getBuildAuthConfiguration. destruct (TheBuild (abstract s)) as [build|]; [|reflexivity].
  eexists. split; [reflexivity|].
  intros url. rewrite buildAuthConfigs_lookup.
  destruct (last _); [reflexivity|]. apply lookup_empty.
Qed.

(** *** Paths of volumes *)

Lemma Clean_rooted (p : string) :
  GoPath.IsAbs p = true -> GoPath.IsAbs (GoPath.Clean p) = true.
Proof.
  intros Habs. unfold GoPath.Clean. destruct p as [|a p]; [discriminate|].
  cbn [String.eqb]. now rewrite Habs.
Qed.

Lemma IsAbs_append (a b : string) :
  GoPath.IsAbs a = true -> GoPath.IsAbs (a +:+ b) = true.
Proof. destruct a; [discriminate|]. cbn. auto. Qed.

(** X4.  [getAbsoluteContainerPath] returns an absolute path as it is.  A
    relative path is joined to the project directory of the build and
    cleaned; the result is absolute whenever the project directory is.
    Without a build a relative path cannot be resolved (nil dereference).
    Nothing is called and the executor is left as it is. *)
Theorem getAbsoluteContainerPath_is_absolute (dir : string) (s : executor) (h : history) :
  (GoPath.IsAbs dir = true -> getAbsoluteContainerPath dir s h = Done dir s h)
  /\ (GoPath.IsAbs dir = false ->
      match TheBuild (abstract s) with
      | Some build =>
          getAbsoluteContainerPath dir s h
          = Done (GoPath.Join2 (FullProjectDir build) dir) s h
          /\ (GoPath.IsAbs (FullProjectDir build) = true ->
              GoPath.IsAbs (GoPath.Join2 (FullProjectDir build) dir) = true)
      | None => getAbsoluteContainerPath dir s h = Panic h
      end).
Proof.
  unfold getAbsoluteContainerPath. split; intros Habs; rewrite Habs; [reflexivity|].
  destruct (TheBuild (abstract s)) as [build|] eqn:Hb.
  - split.
    + erewrite bind_Done by (rewrite theBuild_run, Hb; reflexivity). reflexivity.
    + intros Hproject. unfold GoPath.Join2.
      destruct (FullProjectDir build) as [|a p] eqn:Hp; [discriminate|].
      cbn [String.eqb andb]. apply Clean_rooted. exact Hproject.
  - erewrite bind_Panic; [reflexivity|]. now rewrite theBuild_run, Hb.
Qed.

(** *** Declared volumes *)

Lemma ContainsAny_colon_cons (c : ascii) (s : string) :
  GoStrings.ContainsAny (String c s) ":" = Ascii.eqb c ":" || GoStrings.ContainsAny s ":".
Proof. cbn. now rewrite orb_false_r. Qed.

Lemma SplitN2_two_parts (host rest : string) :
  GoStrings.ContainsAny host ":" = false ->
  GoStrings.SplitN2 (host +:+ ":" +:+ rest) ":" = [host; rest].
Proof.
  unfold GoStrings.SplitN2. induction host as [|c host IH]; intros Hno; [reflexivity|].
  rewrite ContainsAny_colon_cons in Hno. apply orb_false_iff in Hno as [Hc Hhost].
  change (String c host +:+ ":" +:+ rest) with (String c (host +:+ ":" +:+ rest)).
  cbn [GoStrings.cut]. rewrite Hc. specialize (IH Hhost).
  destruct (GoStrings.cut ":" (host +:+ ":" +:+ rest)) as [a [b|]]; congruence.
Qed.

Lemma SplitN2_one_part (volume : string) :
  GoStrings.ContainsAny volume ":" = false ->
  GoStrings.SplitN2 volume ":" = [volume].
Proof.
  unfold GoStrings.SplitN2. induction volume as [|c volume IH]; intros Hno; [reflexivity|].
  rewrite ContainsAny_colon_cons in Hno. apply orb_false_iff in Hno as [Hc Hvolume].
  cbn [GoStrings.cut]. rewrite Hc. specialize (IH Hvolume).
  destruct (GoStrings.cut ":" volume) as [a [b|]]; congruence.
Qed.

(** X5.  A declared volume [host:container] only adds the bind
    [host:container] (the container side is everything after the first
    colon; a relative one is first resolved against the project directory):
    nothing is asked of the daemon and no cache container is involved,
    whether or not the cache is disabled. *)
Theorem addVolume_host_volume_binds (fuel : nat) (host container : string)
    (s : executor) (h : history) :
  GoStrings.ContainsAny host ":" = false ->
  (GoPath.IsAbs container = true ->
     addVolume fuel (host +:+ ":" +:+ container) s h
     = Done None (set_binds (append (host +:+ ":" +:+ container)) s) h)
  /\ (GoPath.IsAbs container = false ->
      forall build, TheBuild (abstract s) = Some build ->
      addVolume fuel (host +:+ ":" +:+ container) s h
      = Done None
          (set_binds (append (host +:+ ":" +:+ GoPath.Join2 (FullProjectDir build) container)) s)
          h).
Proof.
  intros Hhost. unfold addVolume. rewrite (SplitN2_two_parts _ _ Hhost).
  unfold addHostVolume, getAbsoluteContainerPath. split.
  - intros Habs. rewrite Habs. reflexivity.
  - intros Hrel build Hb. rewrite Hrel.
    erewrite bind_Done.
    2:{ erewrite bind_Done by (rewrite theBuild_run, Hb; reflexivity). reflexivity. }
    reflexivity.
Qed.

(** X6.  A declared volume that is a lone absolute container path is a cache
    request.  With the cache disabled it does nothing at all.  With a cache
    directory configured it adds the bind
    [<cacheDir>/<projectUniqueName>/<md5 of the path>:<path>], made absolute
    and slash-separated on the host side, without asking anything of the
    daemon; a failure to make the host path absolute is returned and nothing
    is bound. *)
Theorem addVolume_cache_without_container (fuel : nat) (containerPath : string)
    (s : executor) (h : history) (docker : DockerConfig) (build : Build) :
  GoStrings.ContainsAny containerPath ":" = false ->
  GoPath.IsAbs containerPath = true ->
  Docker (Config (abstract s)) = Some docker ->
  TheBuild (abstract s) = Some build ->
  (DisableCache docker = true -> addVolume fuel containerPath s h = Done None s h)
  /\ (DisableCache docker = false -> CacheDir docker <> "" ->
      let hostPath := filepath_Abs (CacheDir docker +:+ "/" +:+ ProjectUniqueName build
                                    +:+ "/" +:+ md5hex containerPath) in
      addVolume fuel containerPath s h
      = match snd hostPath with
        | Some err => Done (Some err) s h
        | None =>
            Done None
              (set_binds (append (filepath_ToSlash (fst hostPath) +:+ ":" +:+ containerPath)) s)
              h
        end).
Proof.
  intros Hlone Habs Hd Hb. unfold addVolume. rewrite (SplitN2_one_part _ Hlone).
  unfold addCacheVolume, getAbsoluteContainerPath. rewrite Habs.
  erewrite bind_Done by reflexivity.
  erewrite bind_Done by (rewrite theDocker_run, Hd; reflexivity).
  split.
  - intros ->. reflexivity.
  - intros -> Hdir. cbv zeta.
    erewrite bind_Done by (rewrite theBuild_run, Hb; reflexivity). cbv zeta.
    destruct (String.eqb_spec (CacheDir docker) ""); [contradiction|]. cbn [negb].
    destruct (filepath_Abs _) as [p [err|]]; reflexivity.
Qed.

(** *** Actions that only append to the registries *)

Lemma extends_refl s : extends s s.
Proof. unfold extends. repeat split; reflexivity. Qed.

Lemma extends_trans s1 s2 s3 : extends s1 s2 -> extends s2 s3 -> extends s1 s3.
Proof.
  unfold extends.
  intros (A1 & A2 & A3 & A4 & P1 & P2 & P3 & P4 & P5 & P6 & P7)
         (B1 & B2 & B3 & B4 & Q1 & Q2 & Q3 & Q4 & Q5 & Q6 & Q7).
  repeat split; try congruence; etrans; eassumption.
Qed.

Lemma grows_ret {A} (a : A) : grows (mret a).
Proof. intros s h a' s' h' [= _ <- _]. apply extends_refl. Qed.

Lemma grows_bind {A B} (m : M A) (k : A -> M B) :
  grows m -> (forall a, grows (k a)) -> grows (m ≫= k).
Proof.
  intros Hm Hk s h b s2 h2 Hrun.
  apply bind_inv in Hrun as (a & s1 & h1 & Hrun1 & Hrun2).
  eapply extends_trans; [eapply Hm | eapply Hk]; eassumption.
Qed.

Lemma grows_steady {A} P (m : M A) : steady P m -> grows m.
Proof.
  intros Hm s h a s' h' Hrun.
  apply (steady_Done P) in Hrun as (-> & _); [apply extends_refl | exact Hm].
Qed.

Lemma grows_outcome {A} (m : M A) :
  (forall s h, match m s h with Done _ s' _ => extends s s' | _ => True end) -> grows m.
Proof. intros Hm s h a s' h' Hrun. specialize (Hm s h). now rewrite Hrun in Hm. Qed.

Lemma prefix_append {A} (l : list A) (x : A) : l `prefix_of` append x l.
Proof. exists [x]. reflexivity. Qed.

Lemma grows_append_failures x : grows (modify (set_failures (append x))).
Proof.
  apply grows_outcome. intros s h. cbn. unfold extends. cbn.
  repeat split; try reflexivity. apply prefix_append.
Qed.

Lemma grows_append_services x : grows (modify (set_services (append x))).
Proof.
  apply grows_outcome. intros s h. cbn. unfold extends. cbn.
  repeat split; try reflexivity. apply prefix_append.
Qed.

Lemma grows_append_caches x : grows (modify (set_caches (append x))).
Proof.
  apply grows_outcome. intros s h. cbn. unfold extends. cbn.
  repeat split; try reflexivity. apply prefix_append.
Qed.

Lemma grows_append_binds x : grows (modify (set_binds (append x))).
Proof.
  apply grows_outcome. intros s h. cbn. unfold extends. cbn.
  repeat split; try reflexivity. apply prefix_append.
Qed.

Lemma grows_append_volumesFrom x : grows (modify (set_volumesFrom (append x))).
Proof.
  apply grows_outcome. intros s h. cbn. unfold extends. cbn.
  repeat split; try reflexivity. apply prefix_append.
Qed.

Lemma grows_append_devices x : grows (modify (set_devices (append x))).
Proof.
  apply grows_outcome. intros s h. cbn. unfold extends. cbn.
  repeat split; try reflexivity. apply prefix_append.
Qed.

Lemma grows_set_links l : grows (modify (set_links l)).
Proof.
  apply grows_outcome. intros s h. cbn. unfold extends. cbn.
  repeat split; reflexivity.
Qed.

Lemma grows_call {A} ev (answer : Client -> history -> A) : grows (call ev answer).
Proof. apply (grows_steady (fun _ => True)). now apply steady_call. Qed.

Lemma grows_get : grows get.
Proof. apply (grows_steady (fun _ => True)), steady_get. Qed.

Lemma grows_deref {A} (p : option A) : grows (deref p).
Proof. apply (grows_steady (fun _ => True)), steady_deref. Qed.

Lemma grows_theDocker : grows theDocker.
Proof. apply (grows_steady (fun _ => True)), steady_theDocker. Qed.

Lemma grows_theBuild : grows theBuild.
Proof. apply (grows_steady (fun _ => True)), steady_theBuild. Qed.

Lemma grows_theBuildShell : grows theBuildShell.
Proof. apply (grows_steady (fun _ => True)), steady_theBuildShell. Qed.

Lemma grows_getPrebuiltImage : grows getPrebuiltImage.
Proof. apply (grows_steady (fun _ => True)), steady_getPrebuiltImage; auto. Qed.

Lemma grows_getDockerImage imageName : grows (getDockerImage imageName).
Proof. apply (grows_steady (fun _ => True)), steady_getDockerImage; auto. Qed.

Lemma grows_getLabels containerType otherLabels : grows (getLabels containerType otherLabels).
Proof. apply (grows_steady (fun _ => True)), steady_getLabels. Qed.

Lemma grows_getAbsoluteContainerPath dir : grows (getAbsoluteContainerPath dir).
Proof. apply (grows_steady (fun _ => True)), steady_getAbsoluteContainerPath. Qed.

Lemma grows_removeContainer id : grows (removeContainer id).
Proof. apply (grows_steady (fun _ => True)), steady_removeContainer; auto. Qed.

Lemma grows_waitForContainer fuel id : grows (waitForContainer fuel id).
Proof. apply (grows_steady (fun _ => True)), steady_waitForContainer_loop; auto. Qed.

Lemma grows_getServiceVariables : grows getServiceVariables.
Proof. apply (grows_steady (fun _ => True)), steady_getServiceVariables. Qed.

#[local] Hint Resolve grows_ret grows_append_failures grows_append_services
  grows_append_caches grows_append_binds grows_append_volumesFrom grows_append_devices
  grows_set_links grows_call grows_get grows_deref grows_theDocker grows_theBuild
  grows_theBuildShell grows_getPrebuiltImage grows_getDockerImage grows_getLabels
  grows_getAbsoluteContainerPath grows_removeContainer grows_waitForContainer
  grows_getServiceVariables : steady_more.

Ltac grows_step :=
  match goal with
  | |- grows (_ ≫= _) => apply grows_bind; [| intros ?]
  | |- grows (match ?x with _ => _ end) => destruct x
  | |- grows (let '(_, _) := ?x in _) => destruct x
  | |- grows _ => solve [auto with steady_more]
  end.

Ltac grows_auto := repeat grows_step.

Lemma grows_createCacheVolume fuel containerName containerPath :
  grows (createCacheVolume fuel containerName containerPath).
Proof.
  unfold createCacheVolume, callContainerCreate, callContainerStart. grows_auto.
Qed.

Lemma grows_addHostVolume hostPath containerPath : grows (addHostVolume hostPath containerPath).
Proof. unfold addHostVolume. grows_auto. Qed.

Lemma grows_addCacheVolume fuel containerPath : grows (addCacheVolume fuel containerPath).
Proof.
  unfold addCacheVolume, callContainerInspect.
  grows_auto; try apply grows_createCacheVolume.
Qed.

Lemma grows_addVolume fuel volume : grows (addVolume fuel volume).
Proof.
  unfold addVolume. grows_auto;
    try first [apply grows_addHostVolume | apply grows_addCacheVolume].
Qed.

Lemma grows_createBuildVolume fuel : grows (createBuildVolume fuel).
Proof.
  unfold createBuildVolume, createBuildVolume_guarded.
  grows_auto;
    try first [apply grows_addVolume | apply grows_createCacheVolume].
Qed.

Lemma grows_createUserVolumes_loop fuel volumes : grows (createUserVolumes_loop fuel volumes).
Proof.
  induction volumes as [|volume rest IH]; cbn [createUserVolumes_loop].
  - apply grows_ret.
  - grows_auto;
    try first [apply grows_addVolume | exact IH].
Qed.

Lemma grows_createUserVolumes fuel : grows (createUserVolumes fuel).
Proof. unfold createUserVolumes. grows_auto; try apply grows_createUserVolumes_loop. Qed.

Lemma grows_bindDevices_loop deviceStrings : grows (bindDevices_loop deviceStrings).
Proof.
  induction deviceStrings as [|deviceString rest IH]; cbn [bindDevices_loop].
  - apply grows_ret.
  - grows_auto.
Qed.

Lemma grows_bindDevices : grows bindDevices.
Proof. unfold bindDevices. grows_auto; try apply grows_bindDevices_loop. Qed.

Lemma grows_createService service version image : grows (createService service version image).
Proof.
  unfold createService, callContainerCreate, callContainerStart. grows_auto.
Qed.

Lemma grows_splitServiceAndVersion description : grows (splitServiceAndVersion description).
Proof.
  intros s h a s' h' Hrun. pose proof (splitServiceAndVersion_pure description s h) as Hpure.
  rewrite Hrun in Hpure. destruct Hpure as [-> _]. apply extends_refl.
Qed.

Lemma grows_createFromServiceDescription_loop service version imageName linkNames :
  forall container linksMap,
  grows (createFromServiceDescription_loop service version imageName linkNames
           container linksMap).
Proof.
  induction linkNames as [|linkName rest IH]; intros container linksMap;
    cbn [createFromServiceDescription_loop].
  - apply grows_ret.
  - grows_auto;
    try first [apply IH | apply grows_createService].
Qed.

Lemma grows_createFromServiceDescription description linksMap :
  grows (createFromServiceDescription description linksMap).
Proof.
  unfold createFromServiceDescription. apply grows_bind.
  - apply grows_splitServiceAndVersion.
  - intros [[[service version] imageName] linkNames].
    apply grows_createFromServiceDescription_loop.
Qed.

Lemma grows_createServices_loop serviceNames :
  forall linksMap, grows (createServices_loop serviceNames linksMap).
Proof.
  induction serviceNames as [|description rest IH]; intros linksMap;
    cbn [createServices_loop].
  - apply grows_ret.
  - grows_auto;
    try first [apply IH | apply grows_createFromServiceDescription].
Qed.

Lemma grows_getServiceNames_loop declared :
  forall services, grows (getServiceNames_loop declared services).
Proof.
  induction declared as [|service rest IH]; intros services; cbn [getServiceNames_loop].
  - apply grows_ret.
  - grows_auto; try apply IH.
Qed.

Lemma grows_buildServiceLinks_loop entries :
  forall links, grows (buildServiceLinks_loop entries links).
Proof.
  induction entries as [|[linkName linkee] rest IH]; intros links;
    cbn [buildServiceLinks_loop].
  - apply grows_ret.
  - unfold callContainerInspect. grows_auto; try apply IH.
Qed.

Lemma grows_createServices : grows waitForServices -> grows createServices.
Proof.
  intros Hwait. unfold createServices, getServiceNames, buildServiceLinks.
  grows_auto;
    try first [apply grows_getServiceNames_loop | apply grows_createServices_loop
          | apply grows_buildServiceLinks_loop | exact Hwait].
Qed.

(** X7.  Creating the dependencies of a build only appends: provided the
    wait for the services does, [createDependencies] leaves every entry of
    [failures], [builds], [services], [caches], [binds], [volumesFrom] and
    [devices] in place and in order (including when it returns an error),
    and does not touch the configuration, the client, the options or the
    daemon info. *)
Theorem createDependencies_only_appends (fuel : nat) (s : executor) (h : history)
    (err : option error) (s' : executor) (h' : history) :
  grows waitForServices ->
  createDependencies fuel s h = Done err s' h' ->
  extends s s'.
Proof.
  intros Hwait. revert s h err s' h'.
  change (grows (createDependencies fuel)). unfold createDependencies.
  grows_auto;
    try first [apply grows_bindDevices | apply grows_createBuildVolume
          | apply grows_createServices; exact Hwait | apply grows_createUserVolumes].
Qed.

Lemma addVolume_host_absolute_run fuel host container s h :
  GoStrings.ContainsAny host ":" = false ->
  GoPath.IsAbs container = true ->
  addVolume fuel (host +:+ ":" +:+ container) s h
  = Done None (set_binds (append (host +:+ ":" +:+ container)) s) h.
Proof.
  intros Hhost Habs. unfold addVolume. rewrite (SplitN2_two_parts _ _ Hhost).
  unfold addHostVolume, getAbsoluteContainerPath. rewrite Habs. reflexivity.
Qed.

Lemma createUserVolumes_loop_binds fuel volumes : forall s h s' h',
  createUserVolumes_loop fuel volumes s h = Done None s' h' ->
  forall host container,
    GoStrings.ContainsAny host ":" = false ->
    GoPath.IsAbs container = true ->
    In (host +:+ ":" +:+ container) volumes ->
    In (host +:+ ":" +:+ container) (binds s').
Proof.
  induction volumes as [|volume rest IH]; intros s h s' h' Hrun host container Hhost Habs Hin;
    [destruct Hin|].
  cbn [createUserVolumes_loop] in Hrun.
  split_bind Hrun as err Hfirst. destruct err as [err|]; [discriminate|].
  destruct Hin as [-> | Hin].
  - rewrite (addVolume_host_absolute_run _ _ _ _ _ Hhost Habs) in Hfirst.
    injection Hfirst as <- <-.
    apply grows_createUserVolumes_loop in Hrun.
    destruct Hrun as (_ & _ & _ & _ & _ & _ & _ & _ & (k & Hk) & _).
    rewrite Hk. cbn. unfold append. rewrite <- app_assoc.
    apply in_or_app. right. now left.
  - eapply IH; eassumption.
Qed.

(** X8.  When [createUserVolumes] succeeds, every declared volume
    [host:container] with an absolute container side is among the binds of
    the executor, as the very pair that was declared. *)
Theorem createUserVolumes_binds_declared_host_volumes
    (fuel : nat) (s : executor) (h : history) (docker : DockerConfig)
    (s' : executor) (h' : history) (host container : string) :
  Docker (Config (abstract s)) = Some docker ->
  createUserVolumes fuel s h = Done None s' h' ->
  GoStrings.ContainsAny host ":" = false ->
  GoPath.IsAbs container = true ->
  In (host +:+ ":" +:+ container) (Volumes docker) ->
  In (host +:+ ":" +:+ container) (binds s').
Proof.
  intros Hd Hrun. unfold createUserVolumes in Hrun.
  erewrite bind_Done in Hrun by (rewrite theDocker_run, Hd; reflexivity).
  eapply createUserVolumes_loop_binds; eassumption.
Qed.

(** *** Devices *)

Lemma Split_one_part (s : string) :
  GoStrings.ContainsAny s ":" = false -> GoStrings.Split s ":" = [s].
Proof.
  induction s as [|c s IH]; intros Hno; [reflexivity|].
  rewrite ContainsAny_colon_cons in Hno. apply orb_false_iff in Hno as [Hc Hs].
  cbn [GoStrings.Split]. rewrite (IH Hs), Hc. reflexivity.
Qed.

Lemma Split_nonempty (s : string) : GoStrings.Split s ":" <> [].
Proof.
  destruct s as [|c s]; [discriminate|]. cbn [GoStrings.Split].
  destruct (GoStrings.Split s ":"); [discriminate|].
  destruct (Ascii.eqb c ":"); discriminate.
Qed.

Lemma Split_first_part (a rest : string) :
  GoStrings.ContainsAny a ":" = false ->
  GoStrings.Split (a +:+ ":" +:+ rest) ":" = a :: GoStrings.Split rest ":".
Proof.
  induction a as [|c a IH]; intros Hno.
  - change ("" +:+ ":" +:+ rest) with (String ":" rest). cbn [GoStrings.Split].
    destruct (GoStrings.Split rest ":") eqn:E; [now apply Split_nonempty in E|].
    reflexivity.
  - rewrite ContainsAny_colon_cons in Hno. apply orb_false_iff in Hno as [Hc Ha].
    change (String c a +:+ ":" +:+ rest) with (String c (a +:+ ":" +:+ rest)).
    cbn [GoStrings.Split]. rewrite (IH Ha), Hc. reflexivity.
Qed.

(** X9.  [parseDeviceString] splits a device string at its colons.  A path
    alone is mapped to the same path in the container with the permissions
    ["rwm"]; [host:container] gets the permissions ["rwm"];
    [host:container:permissions] is taken as it is; a string with three or
    more colons is refused with "Too many colons". *)
Theorem parseDeviceString_parts (a b c rest : string) :
  GoStrings.ContainsAny a ":" = false ->
  GoStrings.ContainsAny b ":" = false ->
  GoStrings.ContainsAny c ":" = false ->
  parseDeviceString a
  = ({| PathOnHost := a; PathInContainer := a; CgroupPermissions := "rwm" |}, None)
  /\ parseDeviceString (a +:+ ":" +:+ b)
     = ({| PathOnHost := a; PathInContainer := b; CgroupPermissions := "rwm" |}, None)
  /\ parseDeviceString (a +:+ ":" +:+ b +:+ ":" +:+ c)
     = ({| PathOnHost := a; PathInContainer := b; CgroupPermissions := c |}, None)
  /\ snd (parseDeviceString (a +:+ ":" +:+ b +:+ ":" +:+ c +:+ ":" +:+ rest))
     = Some (errorString "Too many colons").
Proof.
  intros Ha Hb Hc. unfold parseDeviceString. repeat split.
  - now rewrite (Split_one_part _ Ha).
  - now rewrite (Split_first_part _ _ Ha), (Split_one_part _ Hb).
  - now rewrite (Split_first_part _ _ Ha), (Split_first_part _ _ Hb), (Split_one_part _ Hc).
  - rewrite (Split_first_part _ _ Ha), (Split_first_part _ _ Hb), (Split_first_part _ _ Hc).
    destruct (GoStrings.Split rest ":") eqn:E; [now apply Split_nonempty in E|].
    reflexivity.
Qed.

(** The loop of [bindDevices]: the strings in front of the first one that
    does not parse are appended, parsed, to [devices]; nothing else
    changes. *)
Lemma bindDevices_loop_run deviceStrings : forall s h,
  exists good,
    Forall (fun d => snd (parseDeviceString d) = None) good
    /\ ((good = deviceStrings
         /\ bindDevices_loop deviceStrings s h
            = Done None
                (set_devices (fun ds => ds ++ map (fun d => fst (parseDeviceString d)) good) s)
                h)
        \/ exists bad err rest,
             deviceStrings = good ++ bad :: rest
             /\ snd (parseDeviceString bad) = Some err
             /\ bindDevices_loop deviceStrings s h
                = Done (Some (errorString
                          ("Failed to parse device string " +:+ strconv_Quote bad +:+ ": "
                           +:+ Error err)))
                    (set_devices
                       (fun ds => ds ++ map (fun d => fst (parseDeviceString d)) good) s)
                    h).
Proof.
  assert (Hnil : forall s, set_devices (fun ds => ds ++ []) s = s).
  { intros [] . unfold set_devices. cbn. now rewrite app_nil_r. }
  induction deviceStrings as [|d rest IH]; intros s h; cbn [bindDevices_loop].
  - exists []. split; [constructor|]. left. cbn [map]. now rewrite Hnil.
  - destruct (parseDeviceString d) as [device [err|]] eqn:Hp.
    + exists []. split; [constructor|]. right. exists d, err, rest.
      cbn [map app]. rewrite Hnil, Hp. repeat split.
    + erewrite bind_Done by reflexivity.
      destruct (IH (set_devices (append device) s) h) as (good & Hgood & Hrun).
      assert (Hset : set_devices
                       (fun ds => ds ++ map (fun d => fst (parseDeviceString d)) good)
                       (set_devices (append device) s)
                     = set_devices
                         (fun ds => ds ++ map (fun d => fst (parseDeviceString d)) (d :: good))
                         s).
      { unfold set_devices, append. cbn. rewrite Hp. cbn. now rewrite <- app_assoc. }
      rewrite Hset in Hrun.
      exists (d :: good). split; [constructor; [now rewrite Hp|exact Hgood]|].
      destruct Hrun as [[-> Hrun] | (bad & err & rest' & -> & Hbad & Hrun)].
      * left. split; [reflexivity|exact Hrun].
      * right. exists bad, err, rest'. repeat split; assumption.
Qed.

(** X10.  [bindDevices] parses the configured device strings in order and
    never talks to the daemon.  When all of them parse, the parsed devices
    are appended to [devices] in the order of the configuration and nothing
    else changes.  Otherwise the error names the first string that does not
    parse, and exactly the devices parsed from the strings in front of it
    have been appended. *)
Theorem bindDevices_appends_parsed_devices (s : executor) (h : history)
    (docker : DockerConfig) :
  Docker (Config (abstract s)) = Some docker ->
  exists good,
    Forall (fun d => snd (parseDeviceString d) = None) good
    /\ let s' := set_devices
                   (fun ds => ds ++ map (fun d => fst (parseDeviceString d)) good) s in
       (good = Devices docker /\ bindDevices s h = Done None s' h)
       \/ exists bad err rest,
            Devices docker = good ++ bad :: rest
            /\ snd (parseDeviceString bad) = Some err
            /\ bindDevices s h
               = Done (Some (errorString
                         ("Failed to parse device string " +:+ strconv_Quote bad +:+ ": "
                          +:+ Error err))) s' h.
Proof.
  intros Hd.
  assert (Hbind : bindDevices s h = bindDevices_loop (Devices docker) s h).
  { unfold bindDevices.
    erewrite bind_Done by (rewrite theDocker_run, Hd; reflexivity). reflexivity. }
  rewrite Hbind. apply bindDevices_loop_run.
Qed.

(** *** Host-mounted directories *)

Lemma isHostMountedVolume_true dir volumes volume containerSide front back :
  In volume volumes ->
  GoStrings.Split volume ":" = front :: containerSide :: back ->
  GoPath.Clean containerSide = GoPath.Clean dir ->
  GoPath.Clean dir <> "/" -> GoPath.Clean dir <> "." ->
  isHostMountedVolume dir volumes = true.
Proof.
  intros Hin Hsplit Hclean Hroot Hdot. unfold isHostMountedVolume.
  apply List.existsb_exists. exists volume. split; [exact Hin|].
  rewrite Hsplit, Hclean. cbn [isParentOf].
  destruct (String.eqb_spec (GoPath.Clean dir) "/"); [contradiction|].
  destruct (String.eqb_spec (GoPath.Clean dir) "."); [contradiction|].
  cbn [negb andb]. now rewrite String.eqb_refl.
Qed.

(** X11.  [isHostMountedVolume] only looks at declared volumes that have a
    colon: lone container paths never make a directory host-mounted.  A
    directory whose clean form is ["/"] or ["."] is never host-mounted,
    whatever is declared.  A directory is host-mounted as soon as the
    container side of a declared [host:container] volume has the same clean
    form, provided that form is neither ["/"] nor ["."]. *)
Theorem isHostMountedVolume_edges (dir : string) (volumes : list string) :
  (Forall (fun volume => GoStrings.ContainsAny volume ":" = false) volumes ->
     isHostMountedVolume dir volumes = false)
  /\ (GoPath.Clean dir = "/" \/ GoPath.Clean dir = "." ->
      isHostMountedVolume dir volumes = false)
  /\ (forall host container,
        GoStrings.ContainsAny host ":" = false ->
        GoStrings.ContainsAny container ":" = false ->
        In (host +:+ ":" +:+ container) volumes ->
        GoPath.Clean container = GoPath.Clean dir ->
        GoPath.Clean dir <> "/" -> GoPath.Clean dir <> "." ->
        isHostMountedVolume dir volumes = true).
Proof.
  repeat split.
  - intros Hlone. unfold isHostMountedVolume.
    induction Hlone as [|volume rest Hno _ IH]; [reflexivity|].
    cbn [existsb]. rewrite IH, (Split_one_part _ Hno). reflexivity.
  - intros Hedge. unfold isHostMountedVolume.
    induction volumes as [|volume rest IH]; [reflexivity|].
    cbn [existsb]. rewrite IH, orb_false_r.
    destruct (GoStrings.Split volume ":") as [|front [|containerSide back]]; try reflexivity.
    cbn [isParentOf]. destruct Hedge as [-> | ->]; reflexivity.
  - intros host container Hhost Hcontainer Hin Hclean Hroot Hdot.
    eapply isHostMountedVolume_true; try eassumption.
    rewrite (Split_first_part _ _ Hhost), (Split_one_part _ Hcontainer). reflexivity.
Qed.

(** *** The reference of a service *)

Lemma takeDigits_spec (s : string) :
  forall digits rest, takeDigits s = (digits, rest) ->
  digits +:+ rest = s
  /\ forallb isDigit (list_ascii_of_string digits) = true.
Proof.
  induction s as [|c s IH]; intros digits rest H; cbn [takeDigits] in H.
  - injection H as <- <-. split; reflexivity.
  - destruct (isDigit c) eqn:Hc.
    + destruct (takeDigits s) as [d r]. injection H as <- <-.
      destruct (IH d r eq_refl) as [Happ Hall]. split.
      * change (String c d +:+ r) with (String c (d +:+ r)). now rewrite Happ.
      * cbn. now rewrite Hc, Hall.
    + injection H as <- <-. split; reflexivity.
Qed.

Lemma matchTail_spec (rest tail : string) :
  matchTail rest = Some tail ->
  tail = rest /\ (tail = "" \/ GoStrings.HasPrefix tail "/" = true).
Proof.
  unfold matchTail. destruct (String.eqb_spec rest "") as [->|Hne].
  - intros [= <-]. auto.
  - destruct (GoStrings.HasPrefix rest "/") eqn:Hp; [|discriminate].
    destruct (noNewline rest); [|discriminate]. intros [= <-]. auto.
Qed.

Lemma matchPortTail_spec (rest port tail : string) :
  matchPortTail rest = Some (port, tail) ->
  port +:+ tail = rest /\ isPort port
  /\ (tail = "" \/ GoStrings.HasPrefix tail "/" = true).
Proof.
  unfold matchPortTail. destruct (matchTail rest) as [t|] eqn:Ht.
  - intros [= <- <-]. apply matchTail_spec in Ht as [-> Hshape].
    repeat split; [left; reflexivity | exact Hshape].
  - destruct rest as [|c r]; [discriminate|].
    destruct (Ascii.eqb_spec c ":") as [->|Hc].
    2:{ destruct c as [[] [] [] [] [] [] [] []]; try discriminate; now contradiction Hc. }
    destruct (takeDigits r) as [digits r'] eqn:Hd.
    destruct (String.eqb_spec digits "") as [|Hne]; [discriminate|].
    destruct (matchTail r') as [t|] eqn:Ht'; [|discriminate].
    intros [= <- <-]. apply matchTail_spec in Ht' as [-> Hshape].
    apply takeDigits_spec in Hd as [Happ Hall]. repeat split.
    + change ((":" +:+ digits) +:+ r') with (String ":" (digits +:+ r')). now rewrite Happ.
    + right. exists digits. auto.
    + exact Hshape.
Qed.

Lemma ReferenceRegexpNoPort_spec (s : string) : forall m,
  ReferenceRegexpNoPort s = Some m ->
  m0 m = s /\ m1 m +:+ m2 m +:+ m3 m = s /\ isPort (m2 m)
  /\ (m3 m = "" \/ GoStrings.HasPrefix (m3 m) "/" = true).
Proof.
  induction s as [|c s IH]; intros m H; cbn [ReferenceRegexpNoPort] in H.
  - destruct (matchPortTail "") as [[port tail]|] eqn:Hpt; [|discriminate].
    injection H as <-. cbn [m0 m1 m2 m3].
    apply matchPortTail_spec in Hpt as (Happ & Hport & Htail). auto.
  - destruct (matchPortTail (String c s)) as [[port tail]|] eqn:Hpt.
    + injection H as <-. cbn [m0 m1 m2 m3].
      apply matchPortTail_spec in Hpt as (Happ & Hport & Htail). auto.
    + destruct (Ascii.eqb c newline); [discriminate|].
      destruct (ReferenceRegexpNoPort s) as [m'|]; [|discriminate].
      injection H as <-. cbn [m0 m1 m2 m3].
      destruct (IH m' eq_refl) as (_ & Happ & Hport & Htail).
      repeat split; auto.
      change (String c (m1 m') +:+ m2 m' +:+ m3 m') with (String c (m1 m' +:+ m2 m' +:+ m3 m')).
      now rewrite Happ.
Qed.

Lemma ReferenceRegexpNoPort_matches (s : string) :
  noNewline s = true -> ReferenceRegexpNoPort s <> None.
Proof.
  unfold noNewline. induction s as [|c s IH]; intros Hno.
  - discriminate.
  - cbn [ReferenceRegexpNoPort].
    destruct (matchPortTail (String c s)) as [[port tail]|]; [discriminate|].
    cbn in Hno. apply negb_true_iff, orb_false_iff in Hno as [Hc Hs].
    rewrite Ascii.eqb_sym, Hc.
    destruct (ReferenceRegexpNoPort s) eqn:E; [discriminate|].
    exfalso. apply IH; [|reflexivity]. now rewrite Hs.
Qed.

(** X12.  The expression that strips the port from a repository name matches
    every name that has no newline.  Its three groups partition the name:
    put together again they give the name back.  The port group is empty or
    a colon followed by one or more digits, and the last group is empty or
    starts with a slash. *)
Theorem ReferenceRegexpNoPort_partitions (name : string) :
  (noNewline name = true -> exists m, ReferenceRegexpNoPort name = Some m)
  /\ (forall m, ReferenceRegexpNoPort name = Some m ->
        m0 m = name /\ m1 m +:+ m2 m +:+ m3 m = name /\ isPort (m2 m)
        /\ (m3 m = "" \/ GoStrings.HasPrefix (m3 m) "/" = true)).
Proof.
  split.
  - intros Hno. destruct (ReferenceRegexpNoPort name) as [m|] eqn:E; [eauto|].
    now apply ReferenceRegexpNoPort_matches in E.
  - apply ReferenceRegexpNoPort_spec.
Qed.

(** *** Link names *)

Lemma ContainsAny_cons (c : ascii) (s chars : string) :
  GoStrings.ContainsAny (String c s) chars
  = existsb (Ascii.eqb c) (list_ascii_of_string chars) || GoStrings.ContainsAny s chars.
Proof. reflexivity. Qed.

Lemma ContainsAny_append (a b chars : string) :
  GoStrings.ContainsAny (a +:+ b) chars
  = GoStrings.ContainsAny a chars || GoStrings.ContainsAny b chars.
Proof.
  induction a as [|c a IH]; [reflexivity|].
  change (String c a +:+ b) with (String c (a +:+ b)).
  rewrite !ContainsAny_cons, IH. now rewrite orb_assoc.
Qed.

Lemma ReplaceAll_no_slash (s new : string) :
  GoStrings.ContainsAny new "/" = false ->
  GoStrings.ContainsAny (GoStrings.ReplaceAll s "/" new) "/" = false.
Proof.
  intros Hnew. induction s as [|c s IH]; [reflexivity|].
  cbn [GoStrings.ReplaceAll]. destruct (Ascii.eqb c "/") eqn:Hc.
  - now rewrite ContainsAny_append, Hnew, IH.
  - rewrite ContainsAny_cons, IH. cbn. now rewrite Hc.
Qed.

Lemma ReplaceAll_without_slash (s new : string) :
  GoStrings.ContainsAny s "/" = false -> GoStrings.ReplaceAll s "/" new = s.
Proof.
  induction s as [|c s IH]; intros Hno; [reflexivity|].
  cbn in Hno. apply orb_false_iff in Hno as [Hc Hs]. rewrite orb_false_r in Hc.
  cbn [GoStrings.ReplaceAll]. now rewrite Hc, (IH Hs).
Qed.

Lemma length_append (a b : string) :
  String.length (a +:+ b) = (String.length a + String.length b)%nat.
Proof.
  induction a as [|c a IH]; [reflexivity|].
  change (String c a +:+ b) with (String c (a +:+ b)). cbn. now rewrite IH.
Qed.

Lemma ReplaceAll_length (s new : string) :
  String.length (GoStrings.ReplaceAll s "/" new)
  = (String.length s + slashes s * String.length new - slashes s)%nat.
Proof.
  induction s as [|c s IH]; [reflexivity|].
  cbn [GoStrings.ReplaceAll slashes]. destruct (Ascii.eqb c "/").
  - rewrite length_append, IH. cbn [String.length].
    assert (slashes s <= String.length s)%nat.
    { clear. induction s as [|c s IH]; cbn; [lia|]. destruct (Ascii.eqb c "/"); lia. }
    nia.
  - cbn [String.length]. rewrite IH.
    assert (slashes s <= String.length s)%nat.
    { clear. induction s as [|c s IH']; cbn; [lia|]. destruct (Ascii.eqb c "/"); lia. }
    nia.
Qed.

Lemma slashes_ContainsAny (s : string) :
  GoStrings.ContainsAny s "/" = true -> (0 < slashes s)%nat.
Proof.
  induction s as [|c s IH]; [discriminate|].
  cbn. rewrite orb_false_r. destruct (Ascii.eqb c "/"); [lia|]. cbn. exact IH.
Qed.

Lemma ReplaceAll_slash_differs (s : string) :
  GoStrings.ContainsAny s "/" = true ->
  GoStrings.ReplaceAll s "/" "__" <> GoStrings.ReplaceAll s "/" "-".
Proof.
  intros Hs Heq. apply (f_equal String.length) in Heq.
  rewrite !ReplaceAll_length in Heq. apply slashes_ContainsAny in Hs.
  assert (slashes s <= String.length s)%nat.
  { clear. induction s as [|c s IH]; cbn; [lia|]. destruct (Ascii.eqb c "/"); lia. }
  cbn [String.length] in Heq. lia.
Qed.


(** *** Allow-lists *)

(** X14.  [verifyAllowedImage] accepts an image exactly when the allow-list
    is empty, or one of its patterns matches the image, or the image is one
    of the internal images; every other image is refused with the error
    "invalid image". *)
Theorem verifyAllowedImage_accepts_iff
    (image optionName : string) (allowedImages internalImages : list string) :
  (verifyAllowedImage image optionName allowedImages internalImages = None
   <-> allowedImages = []
       \/ (exists pattern, In pattern allowedImages /\ filepath_Match pattern image = true)
       \/ In image internalImages)
  /\ (verifyAllowedImage image optionName allowedImages internalImages <> None ->
      verifyAllowedImage image optionName allowedImages internalImages
      = Some (errorString "invalid image")).
Proof.
  unfold verifyAllowedImage.
  destruct (existsb (fun allowedImage => filepath_Match allowedImage image) allowedImages)
    eqn:Hglob.
  { apply List.existsb_exists in Hglob. split; [|congruence].
    split; [|reflexivity]. intros _. right. left. exact Hglob. }
  destruct (existsb (fun internalImage => (internalImage =? image)%string) internalImages)
    eqn:Hinternal.
  { apply List.existsb_exists in Hinternal as (x & Hin & Hx). apply String.eqb_eq in Hx.
    subst x. split; [|congruence]. split; [|reflexivity]. auto. }
  destruct allowedImages as [|pattern rest]; cbn [length Nat.eqb negb].
  { split; [|congruence]. split; auto. }
  split; [|reflexivity]. split; [discriminate|].
  intros [Hnil | [(p & Hin & Hp) | Hin]].
  - discriminate.
  - assert (existsb (fun allowedImage => filepath_Match allowedImage image) (pattern :: rest)
            = true) by (apply List.existsb_exists; eauto).
    congruence.
  - assert (existsb (fun internalImage => (internalImage =? image)%string) internalImages
            = true).
    { apply List.existsb_exists. exists image. split; [exact Hin | apply String.eqb_refl]. }
    congruence.
Qed.

Lemma getServiceNames_loop_run b d declared : forall services s h,
  TheBuild (abstract s) = Some b ->
  Docker (Config (abstract s)) = Some d ->
  getServiceNames_loop declared services s h
  = Done (match List.find (fun service =>
                             bool_decide (verifyAllowedImage (ExpandValue b service) "services"
                                            (AllowedServices d) (Services d) <> None))
                  declared with
          | Some bad =>
              ([], verifyAllowedImage (ExpandValue b bad) "services"
                     (AllowedServices d) (Services d))
          | None => (services ++ map (ExpandValue b) declared, None)
          end) s h.
Proof.
  induction declared as [|service rest IH]; intros services s h Hb Hd.
  - cbn. now rewrite app_nil_r.
  - rewrite (getServiceNames_loop_verifies_expanded s h b d service rest services Hb Hd).
    cbn [List.find].
    destruct (verifyAllowedImage (ExpandValue b service) "services"
                (AllowedServices d) (Services d)) as [err|] eqn:Hv.
    + rewrite bool_decide_eq_true_2 by discriminate. now rewrite Hv.
    + rewrite bool_decide_eq_false_2 by (intros H; now apply H).
      rewrite (IH _ s h Hb Hd). destruct (List.find _ rest); [reflexivity|].
      unfold append. cbn [map]. now rewrite <- app_assoc.
Qed.

(** X15.  [getServiceNames] never talks to the daemon and leaves the
    executor as it is.  The services of the runner configuration come first,
    unexpanded and unverified; the services declared by the job follow in
    order, each expanded and then verified against the allow-list.  The
    first declared service that is refused makes the whole call fail with
    its error and no name at all. *)
Theorem getServiceNames_expands_then_verifies
    (s : executor) (h : history) (b : Build) (d : DockerConfig) :
  TheBuild (abstract s) = Some b ->
  Docker (Config (abstract s)) = Some d ->
  let refused service :=
    bool_decide (verifyAllowedImage (ExpandValue b service) "services"
                   (AllowedServices d) (Services d) <> None) in
  getServiceNames s h
  = Done (match List.find refused (opt_Services (options s)) with
          | Some bad =>
              ([], verifyAllowedImage (ExpandValue b bad) "services"
                     (AllowedServices d) (Services d))
          | None =>
              (Services d ++ map (ExpandValue b) (opt_Services (options s)), None)
          end) s h.
Proof.
  intros Hb Hd refused. unfold getServiceNames.
  erewrite bind_Done by (rewrite theDocker_run, Hd; reflexivity).
  erewrite bind_Done by reflexivity.
  apply getServiceNames_loop_run; assumption.
Qed.

(** *** Services declared more than once *)

Lemma createFromServiceDescription_loop_mapped service version imageName linkNames :
  forall container (linksMap : gmap string Container) s h,
  Forall (fun linkName => is_Some (linksMap !! linkName)) linkNames ->
  createFromServiceDescription_loop service version imageName linkNames container linksMap s h
  = Done (linksMap, None) s h.
Proof.
  induction linkNames as [|linkName rest IH]; intros container linksMap s h Hall;
    cbn [createFromServiceDescription_loop]; [reflexivity|].
  inversion Hall as [|? ? [c Hc] Hrest]; subst. rewrite Hc. now apply IH.
Qed.

Lemma createFromServiceDescription_loop_maps_all service version imageName linkNames :
  forall container (linksMap linksMap' : gmap string Container) s h s' h',
  createFromServiceDescription_loop service version imageName linkNames container linksMap s h
  = Done (linksMap', None) s' h' ->
  (forall k, is_Some (linksMap !! k) -> is_Some (linksMap' !! k))
  /\ Forall (fun linkName => is_Some (linksMap' !! linkName)) linkNames.
Proof.
  induction linkNames as [|linkName rest IH];
    intros container linksMap linksMap' s h s' h' Hrun;
    cbn [createFromServiceDescription_loop] in Hrun.
  - injection Hrun as <- <- <-. split; [auto | constructor].
  - destruct (linksMap !! linkName) as [c0|] eqn:Hl.
    + destruct (IH _ _ _ _ _ _ _ Hrun) as [Hkeep Hrest]. split; [exact Hkeep|].
      constructor; [apply Hkeep; now rewrite Hl | exact Hrest].
    + assert (Hins : forall c (m' : gmap string Container),
                (forall k, is_Some (<[linkName := c]> linksMap !! k) -> is_Some (m' !! k)) ->
                (forall k, is_Some (linksMap !! k) -> is_Some (m' !! k))
                /\ is_Some (m' !! linkName)).
      { intros c m' Hm'. split.
        - intros k Hk. apply Hm'. destruct (decide (linkName = k)) as [->|Hne].
          + rewrite lookup_insert_eq. eauto.
          + now rewrite lookup_insert_ne.
        - apply Hm'. rewrite lookup_insert_eq. eauto. }
      destruct container as [c0|].
      * destruct (IH _ _ _ _ _ _ _ Hrun) as [Hkeep Hrest].
        destruct (Hins _ _ Hkeep). split; [assumption|]. now constructor.
      * split_bind Hrun as answer Hcreate. destruct answer as [created0 [err|]];
          [discriminate|].
        split_bind Hrun as c0 Hderef. split_bind Hrun as u Hmod.
        destruct (IH _ _ _ _ _ _ _ Hrun) as [Hkeep Hrest].
        destruct (Hins _ _ Hkeep). split; [assumption|]. now constructor.
Qed.

Lemma splitServiceAndVersion_independent description s h r s1 h1 :
  splitServiceAndVersion description s h = Done r s1 h1 ->
  forall s' h', splitServiceAndVersion description s' h' = Done r s' h'.
Proof.
  unfold splitServiceAndVersion. intros Hrun s' h'.
  destruct (ReferenceRegexp description) as [m|].
  - destruct (ReferenceRegexpNoPort (m1 m)) as [ms|]; [|discriminate].
    unfold_M. destruct (if (0 <? String.length (m2 m))%nat then _ else _) as [v i].
    cbn in *. now injection Hrun as <- _ _.
  - unfold_M. now injection Hrun as <- _ _.
Qed.

(** X16.  A service description that has been created is not created a
    second time: once [createFromServiceDescription] has succeeded for a
    description, calling it again for the same description with the
    resulting map of links, in whatever state the executor is, makes no call
    on the daemon, changes nothing and succeeds. *)
Theorem createFromServiceDescription_twice_creates_once
    (description : string) (linksMap linksMap' : gmap string Container)
    (s : executor) (h : history) (s' : executor) (h' : history) :
  createFromServiceDescription description linksMap s h = Done (linksMap', None) s' h' ->
  forall s2 h2,
    createFromServiceDescription description linksMap' s2 h2 = Done (linksMap', None) s2 h2.
Proof.
  intros Hrun s2 h2. unfold createFromServiceDescription in *.
  split_bind Hrun as parsed Hsplit.
  rewrite (bind_Done _ _ _ _ _ _ _ (splitServiceAndVersion_independent _ _ _ _ _ _ Hsplit s2 h2)).
  destruct parsed as [[[service version] imageName] linkNames].
  apply createFromServiceDescription_loop_mapped.
  eapply createFromServiceDescription_loop_maps_all. exact Hrun.
Qed.

(** *** The build container *)

Ltac use_harmless Hm lem :=
  let evs := fresh "evs" in
  let Hevs := fresh "Hevs" in
  apply (steady_Done harmless) in Hm;
  [ destruct Hm as (-> & evs & -> & Hevs) | apply lem; unfold harmless; cbn; tauto ].

Lemma removeContainer_harmless_scrub c id s h :
  client s = Some c ->
  exists scrub,
    removeContainer id s h
    = Done (ContainerRemove c (scrub ++ h) id forcedRemoval) s
           (CallContainerRemove id forcedRemoval :: scrub ++ h)
    /\ Forall harmless scrub.
Proof.
  intros Hc. destruct (removeContainer_run c id s h Hc) as (evs & Hrun & Hevs).
  exists evs. split; [exact Hrun|].
  eapply Forall_impl; [exact Hevs|]. unfold harmless. tauto.
Qed.

(** X17.  [createContainer] first obtains the image; when that fails nothing
    is created or removed.  Otherwise it asks for the removal of whatever
    container bears the name [<projectUniqueName>-<type>] and then, as its
    very next call, creates the container under this name.  The create call
    carries the command it was given, the configured host name or else the
    project name, and the binds, volumes-from, links and devices the
    executor has accumulated (after those of the configuration). *)
Theorem createContainer_replaces_named_container
    (containerType imageName : string) (cmd : list string)
    (s : executor) (h : history) (c : Client) (b : Build) (d : DockerConfig)
    (r : option ContainerJSON) (err : option error) (s' : executor) (h' : history) :
  client s = Some c ->
  TheBuild (abstract s) = Some b ->
  Docker (Config (abstract s)) = Some d ->
  createContainer containerType imageName cmd s h = Done (r, err) s' h' ->
  let name := ProjectUniqueName b +:+ "-" +:+ containerType in
  exists evs,
    h' = evs ++ h
    /\ ((Forall harmless evs /\ err <> None)
        \/ exists after config hostConfig before,
             evs = after ++ CallContainerCreate config hostConfig name
                     :: CallContainerRemove name forcedRemoval :: before
             /\ Forall harmless after /\ Forall harmless before
             /\ cfg_Cmd config = cmd
             /\ cfg_Hostname config
                = (if String.eqb (Hostname d) "" then ProjectUniqueName b else Hostname d)
             /\ hc_Binds hostConfig = binds s
             /\ hc_VolumesFrom hostConfig = VolumesFrom d ++ volumesFrom s
             /\ hc_Links hostConfig = Links d ++ links s
             /\ hc_Devices hostConfig = devices s).
Proof.
  intros Hc Hb Hd H name. unfold createContainer in H.
  split_bind H as pulled Hm. use_harmless Hm steady_getDockerImage.
  destruct pulled as [image [err0|]].
  { injection H as <- <- <- <-. exists evs. split; [reflexivity|]. left. split; [exact Hevs|discriminate]. }
  erewrite bind_Done in H by (rewrite theDocker_run, Hd; reflexivity).
  erewrite bind_Done in H by (rewrite theBuild_run, Hb; reflexivity).
  cbv zeta in H. fold name in H.
  split_bind H as img Hm. use_harmless Hm @steady_deref.
  split_bind H as labels Hm. use_harmless Hm steady_getLabels.
  split_bind H as shell Hm. use_harmless Hm steady_theBuildShell.
  erewrite bind_Done in H by reflexivity.
  destruct (removeContainer_harmless_scrub c name s (evs2 ++ evs1 ++ evs0 ++ evs ++ h) Hc)
    as (scrub & Hremove & Hscrub).
  rewrite (bind_Done _ _ _ _ _ _ _ Hremove) in H.
  unfold callContainerCreate in H.
  erewrite bind_Done in H by (apply call_Some; exact Hc).
  match type of H with
  | context [CallContainerCreate ?cfg ?hc name] =>
      set (config := cfg) in *; set (hostConfig := hc) in *
  end.
  assert (Hshape : forall after, Forall harmless after ->
            exists evs',
              after ++ CallContainerCreate config hostConfig name
                :: CallContainerRemove name forcedRemoval
                :: scrub ++ evs2 ++ evs1 ++ evs0 ++ evs ++ h = evs' ++ h
              /\ ((Forall harmless evs' /\ err <> None)
                  \/ exists after config hostConfig before,
                       evs' = after ++ CallContainerCreate config hostConfig name
                                :: CallContainerRemove name forcedRemoval :: before
                       /\ Forall harmless after /\ Forall harmless before
                       /\ cfg_Cmd config = cmd
                       /\ cfg_Hostname config
                          = (if String.eqb (Hostname d) "" then ProjectUniqueName b
                             else Hostname d)
                       /\ hc_Binds hostConfig = binds s
                       /\ hc_VolumesFrom hostConfig = VolumesFrom d ++ volumesFrom s
                       /\ hc_Links hostConfig = Links d ++ links s
                       /\ hc_Devices hostConfig = devices s)).
  { intros after Hafter.
    exists (after ++ CallContainerCreate config hostConfig name
              :: CallContainerRemove name forcedRemoval
              :: scrub ++ evs2 ++ evs1 ++ evs0 ++ evs).
    split.
    - rewrite <- !app_assoc. cbn [app]. now rewrite <- !app_assoc.
    - right. exists after, config, hostConfig, (scrub ++ evs2 ++ evs1 ++ evs0 ++ evs).
      repeat split; auto. repeat (apply Forall_app; split); auto. }
  destruct (ContainerCreate c _ config hostConfig name) as [resp [err1|]].
  { split_bind H as u Hm.
    destruct (negb (resp_ID resp =? "")%string);
      injection Hm as <- <- <-; injection H as <- <- <- <-;
      apply (Hshape []); constructor. }
  unfold callContainerInspect in H.
  erewrite bind_Done in H by (apply call_Some; exact Hc).
  destruct (ContainerInspect c _ (resp_ID resp)) as [inspect [err2|]].
  { split_bind H as u Hm. injection Hm as <- <- <-. injection H as <- <- <- <-.
    apply (Hshape [CallContainerInspect (resp_ID resp)]).
    repeat constructor; cbn; tauto. }
  injection H as <- <- <- <-.
  apply (Hshape [CallContainerInspect (resp_ID resp)]).
  repeat constructor; cbn; tauto.
Qed.

(** *** Scrubbing the networks *)

Lemma plugged_spec (id : string) (network : NetworkResource) :
  plugged id network = true
  <-> exists endpoint, net_Containers network !! endpoint = Some id.
Proof.
  unfold plugged. rewrite bool_decide_eq_true, Exists_exists. split.
  - intros ([endpoint name] & Hin & Hname). cbn in Hname. subst name.
    exists endpoint. now apply elem_of_map_to_list.
  - intros (endpoint & Hl). exists (endpoint, id). split; [|reflexivity].
    now apply elem_of_map_to_list.
Qed.

Lemma disconnectNetwork_loop_run c id netList : forall err s h,
  client s = Some c ->
  exists r,
    disconnectNetwork_loop id netList err s h
    = Done r s
        (rev (map (fun network => CallNetworkDisconnect (net_ID network) id true)
                (List.filter (plugged id) netList)) ++ h).
Proof.
  induction netList as [|network rest IH]; intros err s h Hc;
    cbn [disconnectNetwork_loop List.filter].
  - exists err. reflexivity.
  - destruct (plugged id network).
    + unfold callNetworkDisconnect.
      rewrite (bind_Done _ _ _ _ _ _ _ (call_Some _ _ s h c Hc)).
      destruct (IH (NetworkDisconnect c h (net_ID network) id true) s
                  (CallNetworkDisconnect (net_ID network) id true :: h) Hc) as (r & Hr).
      exists r. rewrite Hr. cbn [map rev]. now rewrite <- app_assoc.
    + apply IH. exact Hc.
Qed.

(** X18.  With the client connected, [disconnectNetwork] lists the networks
    and asks for one forced disconnect of the container from each network
    that has an endpoint with the name of the container, in the order of the
    list, and from no other network; when the list cannot be obtained it
    returns that error and disconnects nothing.  [removeContainer] asks for
    the forced removal of the container, volumes included, whatever the
    scrub did. *)
Theorem disconnectNetwork_scrubs_plugged_networks
    (c : Client) (id : string) (s : executor) (h : history) :
  client s = Some c ->
  (forall network,
     plugged id network = true
     <-> exists endpoint, net_Containers network !! endpoint = Some id)
  /\ match NetworkList c h with
     | (_, Some err) => disconnectNetwork id s h = Done (Some err) s (CallNetworkList :: h)
     | (netList, None) =>
         exists r,
           disconnectNetwork id s h
           = Done r s
               (rev (map (fun network => CallNetworkDisconnect (net_ID network) id true)
                       (List.filter (plugged id) netList))
                ++ CallNetworkList :: h)
     end
  /\ exists scrub,
       removeContainer id s h
       = Done (ContainerRemove c (scrub ++ h) id forcedRemoval) s
              (CallContainerRemove id forcedRemoval :: scrub ++ h)
       /\ Forall harmless scrub.
Proof.
  intros Hc. split; [intros network; apply plugged_spec|]. split.
  - unfold disconnectNetwork, callNetworkList.
    rewrite (bind_Done _ _ _ _ _ _ _ (call_Some _ _ s h c Hc)).
    destruct (NetworkList c h) as [netList [err|]]; [reflexivity|].
    apply (disconnectNetwork_loop_run c). exact Hc.
  - apply removeContainer_harmless_scrub. exact Hc.
Qed.

(** *** Links to the services *)

Lemma buildServiceLinks_loop_spec (linksMap : gmap string Container) entries :
  forall links s h result s' h',
  Forall (fun entry => linksMap !! entry.1 = Some entry.2) entries ->
  buildServiceLinks_loop entries links s h = Done result s' h' ->
  s' = s
  /\ (exists evs, h' = evs ++ h
        /\ Forall (fun ev => exists alias container,
                     linksMap !! alias = Some container
                     /\ ev = CallContainerInspect (ID container)) evs)
  /\ exists added,
       result = links ++ added
       /\ (length added <= length entries)%nat
       /\ Forall (fun link => exists alias container,
                    linksMap !! alias = Some container
                    /\ link = ID container +:+ ":" +:+ alias) added.
Proof.
  induction entries as [|[linkName linkee] rest IH];
    intros links s h result s' h' Hentries Hrun; cbn [buildServiceLinks_loop] in Hrun.
  - injection Hrun as <- <- <-. split; [reflexivity|]. split.
    + exists []. split; [reflexivity | constructor].
    + exists []. rewrite app_nil_r. repeat split; auto.
  - inversion Hentries as [|? ? Hentry Hrest]; subst. cbn in Hentry.
    split_bind Hrun as answer Hcall. unfold callContainerInspect, call in Hcall.
    destruct (client s) as [c|]; [|discriminate]. injection Hcall as <- <- <-.
    assert (Hevent : exists alias container,
              linksMap !! alias = Some container
              /\ CallContainerInspect (ID linkee) = CallContainerInspect (ID container))
      by eauto.
    destruct (ContainerInspect c h (ID linkee)) as [newContainer [err|]].
    + destruct (IH _ _ _ _ _ _ Hrest Hrun) as (-> & (evs & -> & Hevs) & added & -> & Hlen & Hadded).
      split; [reflexivity|]. split.
      * exists (evs ++ [CallContainerInspect (ID linkee)]). rewrite <- app_assoc.
        split; [reflexivity|]. apply Forall_app. split; [exact Hevs|]. now constructor.
      * exists added. repeat split; auto. cbn. lia.
    + destruct (Running (json_State newContainer)).
      * destruct (IH _ _ _ _ _ _ Hrest Hrun)
          as (-> & (evs & -> & Hevs) & added & -> & Hlen & Hadded).
        split; [reflexivity|]. split.
        -- exists (evs ++ [CallContainerInspect (ID linkee)]). rewrite <- app_assoc.
           split; [reflexivity|]. apply Forall_app. split; [exact Hevs|]. now constructor.
        -- exists ((ID linkee +:+ ":" +:+ linkName) :: added). unfold append.
           rewrite <- app_assoc. repeat split; auto.
           ++ cbn. lia.
           ++ constructor; [eauto | exact Hadded].
      * destruct (IH _ _ _ _ _ _ Hrest Hrun)
          as (-> & (evs & -> & Hevs) & added & -> & Hlen & Hadded).
        split; [reflexivity|]. split.
        -- exists (evs ++ [CallContainerInspect (ID linkee)]). rewrite <- app_assoc.
           split; [reflexivity|]. apply Forall_app. split; [exact Hevs|]. now constructor.
        -- exists added. repeat split; auto. cbn. lia.
Qed.

Lemma buildServiceLinks_loop_uniform c entries (running : bool) :
  (forall h0 id, snd (ContainerInspect c h0 id) = None
                 /\ Running (json_State (fst (ContainerInspect c h0 id))) = running) ->
  forall links s h, client s = Some c ->
  exists h',
    buildServiceLinks_loop entries links s h
    = Done (links ++ (if running
                      then map (fun entry : string * Container =>
                                  ID entry.2 +:+ ":" +:+ entry.1) entries
                      else [])) s h'.
Proof.
  intros Huniform. induction entries as [|[linkName linkee] rest IH]; intros links s h Hc;
    cbn [buildServiceLinks_loop].
  - exists h. destruct running; cbn; now rewrite app_nil_r.
  - unfold callContainerInspect. rewrite (bind_Done _ _ _ _ _ _ _ (call_Some _ _ s h c Hc)).
    destruct (Huniform h (ID linkee)) as [Herr Hrunning].
    destruct (ContainerInspect c h (ID linkee)) as [newContainer err]. cbn in *. subst err.
    rewrite Hrunning. destruct running.
    + destruct (IH (append (ID linkee +:+ ":" +:+ linkName) links) s
                  (CallContainerInspect (ID linkee) :: h) Hc) as (h' & Hr).
      exists h'. rewrite Hr. unfold append. cbn [map]. now rewrite <- app_assoc.
    + apply IH. exact Hc.
Qed.

(** X19.  [buildServiceLinks] leaves the executor as it is and only
    inspects the containers of the map of links.  Every link it returns is
    [<id>:<alias>] for an alias of the map and the container it is mapped
    to, and there are at most as many links as aliases.  On a daemon that
    reports every container running, every alias gets its link; on a daemon
    that reports none running, there is no link. *)
Theorem buildServiceLinks_links_running_services
    (linksMap : gmap string Container) (s : executor) (h : history) :
  (forall links s' h',
     buildServiceLinks linksMap s h = Done links s' h' ->
     s' = s
     /\ (exists evs, h' = evs ++ h
           /\ Forall (fun ev => exists alias container,
                        linksMap !! alias = Some container
                        /\ ev = CallContainerInspect (ID container)) evs)
     /\ (length links <= size linksMap)%nat
     /\ Forall (fun link => exists alias container,
                  linksMap !! alias = Some container
                  /\ link = ID container +:+ ":" +:+ alias) links)
  /\ (forall c running,
        client s = Some c ->
        (forall h0 id, snd (ContainerInspect c h0 id) = None
                       /\ Running (json_State (fst (ContainerInspect c h0 id))) = running) ->
        exists h',
          buildServiceLinks linksMap s h
          = Done (if running
                  then map (fun entry : string * Container =>
                              ID entry.2 +:+ ":" +:+ entry.1) (map_to_list linksMap)
                  else []) s h').
Proof.
  split.
  - intros links s' h' Hrun. unfold buildServiceLinks in Hrun.
    apply (buildServiceLinks_loop_spec linksMap) in Hrun.
    + destruct Hrun as (-> & Hevs & added & -> & Hlen & Hadded).
      repeat split; auto. cbn [app].
      rewrite <- length_map_to_list. exact Hlen.
    + apply Forall_forall. intros [alias container] Hin.
      now apply elem_of_map_to_list.
  - intros c running Hc Huniform. unfold buildServiceLinks.
    destruct (buildServiceLinks_loop_uniform c (map_to_list linksMap) running Huniform [] s h Hc)
      as (h' & Hr).
    exists h'. exact Hr.
Qed.

(** *** Cleanup, again *)

(** X20.  [Cleanup] does not empty the registries and does not reset the
    client: on a connected executor a second [Cleanup] asks again for one
    removal per registered id, of the same ids as the first, and closes the
    client once more.  Nothing is said about the order of the removals,
    which the goroutines of [Cleanup] do not fix. *)
Theorem Cleanup_twice_repeats_removals (c : Client) (s : executor) (h : history) :
  client s = Some c ->
  exists evs1 s1 evs2 s2,
    Cleanup s h = Done tt s1 (CallClose :: evs1 ++ h)
    /\ Permutation (removals evs1) (registered s)
    /\ registered s1 = registered s /\ client s1 = Some c
    /\ Cleanup s1 (CallClose :: evs1 ++ h)
       = Done tt s2 (CallClose :: evs2 ++ CallClose :: evs1 ++ h)
    /\ Permutation (removals evs2) (removals evs1).
Proof.
  intros Hc.
  pose proof (Cleanup_run s h) as Hfirst. cbv zeta in Hfirst. rewrite Hc in Hfirst.
  destruct Hfirst as (evs1 & Hrun1 & Hrem1 & _).
  set (s1 := set_abstract (AbstractExecutor_Cleanup (abstract s)) s) in *.
  pose proof (Cleanup_run s1 (CallClose :: evs1 ++ h)) as Hsecond. cbv zeta in Hsecond.
  assert (Hc1 : client s1 = Some c) by exact Hc.
  rewrite Hc1 in Hsecond. destruct Hsecond as (evs2 & Hrun2 & Hrem2 & _).
  exists evs1, s1, evs2. eexists. repeat split; eauto.
  - rewrite Hrem1. symmetry. apply Permutation_rev.
  - rewrite Hrem1, Hrem2. reflexivity.
Qed.

(** *** Prepare before the daemon is contacted *)

(** X21.  Once the shell is accepted, [Prepare] decodes the options of the
    job and settles the image before it connects to the daemon.  An error of
    the decoding is returned as it is.  A declared image that the allow-list
    refuses, or the lack of any image (none declared, none configured), is
    returned as an error.  In each case no call has been made, the client is
    as before and nothing has been registered. *)
Theorem Prepare_settles_image_before_connecting
    (fuel : nat) (config : RunnerConfig) (build : Build) (shell : ShellConfiguration)
    (d : DockerConfig) (s : executor) (h : history) :
  Docker config = Some d ->
  (forall a, exists a', AbstractExecutor_Prepare a config build = (a', None)
                        /\ BuildShell a' = Some shell /\ Config a' = config
                        /\ TheBuild a' = Some build) ->
  PassFile shell = false ->
  let decoded := fst (Options_Decode build (options s)) in
  let refusal :=
    match snd (Options_Decode build (options s)) with
    | Some err => Some err
    | None =>
        if String.eqb (opt_Image decoded) "" then
          if String.eqb (Image d) "" then
            Some (errorString "No Docker image specified to run the build in")
          else None
        else verifyAllowedImage (opt_Image decoded) "images" (AllowedImages d) [Image d]
    end in
  forall err, refusal = Some err ->
  exists s',
    Prepare fuel config build s h = Done (Some err) s' h
    /\ client s' = client s /\ registered s' = registered s
    /\ binds s' = binds s /\ volumesFrom s' = volumesFrom s.
Proof.
  intros Hd Habs Hpass decoded refusal err Hrefusal. unfold Prepare.
  erewrite bind_Done by (rewrite prepareBuildsDir_run, Hd; reflexivity).
  cbv beta iota zeta. erewrite bind_Done by reflexivity.
  match goal with
  | |- context [AbstractExecutor_Prepare (abstract ?x) config build] =>
      set (s1 := x); destruct (Habs (abstract s1)) as (a' & Ha' & Hshell & Hconfig & Hbuild)
  end.
  rewrite Ha'. erewrite bind_Done by reflexivity.
  erewrite bind_Done by (rewrite theBuildShell_run; cbn; rewrite Hshell; reflexivity).
  rewrite Hpass, Hd. erewrite bind_Done by reflexivity.
  assert (Hoptions : options (set_abstract a' s1) = options s).
  { subst s1. destruct (isHostMountedVolume _ _); reflexivity. }
  rewrite Hoptions. subst refusal decoded.
  assert (Hfields : forall o,
            client (set_options o (set_abstract a' s1)) = client s
            /\ registered (set_options o (set_abstract a' s1)) = registered s
            /\ binds (set_options o (set_abstract a' s1)) = binds s
            /\ volumesFrom (set_options o (set_abstract a' s1)) = volumesFrom s).
  { intros o. subst s1. destruct (isHostMountedVolume _ _); repeat split; reflexivity. }
  destruct (Options_Decode build (options s)) as [o [derr|]]; cbn [fst snd] in *.
  - injection Hrefusal as <-. erewrite bind_Done by reflexivity.
    eexists. split; [reflexivity|]. apply Hfields.
  - erewrite bind_Done by reflexivity.
    assert (Himage : getImageName (set_options o (set_abstract a' s1)) h
                     = Done ("", Some err) (set_options o (set_abstract a' s1)) h).
    { unfold getImageName. erewrite bind_Done by reflexivity.
      cbn [options set_options].
      destruct (String.eqb_spec (opt_Image o) "") as [E|E]; cbn [negb].
      - erewrite bind_Done by (rewrite theDocker_run; cbn; rewrite Hconfig, Hd; reflexivity).
        destruct (String.eqb (Image d) ""); [|discriminate]. now injection Hrefusal as <-.
      - erewrite bind_Done by (rewrite theBuild_run; cbn; rewrite Hbuild; reflexivity).
        erewrite bind_Done by (rewrite theDocker_run; cbn; rewrite Hconfig, Hd; reflexivity).
        now rewrite Hrefusal. }
    rewrite (bind_Done _ _ _ _ _ _ _ Himage).
    eexists. split; [reflexivity|]. apply Hfields.
Qed.

End MoreProperties.

(** * The PowerShell writer *)

Section PowerShellProperties.

Import PowerShell.

Context {helpers : Helpers}.

Lemma append_assoc (a b c : string) : (a +:+ b) +:+ c = a +:+ (b +:+ c).
Proof.
  induction a as [|x a IH]; [reflexivity|].
  change (String x a +:+ b) with (String x (a +:+ b)).
  change (String x (a +:+ b) +:+ c) with (String x ((a +:+ b) +:+ c)).
  change (String x a +:+ (b +:+ c)) with (String x (a +:+ (b +:+ c))).
  now rewrite IH.
Qed.

Lemma append_empty_r (a : string) : a +:+ "" = a.
Proof.
  induction a as [|x a IH]; [reflexivity|].
  change (String x a +:+ "") with (String x (a +:+ "")). now rewrite IH.
Qed.

Lemma append_cancel_r (x y s : string) : x +:+ s = y +:+ s -> x = y.
Proof.
  intros Heq. assert (Hlen : String.length x = String.length y).
  { apply (f_equal String.length) in Heq. rewrite !length_append in Heq. lia. }
  revert y Heq Hlen. induction x as [|c x IH]; intros [|d y] Heq Hlen;
    try discriminate; [reflexivity|].
  change (String c (x +:+ s) = String d (y +:+ s)) in Heq.
  injection Heq as -> Heq. cbn in Hlen. f_equal. apply IH; [exact Heq|lia].
Qed.

Lemma ReplaceAll_append (a b : string) (old : ascii) (new : string) :
  GoStrings.ReplaceAll (a +:+ b) old new
  = GoStrings.ReplaceAll a old new +:+ GoStrings.ReplaceAll b old new.
Proof.
  induction a as [|c a IH]; [reflexivity|].
  change (String c a +:+ b) with (String c (a +:+ b)).
  cbn [GoStrings.ReplaceAll]. destruct (Ascii.eqb c old).
  - now rewrite IH, append_assoc.
  - now rewrite IH.
Qed.

Lemma ReplaceAll_other (c old : ascii) (new : string) :
  Ascii.eqb c old = false ->
  GoStrings.ReplaceAll (String c "") old new = String c "".
Proof. intros Hc. cbn [GoStrings.ReplaceAll]. now rewrite Hc. Qed.

Lemma psQuoteBody_append (a b : string) :
  psQuoteBody (a +:+ b) = psQuoteBody a +:+ psQuoteBody b.
Proof. unfold psQuoteBody. cbv zeta. now rewrite !ReplaceAll_append. Qed.

Ltac by_escape c :=
  unfold psEscape;
  repeat match goal with
  | |- context [Ascii.eqb c ?d] =>
      let H := fresh "Hc" in destruct (Ascii.eqb c d) eqn:H
  end;
  try match goal with
  | H : Ascii.eqb c _ = true |- _ => apply Ascii.eqb_eq in H; subst c
  end.

Lemma psQuoteBody_char (c : ascii) : psQuoteBody (String c "") = psEscape c.
Proof.
  by_escape c; try (vm_compute; reflexivity).
  unfold psQuoteBody. cbv zeta. now rewrite !ReplaceAll_other by assumption.
Qed.

Lemma psQuoteBody_escapeAll (text : string) :
  psQuoteBody text = escapeAll psEscape text.
Proof.
  induction text as [|c text IH]; [reflexivity|].
  change (String c text) with (String c "" +:+ text).
  rewrite psQuoteBody_append, psQuoteBody_char, IH. reflexivity.
Qed.

Lemma allChars_append (p : ascii -> bool) (a b : string) :
  allChars p (a +:+ b) = allChars p a && allChars p b.
Proof.
  induction a as [|c a IH]; [reflexivity|].
  change (String c a +:+ b) with (String c (a +:+ b)). cbn [allChars].
  now rewrite IH, andb_assoc.
Qed.

Lemma psEscape_no_control (c : ascii) :
  allChars (fun c => negb (isControl c)) (psEscape c) = true.
Proof.
  by_escape c; try reflexivity.
  cbn [allChars isControl existsb]. now rewrite Hc0, Hc1, Hc2, Hc3, Hc4, Hc5, Hc6.
Qed.

Lemma escapeAll_no_control (text : string) :
  allChars (fun c => negb (isControl c)) (escapeAll psEscape text) = true.
Proof.
  induction text as [|c text IH]; [reflexivity|].
  cbn [escapeAll]. now rewrite allChars_append, psEscape_no_control, IH.
Qed.

Lemma escapeAll_escaped (q : ascii) (text : string) :
  In q [dquote; "'"; "#"]%char ->
  forall p, escapedFrom q p (escapeAll psEscape text) = true.
Proof.
  intros Hq. induction text as [|c text IH]; intros p; [reflexivity|].
  cbn [escapeAll]. set (rest := escapeAll psEscape text) in *. clearbody rest. by_escape c;
    try (cbn in Hq; destruct Hq as [<-|[<-|[<-|[]]]]; cbn; apply IH).
  change (String c "" +:+ rest) with (String c rest).
  cbn [escapedFrom]. rewrite IH, andb_true_r.
  destruct (Ascii.eqb c q) eqn:Hcq; [|reflexivity].
  apply Ascii.eqb_eq in Hcq. subst q.
  cbn in Hq. destruct Hq as [<-|[<-|[<-|[]]]]; rewrite Ascii.eqb_refl in *; discriminate.
Qed.

(** X22.  [psQuote] escapes character by character: the result is the
    text between two double quotes with every character replaced by its
    escape.  The result holds no bell, backspace, tab, line feed, vertical
    tab, form feed or carriage return, and between the outer quotes every
    double quote, single quote and hash comes right after a backtick. *)
Theorem psQuote_escapes_each_character (text : string) :
  psQuote text
  = String dquote (escapeAll psEscape text +:+ String dquote "")
  /\ allChars (fun c => negb (isControl c)) (psQuote text) = true
  /\ forall q, In q [dquote; "'"; "#"]%char ->
       escapedFrom q false (escapeAll psEscape text) = true.
Proof.
  split; [|split].
  - unfold psQuote. now rewrite psQuoteBody_escapeAll.
  - unfold psQuote. rewrite psQuoteBody_escapeAll. cbn [allChars].
    rewrite allChars_append, escapeAll_no_control. reflexivity.
  - intros q Hq. now apply escapeAll_escaped.
Qed.

Lemma psUnescape_escapeAll (text : string) :
  allChars (fun c => negb (isCaretEscaped c)) text = true ->
  psUnescape (escapeAll psEscape text) = text.
Proof.
  induction text as [|c text IH]; [reflexivity|].
  cbn [allChars]. intros [Hc Htext]%andb_true_iff. specialize (IH Htext).
  cbn [escapeAll]. set (rest := escapeAll psEscape text) in *. clearbody rest. by_escape c;
    try (vm_compute in Hc; discriminate); try (rewrite <- IH; reflexivity).
  change (String c "" +:+ rest) with (String c rest).
  cbn [psUnescape]. now rewrite Hc0, IH.
Qed.

(** X23.  Apart from the characters written with a caret (form feed, tab
    and vertical tab), [psQuote] loses nothing: two texts without them that
    quote to the same string are equal, and reading the backtick escapes
    gives the text back. *)
Theorem psQuote_injective_without_caret_escapes (a b : string) :
  allChars (fun c => negb (isCaretEscaped c)) a = true ->
  allChars (fun c => negb (isCaretEscaped c)) b = true ->
  psUnescape (psQuoteBody a) = a
  /\ (psQuote a = psQuote b -> a = b).
Proof.
  intros Ha Hb. split.
  - rewrite psQuoteBody_escapeAll. now apply psUnescape_escapeAll.
  - unfold psQuote. intros Heq. injection Heq as Heq.
    apply append_cancel_r in Heq. rewrite !psQuoteBody_escapeAll in Heq.
    rewrite <- (psUnescape_escapeAll a Ha), <- (psUnescape_escapeAll b Hb).
    now rewrite Heq.
Qed.

(** X24.  A form feed, a tab and a vertical tab are quoted as a caret and
    a letter, and a caret is not escaped: a text with one of them quotes to
    the same string as the text with the two characters in its place. *)
Theorem psQuote_confuses_caret_escapes (a b : string) :
  psQuote (a +:+ String formfeed b) = psQuote (a +:+ "^f" +:+ b)
  /\ psQuote (a +:+ String tab b) = psQuote (a +:+ "^t" +:+ b)
  /\ psQuote (a +:+ String vtab b) = psQuote (a +:+ "^v" +:+ b).
Proof.
  unfold psQuote.
  change (String formfeed b) with (String formfeed "" +:+ b).
  change (String tab b) with (String tab "" +:+ b).
  change (String vtab b) with (String vtab "" +:+ b).
  rewrite !psQuoteBody_append.
  now replace (psQuoteBody "^f") with (psQuoteBody (String formfeed ""));
    [replace (psQuoteBody "^t") with (psQuoteBody (String tab ""));
     [replace (psQuoteBody "^v") with (psQuoteBody (String vtab ""))|]|];
    try (vm_compute; reflexivity).
Qed.

Lemma psEscape_variable (c : ascii) :
  GoStrings.ReplaceAll (psEscape c) "$" "`$" = psEscapeVariable c.
Proof.
  unfold psEscapeVariable. destruct (Ascii.eqb c "$") eqn:Hd.
  - apply Ascii.eqb_eq in Hd. subst c. reflexivity.
  - by_escape c; try reflexivity. now apply ReplaceAll_other.
Qed.

Lemma escapeAll_variable (text : string) :
  GoStrings.ReplaceAll (escapeAll psEscape text) "$" "`$"
  = escapeAll psEscapeVariable text.
Proof.
  induction text as [|c text IH]; [reflexivity|].
  cbn [escapeAll]. now rewrite ReplaceAll_append, psEscape_variable, IH.
Qed.

Lemma escapeAll_variable_escaped (q : ascii) (text : string) :
  In q ["$"; dquote; "'"; "#"]%char ->
  forall p, escapedFrom q p (escapeAll psEscapeVariable text) = true.
Proof.
  intros Hq. induction text as [|c text IH]; intros p; [reflexivity|].
  cbn [escapeAll]. set (rest := escapeAll psEscapeVariable text) in *. clearbody rest.
  unfold psEscapeVariable. destruct (Ascii.eqb c "$") eqn:Hd.
  { cbn in Hq. destruct Hq as [<-|[<-|[<-|[<-|[]]]]]; cbn; apply IH. }
  by_escape c;
    try (cbn in Hq; destruct Hq as [<-|[<-|[<-|[<-|[]]]]]; cbn; apply IH).
  change (String c "" +:+ rest) with (String c rest).
  cbn [escapedFrom]. rewrite IH, andb_true_r.
  destruct (Ascii.eqb c q) eqn:Hcq; [|reflexivity].
  apply Ascii.eqb_eq in Hcq. subst q.
  cbn in Hq. destruct Hq as [<-|[<-|[<-|[<-|[]]]]]; rewrite Ascii.eqb_refl in *; discriminate.
Qed.

(** X25.  [psQuoteVariable] is [psQuote] with the dollar escaped as well:
    the text between two double quotes with every character replaced by
    its escape, a dollar by a backtick and a dollar.  Between the outer
    quotes every dollar, double quote, single quote and hash comes right
    after a backtick. *)
Theorem psQuoteVariable_escapes_dollar (text : string) :
  psQuoteVariable text
  = String dquote (escapeAll psEscapeVariable text +:+ String dquote "")
  /\ forall q, In q ["$"; dquote; "'"; "#"]%char ->
       escapedFrom q false (escapeAll psEscapeVariable text) = true.
Proof.
  split.
  - unfold psQuoteVariable, psQuote. cbv zeta. rewrite psQuoteBody_escapeAll.
    change (String dquote (escapeAll psEscape text +:+ String dquote ""))
      with (String dquote "" +:+ (escapeAll psEscape text +:+ String dquote "")).
    rewrite !ReplaceAll_append, escapeAll_variable. reflexivity.
  - intros q Hq. now apply escapeAll_variable_escaped.
Qed.

Lemma wrap64_small (z : Z) : - 2 ^ 63 <= z < 2 ^ 63 -> wrap64 z = z.
Proof.
  intros Hz. unfold wrap64. rewrite Z.mod_small by lia. lia.
Qed.

Lemma Line_run (text : string) (b : PsWriter) :
  0 <= indent b < 2 ^ 62 ->
  Line text b = Some (with_buffer b (buffer b +:+ padding b +:+ text +:+ CRLF)).
Proof.
  intros Hi. unfold Line, Repeat. cbn [String.length Z.of_nat].
  destruct (Z.ltb_spec (indent b) 0); [lia|].
  destruct (Z.leb_spec (2 ^ 63) (Z.of_nat 2 * indent b)); [lia|]. reflexivity.
Qed.

Lemma Line_panics (text : string) (b : PsWriter) :
  indent b < 0 -> Line text b = None.
Proof.
  intros Hi. unfold Line, Repeat.
  destruct (Z.ltb_spec (indent b) 0); [reflexivity|lia].
Qed.

Lemma Line_overflows (text : string) (b : PsWriter) :
  2 ^ 62 <= indent b -> Line text b = None.
Proof.
  intros Hi. unfold Line, Repeat. cbn [String.length Z.of_nat].
  destruct (Z.leb_spec (2 ^ 63) (Z.of_nat 2 * indent b)); [|lia].
  now rewrite orb_true_r.
Qed.

Lemma appended_refl (x : string) : exists w, x = x +:+ w.
Proof. exists "". now rewrite append_empty_r. Qed.

Lemma appended_step (x y z : string) :
  (exists w, y = x +:+ w) -> exists w, y +:+ z = x +:+ w.
Proof. intros [w ->]. exists (w +:+ z). apply append_assoc. Qed.

Lemma wrote_Some (i : Z) (b b' : PsWriter) :
  indent b' = i -> TemporaryPath b' = TemporaryPath b ->
  (exists w, buffer b' = buffer b +:+ w) ->
  wrote i b (Some b').
Proof. intros Hi Ht [w Hw]. now exists b', w. Qed.

Ltac run_writer :=
  cbv zeta; unfold Indent, Unindent;
  repeat first
    [ rewrite wrap64_small by lia
    | rewrite Line_run by (cbn [indent]; lia)
    | progress (unfold with_buffer, with_indent, padding;
                cbn [mbind option_bind buffer TemporaryPath indent]) ].

Ltac wrote_done :=
  apply wrote_Some;
  [ cbn [indent]; lia
  | reflexivity
  | cbn [buffer]; repeat apply appended_step; apply appended_refl ].



(** X28.  A block closed without being opened panics: at an indentation
    of zero or less [EndIf] and [Else] unindent below zero, and writing a
    line at a negative indentation panics in [strings.Repeat]; so does
    every line written at a negative indentation. *)
Theorem unbalanced_block_panics (b : PsWriter) :
  - 2 ^ 63 < indent b <= 0 ->
  EndIf b = None /\ Else b = None
  /\ (indent b < 0 -> forall text, Line text b = None).
Proof.
  intros Hi. split; [|split].
  - unfold EndIf, Unindent. cbn [mbind option_bind].
    apply Line_panics. cbn [indent with_indent]. rewrite wrap64_small; lia.
  - unfold Else, Unindent. cbn [mbind option_bind].
    rewrite Line_panics; [reflexivity|].
    cbn [indent with_indent]. rewrite wrap64_small; lia.
  - intros Hneg text. now apply Line_panics.
Qed.

End PowerShellProperties.

(** ** The further properties on explicit inputs *)

Import MoreFixtures.

Lemma getArchitecture_normalises_witness :
  getArchitecture (env := env0)
    (set_info {| Architecture := "armv7l" |} (preparedExecutor freshDaemon)) = "arm".
Proof.
  apply (proj1 (proj2 (getArchitecture_normalises (env := env0)
                         (set_info {| Architecture := "armv7l" |}
                            (preparedExecutor freshDaemon))))).
  right. left. reflexivity.
Defined.

Lemma getPrebuiltImage_inspects_then_imports_witness :
  getPrebuiltImage (env := env0) (preparedExecutor freshDaemon) []
  = Done (Some {| image_ID := "sha256:gitlab-runner-prebuilt:x86_64-HEAD" |}, None)
         (preparedExecutor freshDaemon)
         [CallImageInspectWithRaw "gitlab-runner-prebuilt:x86_64-HEAD"].
Proof.
  apply (proj1 (proj2 (getPrebuiltImage_inspects_then_imports (env := env0)
                         (preparedExecutor freshDaemon) [] freshDaemon eq_refl))).
  - vm_compute. discriminate.
  - reflexivity.
Defined.

Lemma getAbsoluteContainerPath_is_absolute_witness :
  getAbsoluteContainerPath "/cache" (preparedExecutor freshDaemon) []
  = Done "/cache" (preparedExecutor freshDaemon) [].
Proof.
  exact (proj1 (getAbsoluteContainerPath_is_absolute "/cache"
                  (preparedExecutor freshDaemon) []) eq_refl).
Defined.

Lemma addVolume_host_volume_binds_witness :
  addVolume (env := env0) 3 "/srv/data:/data" (preparedExecutor freshDaemon) []
  = Done None (set_binds (append "/srv/data:/data") (preparedExecutor freshDaemon)) [].
Proof.
  exact (proj1 (addVolume_host_volume_binds (env := env0) 3 "/srv/data" "/data"
                  (preparedExecutor freshDaemon) [] eq_refl) eq_refl).
Defined.

Lemma addVolume_cache_without_container_witness :
  let s := configuredExecutor (volumesConfig [] [] [] "/var/cache") freshDaemon "" [] in
  addVolume (env := env0) 3 "/cache" s []
  = Done None
      (set_binds (append "/var/cache/proj/3c3f060a0374fc8bc39395164f415a70:/cache") s) [].
Proof.
  intros s.
  refine (proj2 (addVolume_cache_without_container (env := env0) 3 "/cache" s []
                   (volumesConfig [] [] [] "/var/cache")
                   (build "/builds/group/project" GitFetch)
                   eq_refl eq_refl eq_refl eq_refl) eq_refl _).
  vm_compute. discriminate.
Defined.

Lemma createDependencies_only_appends_witness :
  let s := cloneExecutor "/builds/group/project" in
  extends s (finalState s (createDependencies (env := env0) 3 s [])).
Proof.
  intros s.
  apply (createDependencies_only_appends (env := env0) 3 s []
           None (finalState s (createDependencies (env := env0) 3 s []))
           (finalHistory (createDependencies (env := env0) 3 s []))).
  - intros s0 h0 a s1 h1 [= _ <- _]. apply extends_refl.
  - vm_compute. reflexivity.
Defined.

Lemma createUserVolumes_binds_declared_host_volumes_witness :
  let s := configuredExecutor (volumesConfig [] ["/srv/data:/data"] [] "") freshDaemon "" [] in
  In "/srv/data:/data" (binds (finalState s (createUserVolumes (env := env0) 3 s []))).
Proof.
  intros s.
  apply (createUserVolumes_binds_declared_host_volumes (env := env0) 3 s []
           (volumesConfig [] ["/srv/data:/data"] [] "")
           (finalState s (createUserVolumes (env := env0) 3 s []))
           (finalHistory (createUserVolumes (env := env0) 3 s []))
           "/srv/data" "/data" eq_refl).
  - vm_compute. reflexivity.
  - reflexivity.
  - reflexivity.
  - left. reflexivity.
Defined.

Lemma parseDeviceString_parts_witness :
  parseDeviceString "/dev/kvm"
  = ({| PathOnHost := "/dev/kvm"; PathInContainer := "/dev/kvm";
        CgroupPermissions := "rwm" |}, None)
  /\ parseDeviceString "/dev/kvm:/dev/vm"
     = ({| PathOnHost := "/dev/kvm"; PathInContainer := "/dev/vm";
           CgroupPermissions := "rwm" |}, None)
  /\ parseDeviceString "/dev/kvm:/dev/vm:r"
     = ({| PathOnHost := "/dev/kvm"; PathInContainer := "/dev/vm";
           CgroupPermissions := "r" |}, None)
  /\ snd (parseDeviceString "/dev/kvm:/dev/vm:r:w") = Some (errorString "Too many colons").
Proof.
  exact (parseDeviceString_parts "/dev/kvm" "/dev/vm" "r" "w" eq_refl eq_refl eq_refl).
Defined.

Lemma bindDevices_appends_parsed_devices_witness :
  let s := configuredExecutor
             (volumesConfig [] [] ["/dev/kvm"; "/dev/fuse:/dev/fuse:rw"; "a:b:c:d"; "/dev/snd"] "")
             freshDaemon "" [] in
  exists good,
    Forall (fun d => snd (parseDeviceString d) = None) good
    /\ ((good = ["/dev/kvm"; "/dev/fuse:/dev/fuse:rw"; "a:b:c:d"; "/dev/snd"]
         /\ bindDevices (env := env0) s []
            = Done None
                (set_devices (fun ds => ds ++ map (fun d => fst (parseDeviceString d)) good) s)
                [])
        \/ exists bad err rest,
             ["/dev/kvm"; "/dev/fuse:/dev/fuse:rw"; "a:b:c:d"; "/dev/snd"]
             = good ++ bad :: rest
             /\ snd (parseDeviceString bad) = Some err
             /\ bindDevices (env := env0) s []
                = Done (Some (errorString
                          ("Failed to parse device string " +:+ quote bad +:+ ": "
                           +:+ Error err)))
                    (set_devices
                       (fun ds => ds ++ map (fun d => fst (parseDeviceString d)) good) s)
                    []).
Proof.
  intros s.
  exact (bindDevices_appends_parsed_devices (env := env0) s []
           (volumesConfig [] [] ["/dev/kvm"; "/dev/fuse:/dev/fuse:rw"; "a:b:c:d"; "/dev/snd"] "")
           eq_refl).
Defined.

Lemma isHostMountedVolume_edges_witness :
  isHostMountedVolume "/builds/" ["/cache"; "/srv/builds:/builds"] = true.
Proof.
  apply (proj2 (proj2 (isHostMountedVolume_edges "/builds/"
                         ["/cache"; "/srv/builds:/builds"])) "/srv/builds" "/builds").
  - reflexivity.
  - reflexivity.
  - right. left. reflexivity.
  - reflexivity.
  - vm_compute. discriminate.
  - vm_compute. discriminate.
Defined.

Lemma ReferenceRegexpNoPort_partitions_witness :
  exists m, ReferenceRegexpNoPort "registry.example.com:5000/group/image" = Some m.
Proof.
  exact (proj1 (ReferenceRegexpNoPort_partitions "registry.example.com:5000/group/image")
           eq_refl).
Defined.


Lemma verifyAllowedImage_accepts_iff_witness :
  verifyAllowedImage (env := env0) "ruby:2.1" "images" ["alpine"; "ruby:*"] [] = None.
Proof.
  apply (proj1 (verifyAllowedImage_accepts_iff (env := env0) "ruby:2.1" "images"
                  ["alpine"; "ruby:*"] [])).
  right. left. exists "ruby:*". split; [right; left; reflexivity|reflexivity].
Defined.

Lemma getServiceNames_expands_then_verifies_witness :
  let s := configuredExecutor (dockerConfig []) freshDaemon "" ["postgres:9.6"; "$IMG"] in
  getServiceNames (env := env0) s [] = Done (["postgres:9.6"; "evil/miner"], None) s [].
Proof.
  intros s.
  exact (getServiceNames_expands_then_verifies (env := env0) s []
           (build "/builds/group/project" GitFetch) (dockerConfig []) eq_refl eq_refl).
Defined.

Lemma createFromServiceDescription_twice_creates_once_witness :
  let s := preparedExecutor freshDaemon in
  let run := createFromServiceDescription (env := env0) "postgres:9.6" ∅ s [] in
  let linksMap := match returned run with Some (m, _) => m | None => ∅ end in
  createFromServiceDescription (env := env0) "postgres:9.6" linksMap
    (finalState s run) (finalHistory run)
  = Done (linksMap, None) (finalState s run) (finalHistory run).
Proof.
  intros s run linksMap.
  apply (createFromServiceDescription_twice_creates_once (env := env0) "postgres:9.6"
           ∅ linksMap s [] (finalState s run) (finalHistory run)).
  vm_compute. reflexivity.
Defined.

Lemma createContainer_replaces_named_container_witness :
  let s := preparedExecutor freshDaemon in
  let run := createContainer (env := env0) "build" "ruby:2.1" ["bash"] s [] in
  In (CallContainerRemove "proj-build" forcedRemoval) (finalHistory run).
Proof.
  intros s run.
  destruct (createContainer_replaces_named_container (env := env0) "build" "ruby:2.1"
              ["bash"] s [] freshDaemon (build "/builds/group/project" GitFetch)
              (dockerConfig []) (Some (stopped "new1" ∅ 0)) None
              (finalState s run) (finalHistory run) eq_refl eq_refl eq_refl)
    as (evs & Hh & [[_ Herr] | (after & config & hostConfig & before & Hevs & _)]).
  - vm_compute. reflexivity.
  - now destruct Herr.
  - rewrite Hh, Hevs. apply in_or_app. left. apply in_or_app. right.
    right. left. reflexivity.
Defined.

Lemma disconnectNetwork_scrubs_plugged_networks_witness :
  let s := preparedExecutor (networkedDaemon [isolated; bridge]) in
  exists r,
    disconnectNetwork "c1" s []
    = Done r s [CallNetworkDisconnect "net1" "c1" true; CallNetworkList].
Proof.
  intros s.
  exact (proj1 (proj2 (disconnectNetwork_scrubs_plugged_networks
                         (networkedDaemon [isolated; bridge]) "c1" s [] eq_refl))).
Defined.

Lemma buildServiceLinks_links_running_services_witness :
  let s := preparedExecutor (daemon "new1" runningInspect) in
  exists h',
    buildServiceLinks {[ "postgres" := fakeContainer "svc1" ["proj-postgres"] ]} s []
    = Done ["svc1:postgres"] s h'.
Proof.
  intros s.
  exact (proj2 (buildServiceLinks_links_running_services
                  {[ "postgres" := fakeContainer "svc1" ["proj-postgres"] ]} s [])
           (daemon "new1" runningInspect) true eq_refl
           (fun h0 id => conj eq_refl eq_refl)).
Defined.

Lemma Cleanup_twice_repeats_removals_witness :
  let s := set_caches (append "cache1") (preparedExecutor freshDaemon) in
  exists evs1 s1 evs2 s2,
    Cleanup (env := env0) s [] = Done tt s1 (CallClose :: evs1 ++ [])
    /\ Permutation (removals evs1) ["cache1"]
    /\ registered s1 = ["cache1"] /\ client s1 = Some freshDaemon
    /\ Cleanup (env := env0) s1 (CallClose :: evs1 ++ [])
       = Done tt s2 (CallClose :: evs2 ++ CallClose :: evs1 ++ [])
    /\ Permutation (removals evs2) (removals evs1).
Proof.
  intros s.
  exact (Cleanup_twice_repeats_removals (env := env0) freshDaemon s [] eq_refl).
Defined.

Lemma Prepare_settles_image_before_connecting_witness :
  let s := newExecutor (abstractExecutor None None None) None "evil/miner" [] in
  exists s',
    Prepare (env := env0) 3 {| BuildsDir := ""; Docker := Some (dockerConfig ["ruby:*"]) |}
      (build "/builds/group/project" GitFetch) s []
    = Done (Some (errorString "invalid image")) s' []
    /\ client s' = None /\ registered s' = []
    /\ binds s' = [] /\ volumesFrom s' = [].
Proof.
  intros s.
  refine (Prepare_settles_image_before_connecting (env := env0) 3
            {| BuildsDir := ""; Docker := Some (dockerConfig ["ruby:*"]) |}
            (build "/builds/group/project" GitFetch) bash (dockerConfig ["ruby:*"])
            s [] eq_refl _ eq_refl (errorString "invalid image") eq_refl).
  intros a. eexists. repeat split; reflexivity.
Defined.

Lemma psQuote_escapes_each_character_witness :
  PowerShell.escapedFrom PowerShell.dquote false
    (PowerShell.escapeAll PowerShell.psEscape
       ("say " +:+ String PowerShell.dquote "hi")) = true.
Proof.
  apply (proj2 (proj2 (psQuote_escapes_each_character
                         ("say " +:+ String PowerShell.dquote "hi")))).
  left. reflexivity.
Defined.

Lemma psQuote_injective_without_caret_escapes_witness :
  PowerShell.psUnescape (PowerShell.psQuoteBody "echo `date` # 'now'")
  = "echo `date` # 'now'".
Proof.
  exact (proj1 (psQuote_injective_without_caret_escapes
                  "echo `date` # 'now'" "" eq_refl eq_refl)).
Defined.

Lemma psQuoteVariable_escapes_dollar_witness :
  PowerShell.escapedFrom "$" false
    (PowerShell.escapeAll PowerShell.psEscapeVariable "$env:CI_TOKEN") = true.
Proof.
  apply (proj2 (psQuoteVariable_escapes_dollar "$env:CI_TOKEN")).
  left. reflexivity.
Defined.



Lemma unbalanced_block_panics_witness :
  PowerShell.EndIf newWriter = None.
Proof.
  refine (proj1 (unbalanced_block_panics newWriter _)).
  cbn. lia.
Defined.
